(** * Ledger-backed CryptoNote helper: a shallow embedding

    The development follows [src/dist/LedgerDevice.js] (the Device Client and
    its APDU framing) and [src/src/LedgerNote.ts] (the CryptoNote helper and
    the transaction builder).

    - JavaScript numbers that hold integers are [Z]; counts and lengths are
      [nat]; a value that may be [undefined] is an [option].  A number is a
      double: where the code prints a number, or turns a big integer into
      one, the model rounds as the double does ([nearest_double]), and where
      it computes with an amount it stays within [MAX_SAFE_INTEGER].
    - A [Buffer] is a list of bytes, each byte a [Z] in [0, 256).  The fixed
      fields of [bytestream-helper]'s [Writer] throw on a value outside
      their range; its [Reader] throws when a number is read past the end
      and slices what is left when hexadecimal text is read.
    - An [async] function is a computation over an explicit world (the bytes
      handed to the transport so far, the device behind the transport, and
      the cached session of the helper) that returns a value or throws.
    - The collaborators that live outside the two files (crypto provider,
      address codec, transaction decoder, the defaults of config.json) are
      section variables. *)

From Stdlib Require Import ZArith List String Ascii Bool Lia Sorting.Sorted Sorting.Permutation.
Import ListNotations.
Local Open Scope Z_scope.

Set Implicit Arguments.

(** ** Errors and results *)

(** [throw new Error(msg)] and [throw new RangeError(msg)]. *)
Inductive JsError : Type :=
| Error (message : string)
| RangeError (message : string).

Inductive Result (A : Type) : Type :=
| Ok (value : A)
| Throw (err : JsError).
Arguments Ok {A} value.
Arguments Throw {A} err.

Definition is_ok {A} (r : Result A) : bool :=
  match r with Ok _ => true | Throw _ => false end.

(** ** Bytes, big-endian fields and hexadecimal strings *)

Definition Buffer := list Z.

Definition uint8_t (v : Z) : Buffer := [v mod 256].

Definition uint16_be (v : Z) : Buffer := [(v / 256) mod 256; v mod 256].

Definition uint16_le (v : Z) : Buffer := [v mod 256; (v / 256) mod 256].

(** The [width] bytes of [v], most significant first.  The writers below
    hand it values inside the range of the field only. *)
Fixpoint uint_be (width : nat) (v : Z) : Buffer :=
  match width with
  | O => []
  | S w => (v / 256 ^ Z.of_nat w) mod 256 :: uint_be w v
  end.

Definition uint32_be : Z -> Buffer := uint_be 4.
Definition uint64_be : Z -> Buffer := uint_be 8.

(** The fields of [bytestream-helper]'s [Writer] that take a number check
    it before a byte is written: the underlying write throws a [RangeError]
    on a value outside the range of the field.  (Node's message, which
    quotes the bounds and the value, is not modelled.) *)
Definition out_of_range : JsError := RangeError "The value is out of range".

(** [writer.uint32_t(value, true)]: [Buffer.writeUInt32BE]. *)
Definition Writer_uint32_t (value : Z) (writer : Buffer) : Result Buffer :=
  if (value <? 0) || (4294967295 <? value) then Throw out_of_range
  else Ok (writer ++ uint32_be value).

(** [writer.uint64_t(value, true)]. *)
Definition Writer_uint64_t (value : Z) (writer : Buffer) : Result Buffer :=
  if (value <? 0) || (18446744073709551615 <? value) then Throw out_of_range
  else Ok (writer ++ uint64_be value).

(** [writer.uint16_t(value, true)]: the big-endian form of this field is
    written with [Buffer.writeInt16BE], the signed write, so it takes
    [-32768 .. 32767]; a negative value is written in two's complement. *)
Definition Writer_uint16_t_be (value : Z) (writer : Buffer) : Result Buffer :=
  if (value <? -32768) || (32767 <? value) then Throw out_of_range
  else Ok (writer ++ uint16_be value).

(** [for (const x of xs) { writer.field(x) }]. *)
Fixpoint Writer_each {A} (field : A -> Buffer -> Result Buffer) (xs : list A)
    (writer : Buffer) : Result Buffer :=
  match xs with
  | [] => Ok writer
  | x :: rest =>
      match field x writer with
      | Throw e => Throw e
      | Ok writer' => Writer_each field rest writer'
      end
  end.

Definition read_uint16_be (hi lo : Z) : Z := hi * 256 + lo.

Definition in_range (lo hi : nat) (c : ascii) : bool :=
  let n := nat_of_ascii c in (lo <=? n)%nat && (n <=? hi)%nat.

(** The characters of hexadecimal text, written out. *)
Definition hexadecimal_alphabet : list ascii :=
  list_ascii_of_string "0123456789abcdefABCDEF".

(** The character class [[0-9a-fA-F]]. *)
Definition isHexChar (c : ascii) : bool :=
  in_range 48 57 c || in_range 97 102 c || in_range 65 70 c.

Definition hexval (c : ascii) : Z :=
  let n := Z.of_nat (nat_of_ascii c) in
  if in_range 48 57 c then n - 48
  else if in_range 97 102 c then n - 87
  else if in_range 65 70 c then n - 55
  else 0.

(** [Buffer.from(s, 'hex')]: two characters a byte, stopping at the first
    pair that is not hexadecimal. *)
Fixpoint hex_decode_chars (cs : list ascii) : Buffer :=
  match cs with
  | a :: b :: rest =>
      if isHexChar a && isHexChar b
      then (hexval a * 16 + hexval b) :: hex_decode_chars rest
      else []
  | _ => []
  end.

Definition hex_decode (s : string) : Buffer :=
  hex_decode_chars (list_ascii_of_string s).

Definition hexdigit (n : Z) : ascii :=
  ascii_of_nat (Z.to_nat (if n <? 10 then 48 + n else 87 + n)).

(** [buffer.toString('hex')]. *)
Definition hex_encode (b : Buffer) : string :=
  string_of_list_ascii
    (flat_map (fun x => [hexdigit ((x mod 256) / 16); hexdigit (x mod 16)]) b).

(** ** Printing numbers *)

(** Decimal digits, least significant first. *)
Fixpoint digits_lsb (fuel : nat) (n : Z) : list Z :=
  match fuel with
  | O => []
  | S f => if n <? 10 then [n] else (n mod 10) :: digits_lsb f (n / 10)
  end.

Definition digit_char (d : Z) : ascii := ascii_of_nat (Z.to_nat (48 + d)).

(** Every decimal digit of a non-negative integer, most significant first. *)
Definition decimal_digits (n : Z) : list ascii :=
  rev (map digit_char (digits_lsb (S (Z.to_nat (Z.log2 n))) n)).

(** [Number.MAX_SAFE_INTEGER]: up to here every integer is a double. *)
Definition MAX_SAFE_INTEGER : Z := 2 ^ 53 - 1.

(** The double nearest to a non-negative integer: 53 significant bits, a
    tie going to the even significand. *)
Definition nearest_double (m : Z) : Z :=
  if m <=? MAX_SAFE_INTEGER then m
  else
    let e := Z.log2 m - 52 in
    let q := m / 2 ^ e in
    let r := m mod 2 ^ e in
    let half := 2 ^ (e - 1) in
    let q' := if (half <? r) || ((r =? half) && Z.odd q) then q + 1 else q in
    q' * 2 ^ e.

(** From here on the nearest double is [Infinity]. *)
Definition DOUBLE_OVERFLOW : Z := 2 ^ 1024 - 2 ^ 970.

(** The [k]-digit number [s] for which [s * 10^(digits - k)] is read back as
    [x], when there is one; of two, the one nearer to [x], and of two
    equally near the even one. *)
Definition shortest_candidate (x : Z) (digits k : nat) : option Z :=
  let p := 10 ^ Z.of_nat (digits - k) in
  let s0 := x / p in
  let reads_back s := (s <? 10 ^ Z.of_nat k) && (nearest_double (s * p) =? x) in
  match reads_back s0, reads_back (s0 + 1) with
  | true, true =>
      let below := x - s0 * p in
      let above := (s0 + 1) * p - x in
      if below <? above then Some s0
      else if above <? below then Some (s0 + 1)
      else if Z.even s0 then Some s0 else Some (s0 + 1)
  | true, false => Some s0
  | false, true => Some (s0 + 1)
  | false, false => None
  end.

(** The least number of digits, from [k] on, with such a candidate. *)
Fixpoint shortest_from (fuel : nat) (x : Z) (digits k : nat) : Z * nat :=
  match fuel with
  | O => (x, digits)
  | S f =>
      match shortest_candidate x digits k with
      | Some s => (s, k)
      | None => shortest_from f x digits (S k)
      end
  end.

(** [Number::toString] on a double [x] above [MAX_SAFE_INTEGER]: integers
    [n], [k], [s] with [k] as small as possible such that [s * 10^(n-k)],
    [s] of [k] digits, is read back as [x]; up to [n = 21] the digits of [s]
    and [n - k] zeros, beyond it the exponent form. *)
Definition shortest_round_trip (x : Z) : string :=
  let digits := List.length (decimal_digits x) in
  let '(s, k, n) :=
    if nearest_double (10 ^ Z.of_nat digits) =? x then (1, 1%nat, S digits)
    else let (s, k) := shortest_from digits x digits 1 in (s, k, digits) in
  if (n <=? 21)%nat then
    string_of_list_ascii (decimal_digits s ++ repeat "0"%char (n - k))
  else
    let exponent := decimal_digits (Z.of_nat (n - 1)) in
    match decimal_digits s with
    | [] => EmptyString
    | first :: [] => string_of_list_ascii (first :: "e"%char :: "+"%char :: exponent)
    | first :: rest =>
        string_of_list_ascii
          (first :: "."%char :: rest ++ "e"%char :: "+"%char :: exponent)
    end.

(** [n.toString()] for a number that holds a non-negative integer: every
    digit up to [MAX_SAFE_INTEGER]; above it the number is the nearest
    double, printed with the fewest digits that read back as that double. *)
Definition Number_toString (n : Z) : string :=
  if n <=? MAX_SAFE_INTEGER then string_of_list_ascii (decimal_digits n)
  else if DOUBLE_OVERFLOW <=? n then "Infinity"
  else shortest_round_trip (nearest_double n).

(** A number spliced into a message: ['...' + x]. *)
Definition show_number (x : option Z) : string :=
  match x with
  | None => "undefined"
  | Some v => if v <? 0 then String "-" (Number_toString (- v)) else Number_toString v
  end.

(** ** Configuration *)

(** The keys of the configuration that the modelled code reads.  A key that
    is absent is [None] ([undefined]).  The numbers are taken to be whole
    numbers, the fusion ratio among them. *)
Record ConfigT : Type := mkConfig {
  defaultNetworkFee : option Z;
  fusionMinInputCount : option Z;
  fusionMinInOutCountRatio : option Z;
  maximumOutputAmount : option Z;
  maximumOutputsPerTransaction : option Z;
  activateFeePerByteTransactions : option bool;
  maximumLedgerTransactionSize : option Z
}.

(** [a || b] on numbers: [a] when it is truthy (defined and not zero). *)
Definition js_or (a b : option Z) : option Z :=
  match a with
  | Some v => if v =? 0 then b else a
  | None => b
  end.

(** [x > y], [x >= y], [x < y] where [y] may be [undefined]: a comparison
    with [undefined] is false. *)
Definition js_gt (x : Z) (y : option Z) : bool :=
  match y with Some v => v <? x | None => false end.
Definition js_ge (x : Z) (y : option Z) : bool :=
  match y with Some v => v <=? x | None => false end.
Definition js_lt (x : Z) (y : option Z) : bool :=
  match y with Some v => x <? v | None => false end.

(** [new LedgerNote(transport, config)].  config.json is loaded once:
    [Config] of LedgerNote.ts, [this.config] and [config] of LedgerDevice.js
    all name that one object, and the constructor writes into it every key
    that its argument holds (the size of a dumped transaction is not among
    the keys it copies).  [Config] is the object as it was loaded, [config]
    the argument of the constructor, and the value is the object as every
    later read finds it, under each of its names. *)
Definition constructed (Config config : ConfigT) : ConfigT :=
  let written {A} (key : ConfigT -> option A) : option A :=
    match key config with
    | Some v => Some v
    | None => key Config
    end in
  mkConfig (written defaultNetworkFee) (written fusionMinInputCount)
    (written fusionMinInOutCountRatio) (written maximumOutputAmount)
    (written maximumOutputsPerTransaction) (written activateFeePerByteTransactions)
    (maximumLedgerTransactionSize Config).

(** ** Addresses and key pairs *)

Record KeyPair : Type := mkKeyPair {
  publicKey : string;
  privateKey : string
}.

Record Address : Type := mkAddress {
  spend : KeyPair;
  view : KeyPair;
  paymentId : string
}.

Record GeneratedOutput : Type := mkGeneratedOutput {
  go_amount : Z;
  go_destination : Address
}.

(** ** [generateTransactionOutputs] *)

Section GenerateOutputs.

(** The object of config.json as loaded, and [Address.fromAddress]. *)
Variable Config : ConfigT.
Variable Address_fromAddress : string -> Result Address.

(** [parseInt(c, 10)] on one decimal digit. *)
Definition parseInt (c : ascii) : Z := Z.of_nat (nat_of_ascii c) - 48.

(** [while (splitAmt >= max) { result.push(max); splitAmt -= max }].
    [None] when the fuel runs out. *)
Fixpoint split_loop (fuel : nat) (maxAmt : Z) (destination : Address)
    (splitAmt : Z) (result : list GeneratedOutput)
    : option (list GeneratedOutput) :=
  if maxAmt <=? splitAmt then
    match fuel with
    | O => None
    | S f =>
        split_loop f maxAmt destination (splitAmt - maxAmt)
          (result ++ [mkGeneratedOutput maxAmt destination])
    end
  else Some result.

(** The number of turns of the loop: with a positive bound it runs
    [amt / max] times; with a bound that is not positive the condition
    stays true and the loop never ends. *)
Definition split_fuel (maxAmt amt : Z) : nat :=
  if 0 <? maxAmt then S (Z.to_nat (amt / maxAmt)) else O.

(** The body of [for (let i = 0; i < amountChars.length; i++)]. *)
Fixpoint outputs_loop (maxAmt : option Z) (destination : Address)
    (amountChars : list ascii) (i : Z) (result : list GeneratedOutput)
    : option (list GeneratedOutput) :=
  match amountChars with
  | [] => Some result
  | c :: rest =>
      let amt := parseInt c * 10 ^ i in
      if js_gt amt maxAmt then
        match maxAmt with
        | Some m =>
            match split_loop (split_fuel m amt) m destination amt result with
            | Some result' => outputs_loop maxAmt destination rest (i + 1) result'
            | None => None
            end
        | None => None
        end
      else if negb (amt =? 0) then
        outputs_loop maxAmt destination rest (i + 1)
          (result ++ [mkGeneratedOutput amt destination])
      else outputs_loop maxAmt destination rest (i + 1) result
  end.

(** [config] is the argument the helper was constructed with.  [None] is a
    call of which the model gives no result: one that never returns, or one
    with an amount above [MAX_SAFE_INTEGER], where the digits printed, the
    products and the differences are no longer those of the integers. *)
Definition generateTransactionOutputs (config : ConfigT)
    (address : string) (amount : Z)
    : option (Result (list GeneratedOutput)) :=
  let this_config := constructed Config config in
  if amount <? 0 then
    Some (Throw (RangeError "Amount must be a positive value"))
  else
    match Address_fromAddress address with
    | Throw e => Some (Throw e)
    | Ok destination =>
        if MAX_SAFE_INTEGER <? amount then None
        else
          let amountChars := rev (list_ascii_of_string (Number_toString amount)) in
          let maxAmt :=
            js_or (maximumOutputAmount this_config) (maximumOutputAmount this_config) in
          match outputs_loop maxAmt destination amountChars 0 [] with
          | Some result => Some (Ok result)
          | None => None
          end
    end.

End GenerateOutputs.

Definition amounts (l : list GeneratedOutput) : list Z := map go_amount l.

Definition sum (l : list Z) : Z := fold_right Z.add 0 l.

(** ** The world of an [async] call *)

(** The session cached by the helper ([m_spend], [m_view], [m_address],
    [m_fetched]). *)
Record Session : Type := mkSession {
  m_spend : KeyPair;
  m_view : KeyPair;
  m_address : Address;
  m_fetched : bool
}.

Section Device.

(** The state of the device behind the transport. *)
Variable Dev : Type.

Record World : Type := mkWorld {
  sent : list Buffer;
  dev : Dev;
  session : Session
}.

Definition M (A : Type) : Type := World -> Result A * World.

Definition ret {A} (a : A) : M A := fun w => (Ok a, w).

Definition throw {A} (e : JsError) : M A := fun w => (Throw e, w).

Definition bind {A B} (m : M A) (k : A -> M B) : M B :=
  fun w =>
    match m w with
    | (Ok a, w') => k a w'
    | (Throw e, w') => (Throw e, w')
    end.

Definition lift {A} (r : Result A) : M A := fun w => (r, w).

(** [try { body } finally { fin }]: the cleanup runs on both outcomes, and
    an error it throws replaces the outcome of the body. *)
Definition try_finally {A} (body : M A) (fin : M unit) : M A :=
  fun w =>
    let (r, w1) := body w in
    match fin w1 with
    | (Ok _, w2) => (r, w2)
    | (Throw e, w2) => (Throw e, w2)
    end.

(** [promise.catch(onRejected)] is [promise.then(undefined, onRejected)]:
    without a handler the rejection passes through. *)
Definition Promise_catch {A} (p : M A) (onRejected : option (JsError -> M A))
    : M A :=
  match onRejected with
  | None => p
  | Some handler =>
      fun w =>
        match p w with
        | (Throw e, w') => handler e w'
        | (Ok a, w') => (Ok a, w')
        end
  end.

(** [Promise.all]: every promise runs (here one after the other, in the
    order they were created); the values in that order, or a rejection. *)
Fixpoint Promise_all {A} (ps : list (M A)) : M (list A) :=
  match ps with
  | [] => ret []
  | p :: rest =>
      fun w =>
        let (r, w1) := p w in
        let (rs, w2) := Promise_all rest w1 in
        match r, rs with
        | Ok a, Ok l => (Ok (a :: l), w2)
        | Throw e, _ => (Throw e, w2)
        | Ok _, Throw e => (Throw e, w2)
        end
  end.

(** [for (const x of xs) { await f(x) }]. *)
Fixpoint for_each {A} (f : A -> M unit) (xs : list A) : M unit :=
  match xs with
  | [] => ret tt
  | x :: rest => bind (f x) (fun _ => for_each f rest)
  end.

End Device.

Arguments ret {Dev A} a w.
Arguments throw {Dev A} e w.
Arguments lift {Dev A} r w.
Arguments mkWorld {Dev} sent dev session.

Declare Scope js_scope.
Delimit Scope js_scope with js.
Notation "x <- m ;; k" := (bind m (fun x => k))
  (at level 61, m at next level, right associativity) : js_scope.
Notation "m ;;; k" := (bind m (fun _ => k))
  (at level 61, right associativity) : js_scope.
Local Open Scope js_scope.

(** ** The Device Client ([LedgerDevice.js]) *)

Module APDU.
Definition P2 : Z := 0.
Definition P1_NON_CONFIRM : Z := 0.
Definition P1_CONFIRM : Z := 1.
Definition INS : Z := 224.
End APDU.

Inductive CMD : Type :=
| VERSION | DEBUG | IDENT | PUBLIC_KEYS | VIEW_SECRET_KEY | SPEND_ESECRET_KEY
| CHECK_KEY | CHECK_SCALAR | PRIVATE_TO_PUBLIC | RANDOM_KEY_PAIR | ADDRESS
| GENERATE_KEY_IMAGE | GENERATE_RING_SIGNATURES | COMPLETE_RING_SIGNATURE
| CHECK_RING_SIGNATURES | GENERATE_SIGNATURE | CHECK_SIGNATURE
| GENERATE_KEY_DERIVATION | DERIVE_PUBLIC_KEY | DERIVE_SECRET_KEY
| TX_STATE | TX_START | TX_START_INPUT_LOAD | TX_LOAD_INPUT
| TX_START_OUTPUT_LOAD | TX_LOAD_OUTPUT | TX_FINALIZE_TX_PREFIX | TX_SIGN
| TX_DUMP | TX_RESET | RESET_KEYS.

Definition cmd_code (c : CMD) : Z :=
  match c with
  | VERSION => 1 | DEBUG => 2 | IDENT => 5 | PUBLIC_KEYS => 16
  | VIEW_SECRET_KEY => 17 | SPEND_ESECRET_KEY => 18 | CHECK_KEY => 22
  | CHECK_SCALAR => 23 | PRIVATE_TO_PUBLIC => 24 | RANDOM_KEY_PAIR => 25
  | ADDRESS => 48 | GENERATE_KEY_IMAGE => 64 | GENERATE_RING_SIGNATURES => 80
  | COMPLETE_RING_SIGNATURE => 81 | CHECK_RING_SIGNATURES => 82
  | GENERATE_SIGNATURE => 85 | CHECK_SIGNATURE => 86
  | GENERATE_KEY_DERIVATION => 96 | DERIVE_PUBLIC_KEY => 97
  | DERIVE_SECRET_KEY => 98 | TX_STATE => 112 | TX_START => 113
  | TX_START_INPUT_LOAD => 114 | TX_LOAD_INPUT => 115
  | TX_START_OUTPUT_LOAD => 116 | TX_LOAD_OUTPUT => 117
  | TX_FINALIZE_TX_PREFIX => 118 | TX_SIGN => 119 | TX_DUMP => 120
  | TX_RESET => 121 | RESET_KEYS => 255
  end.

Module TransactionState.
Definition INACTIVE : Z := 0.
Definition READY : Z := 1.
Definition RECEIVING_INPUTS : Z := 2.
Definition INPUTS_RECEIVED : Z := 3.
Definition RECEIVING_OUTPUTS : Z := 4.
Definition OUTPUTS_RECEIVED : Z := 5.
Definition PREFIX_READY : Z := 6.
Definition COMPLETE : Z := 7.
End TransactionState.

Module ErrorCode.
Definition OK : Z := 36864.
End ErrorCode.

(** [isHex], [isHex64], [isHex128]. *)

(** [new RegExp('^[0-9a-fA-F]{' + n + '}$').test(value)]. *)
Fixpoint regex_hex_n (n : nat) (value : list ascii) : bool :=
  match n, value with
  | O, [] => true
  | S n', c :: rest => isHexChar c && regex_hex_n n' rest
  | _, _ => false
  end.

Definition isHex (value : string) : bool :=
  if negb (Nat.eqb (String.length value mod 2) 0) then false
  else regex_hex_n (String.length value) (list_ascii_of_string value).

Definition isHex64 (value : string) : bool :=
  isHex value && Nat.eqb (String.length value) 64.

Definition isHex128 (value : string) : bool :=
  isHex value && Nat.eqb (String.length value) 128.

(** The readers of [bytestream-helper]: a reader is the bytes not read yet.
    A number is read with the reads of [Buffer], which throw past the end;
    hexadecimal text is read with [Buffer.slice], which gives what is left. *)
Definition read_past_end : JsError := RangeError "Cannot read beyond the end of the buffer".

Definition reader_uint8_t (r : Buffer) : Result (Z * Buffer) :=
  match r with
  | b :: rest => Ok (b, rest)
  | [] => Throw read_past_end
  end.

Definition reader_uint16_be (r : Buffer) : Result (Z * Buffer) :=
  match r with
  | hi :: lo :: rest => Ok (read_uint16_be hi lo, rest)
  | _ => Throw read_past_end
  end.

(** [reader.hex(n)]: the next [n] bytes in hexadecimal, or as many as are
    left; it never throws. *)
Definition reader_hex (n : nat) (r : Buffer) : Result (string * Buffer) :=
  Ok (hex_encode (firstn n r), skipn n r).

(** [reader.hash()]. *)
Definition reader_hash : Buffer -> Result (string * Buffer) := reader_hex 32.

(** Hexadecimal text of [n] characters at most. *)
Definition hex_up_to (n : nat) (s : string) : Prop :=
  isHex s = true /\ (String.length s <= n)%nat.

(** [buffer.slice(start)] and [buffer.slice(0, stop)]. *)
Definition slice_from (start : Z) (b : Buffer) : Buffer :=
  let len := Z.of_nat (List.length b) in
  let s := if start <? 0 then Z.max (len + start) 0 else Z.min start len in
  skipn (Z.to_nat s) b.

Definition slice_to (stop : Z) (b : Buffer) : Buffer :=
  let len := Z.of_nat (List.length b) in
  let e := if stop <? 0 then Z.max (len + stop) 0 else Z.min stop len in
  firstn (Z.to_nat e) b.

Section DeviceClient.

(** The device behind the transport: [transport.exchange(request)] answers
    with bytes or throws, and moves the device to a new state. *)
Variable Dev : Type.
Variable transport_exchange : Dev -> Buffer -> Result Buffer * Dev.

(** The object of config.json as the Device Client finds it when it runs,
    and the decoder [Transaction.from]. *)
Variable Config : ConfigT.
Variable TransactionT : Type.
Variable Transaction_from : Buffer -> Result TransactionT.

#[local] Abbreviation M := (M Dev).

(** The part of [exchange] after [transport.exchange] returned: the last
    two bytes are the status word, the rest is the body. *)
Definition parse_response (result : Buffer) : Result Buffer :=
  let len := Z.of_nat (List.length result) in
  let code := slice_from (len - 2) result in
  let response := slice_to (len - Z.of_nat (List.length code)) result in
  match reader_uint16_be code with
  | Throw e => Throw e
  | Ok (errCode, _) =>
      if negb (errCode =? ErrorCode.OK) then
        if (2 <=? List.length response)%nat then
          match reader_uint16_be response with
          | Throw e => Throw e
          | Ok (errCode', _) =>
              Throw (Error ("Could not complete request: " ++ show_number (Some errCode')))
          end
        else Throw (Error ("Could not complete request: " ++ show_number (Some errCode)))
      else Ok response
  end.

(** [this.m_transport.exchange(writer.buffer)] and what follows it. *)
Definition transmit (request : Buffer) : M Buffer :=
  fun w =>
    let (answer, dev') := transport_exchange (dev w) request in
    let w' := mkWorld (sent w ++ [request]) dev' (session w) in
    match answer with
    | Throw e => (Throw e, w')
    | Ok result => (parse_response result, w')
    end.

(** [exchange(command, confirm = true, data)].  Every field it writes is
    in the range of its write: the four header bytes are constants below
    256 and the length is at most 506. *)
Definition exchange (command : CMD) (confirm : option bool)
    (data : option Buffer) : M Buffer :=
  let confirm := match confirm with Some c => c | None => true end in
  let writer : Buffer := [] in
  let writer := writer ++ uint8_t APDU.INS in
  let writer := writer ++ uint8_t (cmd_code command) in
  let writer :=
    if confirm then writer ++ uint8_t APDU.P1_CONFIRM
    else writer ++ uint8_t APDU.P1_NON_CONFIRM in
  let writer := writer ++ uint8_t APDU.P2 in
  match data with
  | Some data =>
      if 512 - 6 <? Z.of_nat (List.length data) then
        throw (Error "Data payload exceeds maximum size")
      else
        let writer := writer ++ uint16_be (Z.of_nat (List.length data)) in
        let writer := writer ++ data in
        transmit writer
  | None =>
      let writer := writer ++ uint16_le 0 in
      transmit writer
  end.

Definition checkKey (key : string) : M bool :=
  if negb (isHex64 key) then throw (Error "Malformed key supplied")
  else
    let writer := [] ++ hex_decode key in
    result <- exchange CHECK_KEY None (Some writer) ;;
    v <- lift (reader_uint8_t result) ;;
    ret (fst v =? 1).

Definition checkScalar (scalar : string) : M bool :=
  if negb (isHex64 scalar) then throw (Error "Malformed key supplied")
  else
    let writer := [] ++ hex_decode scalar in
    result <- exchange CHECK_SCALAR None (Some writer) ;;
    v <- lift (reader_uint8_t result) ;;
    ret (fst v =? 1).

Definition getPublicKeys (confirm : option bool) : M (string * string) :=
  result <- exchange PUBLIC_KEYS confirm None ;;
  spend <- lift (reader_hash result) ;;
  view <- lift (reader_hash (snd spend)) ;;
  ret (fst spend, fst view).

Definition getPrivateViewKey (confirm : option bool) : M string :=
  result <- exchange VIEW_SECRET_KEY confirm None ;;
  h <- lift (reader_hash result) ;;
  ret (fst h).

Definition privateToPublic (private_key : string) : M string :=
  if negb (isHex64 private_key) then throw (Error "Malformed private_key supplied")
  else
    let writer := [] ++ hex_decode private_key in
    result <- exchange PRIVATE_TO_PUBLIC None (Some writer) ;;
    h <- lift (reader_hash result) ;;
    ret (fst h).

Definition getRandomKeyPair : M (string * string) :=
  result <- exchange RANDOM_KEY_PAIR None None ;;
  pub <- lift (reader_hash result) ;;
  priv <- lift (reader_hash (snd pub)) ;;
  ret (fst pub, fst priv).

Definition generateKeyImage (tx_public_key : string) (output_index : Z)
    (output_key : string) (confirm : option bool) : M string :=
  if negb (isHex64 tx_public_key) then throw (Error "Malformed tx_public_key supplied")
  else if output_index <? 0 then throw (Error "output_index must be >= 0")
  else if negb (isHex64 output_key) then throw (Error "Malformed output_key supplied")
  else
    let writer := [] ++ hex_decode tx_public_key in
    writer <- lift (Writer_uint32_t output_index writer) ;;
    let writer := writer ++ hex_decode output_key in
    result <- exchange GENERATE_KEY_IMAGE confirm (Some writer) ;;
    h <- lift (reader_hash result) ;;
    ret (fst h).

Definition completeRingSignature (tx_public_key : string) (output_index : Z)
    (output_key k signature : string) (confirm : option bool) : M string :=
  if negb (isHex64 tx_public_key) then throw (Error "Malformed tx_public_key supplied")
  else if output_index <? 0 then throw (Error "output_index must be >= 0")
  else if negb (isHex64 output_key) then throw (Error "Malformed output_key supplied")
  else if negb (isHex64 k) then throw (Error "Malformed k supplied")
  else if negb (isHex128 signature) then throw (Error "Malformed signature supplied")
  else
    let writer := [] ++ hex_decode tx_public_key in
    writer <- lift (Writer_uint32_t output_index writer) ;;
    let writer := writer ++ hex_decode output_key in
    let writer := writer ++ hex_decode k in
    let writer := writer ++ hex_decode signature in
    result <- exchange COMPLETE_RING_SIGNATURE confirm (Some writer) ;;
    s <- lift (reader_hex 64 result) ;;
    ret (fst s).

Definition generateSignature (message_digest : string) (confirm : option bool)
    : M string :=
  if negb (isHex64 message_digest) then throw (Error "Malformed message_digest supplied")
  else
    let writer := [] ++ hex_decode message_digest in
    result <- exchange GENERATE_SIGNATURE confirm (Some writer) ;;
    if negb (Nat.eqb (List.length result) 64) then
      throw (Error "Data returned does not appear to be a signature")
    else
      s <- lift (reader_hex 64 result) ;;
      ret (fst s).

Definition transactionState : M Z :=
  result <- exchange TX_STATE None None ;;
  v <- lift (reader_uint8_t result) ;;
  ret (fst v).

Definition resetTransaction (confirm : option bool) : M unit :=
  exchange TX_RESET confirm None ;;; ret tt.

(** A string that may be [undefined] is truthy when it is defined and not
    empty. *)
Definition truthy (s : option string) : bool :=
  match s with
  | Some s => negb (Nat.eqb (String.length s) 0)
  | None => false
  end.

Definition startTransaction (unlock_time input_count output_count : Z)
    (tx_public_key : string) (payment_id : option string) : M unit :=
  if (90 <? input_count) || (input_count <? 0) then
    throw (RangeError "input_count not in range")
  else if (90 <? output_count) || (output_count <? 0) then
    throw (RangeError "output_count not in range")
  else if negb (isHex64 tx_public_key) then
    throw (Error "Malformed tx_public_key supplied")
  else if truthy payment_id
            && negb (isHex64 (match payment_id with Some p => p | None => "" end)) then
    throw (Error "Malformed payment_id supplied")
  else
    writer <- lift (Writer_uint64_t unlock_time []) ;;
    let writer := writer ++ uint8_t input_count in
    let writer := writer ++ uint8_t output_count in
    let writer := writer ++ hex_decode tx_public_key in
    let writer :=
      match payment_id with
      | Some p =>
          if truthy payment_id then (writer ++ uint8_t 1) ++ hex_decode p
          else writer ++ uint8_t 0
      | None => writer ++ uint8_t 0
      end in
    exchange TX_START None (Some writer) ;;; ret tt.

Definition startTransactionInputLoad : M unit :=
  exchange TX_START_INPUT_LOAD None None ;;; ret tt.

Definition loadTransactionInput (input_tx_public_key : string)
    (input_output_index amount : Z) (public_keys : list string)
    (offsets : list Z) (real_output_index : Z) : M unit :=
  if negb (isHex64 input_tx_public_key) then
    throw (Error "Malformed input_tx_public_key")
  else if (255 <? input_output_index) || (input_output_index <? 0) then
    throw (RangeError "input_output_index out of range")
  else if js_gt amount (maximumOutputAmount Config) || (amount <? 0) then
    throw (RangeError "amount out of range")
  else if negb (Nat.eqb (List.length public_keys) 4) then
    throw (Error "Must supply four (4) public_key values")
  else if negb (forallb isHex64 public_keys) then
    throw (Error "Malformed public_key supplied")
  else if negb (Nat.eqb (List.length offsets) 4) then
    throw (Error "Must supply four (4) offset values")
  else if negb (forallb (fun offset => negb ((offset <? 0) || (4294967295 <? offset))) offsets) then
    throw (RangeError "offset value out of range")
  else if (3 <? real_output_index) || (real_output_index <? 0) then
    throw (RangeError "real_output_index out of range")
  else
    let writer := [] ++ hex_decode input_tx_public_key in
    let writer := writer ++ uint8_t input_output_index in
    writer <- lift (Writer_uint64_t amount writer) ;;
    let writer := fold_left (fun wr key => wr ++ hex_decode key) public_keys writer in
    writer <- lift (Writer_each Writer_uint32_t offsets writer) ;;
    let writer := writer ++ uint8_t real_output_index in
    exchange TX_LOAD_INPUT None (Some writer) ;;; ret tt.

Definition startTransactionOutputLoad : M unit :=
  exchange TX_START_OUTPUT_LOAD None None ;;; ret tt.

Definition loadTransactionOutput (amount : Z) (output_key : string) : M unit :=
  if (amount <? 0) || js_gt amount (maximumOutputAmount Config) then
    throw (Error "amount out of range")
  else if negb (isHex64 output_key) then
    throw (Error "Malformed output_key supplied")
  else
    writer <- lift (Writer_uint64_t amount []) ;;
    let writer := writer ++ hex_decode output_key in
    exchange TX_LOAD_OUTPUT None (Some writer) ;;; ret tt.

Definition finalizeTransactionPrefix : M unit :=
  exchange TX_FINALIZE_TX_PREFIX None None ;;; ret tt.

Definition signTransaction (confirm : option bool) : M (string * Z) :=
  result <- exchange TX_SIGN confirm None ;;
  h <- lift (reader_hash result) ;;
  size <- lift (reader_uint16_be (snd h)) ;;
  ret (fst h, fst size).

(** [while (response.length < config.maximumLedgerTransactionSize)]: every
    turn that does not leave the loop adds at least one byte, so the bound
    itself is fuel enough.  The offset asked for goes through the signed
    16-bit write, which throws from 32768 on. *)
Fixpoint retrieve_loop (fuel : nat) (response : Buffer) : M Buffer :=
  if js_lt (Z.of_nat (List.length response)) (maximumLedgerTransactionSize Config) then
    match fuel with
    | O => ret response
    | S fuel' =>
        writer <- lift (Writer_uint16_t_be (Z.of_nat (List.length response)) []) ;;
        result <- exchange TX_DUMP None (Some writer) ;;
        if Nat.eqb (List.length result) 0 then ret response
        else retrieve_loop fuel' (response ++ result)
    end
  else ret response.

Definition retrieveTransaction : M TransactionT :=
  let fuel :=
    match maximumLedgerTransactionSize Config with
    | Some m => Z.to_nat m
    | None => O
    end in
  response <- retrieve_loop fuel [] ;;
  lift (Transaction_from response).

End DeviceClient.

(** ** The data of the helper ([Interfaces] of the TypeScript source) *)

Record TransactionKeys : Type := mkTransactionKeys {
  tk_publicKey : string;
  tk_derivedKey : string;
  tk_outputIndex : Z
}.

Record OutputInput : Type := mkOutputInput {
  oi_publicEphemeral : string;
  oi_transactionKeys : TransactionKeys;
  oi_privateEphemeral : option string
}.

Record Output : Type := mkOutput {
  out_index : Z;
  out_key : string;
  out_globalIndex : Z;
  out_amount : Z;
  out_input : option OutputInput;
  out_keyImage : option string
}.

Record RandomOutput : Type := mkRandomOutput {
  ro_key : string;
  ro_globalIndex : Z
}.

Record PreparedInputOutputs : Type := mkPreparedInputOutputs {
  pio_key : string;
  pio_index : Z
}.

Record PreparedInput : Type := mkPreparedInput {
  pi_amount : Z;
  pi_realOutputIndex : nat;
  pi_keyImage : string;
  pi_input : OutputInput;
  pi_outputs : list PreparedInputOutputs
}.

Record PreparedOutput : Type := mkPreparedOutput {
  po_amount : Z;
  po_key : string
}.

Definition NULL_KEY : string :=
  "0000000000000000000000000000000000000000000000000000000000000000".

Definition UINT64_MAX : Z := 2 ^ 64.

(** [UNUSED(val)]: [val || NULL_KEY]; every caller drops the value. *)
Definition UNUSED (val : option string) : string :=
  match val with
  | Some s => if Nat.eqb (String.length s) 0 then NULL_KEY else s
  | None => NULL_KEY
  end.

(** ** [Array.prototype.sort] with a comparator *)

(** A stable sort; [le a b] says the comparator does not put [b] before
    [a]. *)
Section Sort.
Variable A : Type.
Variable le : A -> A -> bool.

Fixpoint insert_by (x : A) (l : list A) : list A :=
  match l with
  | [] => [x]
  | y :: rest => if le x y then x :: l else y :: insert_by x rest
  end.

Definition sort_by (l : list A) : list A := fold_right insert_by [] l.
End Sort.

(** ** Offsets *)

(** Modelled from the spec: the step of [Common.absoluteToRelativeOffsets]
    (Common.ts is not among the source files); every element after the first
    is the difference from its predecessor. *)
Fixpoint differences (previous : Z) (offsets : list Z) : list Z :=
  match offsets with
  | [] => []
  | a :: rest => (a - previous) :: differences a rest
  end.

(** Modelled from the spec: [Common.absoluteToRelativeOffsets] of Common.ts,
    which is not among the source files; the first element is unchanged,
    every later one is the difference from its predecessor. *)
Definition Common_absoluteToRelativeOffsets (offsets : list Z) : list Z :=
  match offsets with
  | [] => []
  | a :: rest => a :: differences a rest
  end.

(** Modelled from the spec: the step of [Common.relativeToAbsoluteOffsets]
    (Common.ts is not among the source files); a running sum. *)
Fixpoint prefix_sums (total : Z) (offsets : list Z) : list Z :=
  match offsets with
  | [] => []
  | r :: rest => (total + r) :: prefix_sums (total + r) rest
  end.

(** Modelled from the spec: [Common.relativeToAbsoluteOffsets] of Common.ts,
    which is not among the source files; the inverse prefix sum. *)
Definition Common_relativeToAbsoluteOffsets (offsets : list Z) : list Z :=
  prefix_sums 0 offsets.

(** [offset.toJSNumber()] of big-integer: the double nearest to the big
    integer, which is the integer itself up to [MAX_SAFE_INTEGER].  (A value
    beyond the largest double, [Infinity] in the code, stays a number
    beyond every bound the code compares it with.) *)
Definition toJSNumber (offset : Z) : Z :=
  if offset <? 0 then - nearest_double (- offset) else nearest_double offset.

(** [tmpOffsets.forEach((offset) => result.push(offset.toJSNumber()))]. *)
Definition push_numbers (tmpOffsets : list Z) : list Z :=
  fold_left (fun result offset => result ++ [toJSNumber offset]) tmpOffsets [].

Definition absoluteToRelativeOffsets (offsets : list Z) : list Z :=
  push_numbers (Common_absoluteToRelativeOffsets offsets).

Definition relativeToAbsoluteOffsets (offsets : list Z) : list Z :=
  push_numbers (Common_relativeToAbsoluteOffsets offsets).

(** ** [prepareTransactionInputs] *)

Definition string_truthy (s : option string) : bool :=
  match s with
  | Some s => negb (Nat.eqb (String.length s) 0)
  | None => false
  end.

(** [for (const fakeOutput of fakeOutputs)]: skip once [mixin] are taken,
    skip the real output's own global index. *)
Fixpoint pick_fakes (mixin : nat) (realOutput : Output)
    (fakeOutputs : list RandomOutput)
    (mixedOutputs : list PreparedInputOutputs) : list PreparedInputOutputs :=
  match fakeOutputs with
  | [] => mixedOutputs
  | fakeOutput :: rest =>
      if Nat.eqb (List.length mixedOutputs) mixin then
        pick_fakes mixin realOutput rest mixedOutputs
      else if ro_globalIndex fakeOutput =? out_globalIndex realOutput then
        pick_fakes mixin realOutput rest mixedOutputs
      else
        pick_fakes mixin realOutput rest
          (mixedOutputs ++
             [mkPreparedInputOutputs (ro_key fakeOutput) (ro_globalIndex fakeOutput)])
  end.

(** [for (let j = 0; j < mixedOutputs.length; j++)
       if (mixedOutputs[j].index === realOutput.globalIndex) realOutputIndex = j]. *)
Fixpoint find_real (globalIndex : Z) (mixedOutputs : list PreparedInputOutputs)
    (j realOutputIndex : nat) : nat :=
  match mixedOutputs with
  | [] => realOutputIndex
  | o :: rest =>
      find_real globalIndex rest (S j)
        (if pio_index o =? globalIndex then j else realOutputIndex)
  end.

Definition by_globalIndex (a b : RandomOutput) : bool :=
  ro_globalIndex a <=? ro_globalIndex b.

Definition by_index (a b : PreparedInputOutputs) : bool :=
  pio_index a <=? pio_index b.

(** One turn of [for (let i = 0; i < inputs.length; i++)]. *)
Definition prepare_input (mixin : nat) (realOutput : Output)
    (fakeOutputs : list RandomOutput) : Result PreparedInput :=
  if negb (string_truthy (out_keyImage realOutput)) then
    Throw (Error "input is missing its key image")
  else
    match out_input realOutput with
    | None => Throw (Error "input is missing mandatory data fields")
    | Some input =>
        if out_amount realOutput <=? 0 then
          Throw (RangeError "Real inputs cannot have an amount <= 0")
        else
          let mixed :=
            if negb (Nat.eqb mixin 0) then
              let fakeOutputs := sort_by by_globalIndex fakeOutputs in
              let mixedOutputs := pick_fakes mixin realOutput fakeOutputs [] in
              if (List.length mixedOutputs <? mixin)%nat then
                Throw (Error "It is impossible to mix with yourself. Find some more random outputs and try again.")
              else Ok mixedOutputs
            else Ok [] in
          match mixed with
          | Throw e => Throw e
          | Ok mixedOutputs =>
              let mixedOutputs :=
                mixedOutputs ++
                  [mkPreparedInputOutputs (out_key realOutput) (out_globalIndex realOutput)] in
              let mixedOutputs := sort_by by_index mixedOutputs in
              Ok (mkPreparedInput
                    (out_amount realOutput)
                    (find_real (out_globalIndex realOutput) mixedOutputs 0 0)
                    (match out_keyImage realOutput with Some k => k | None => "" end)
                    input
                    mixedOutputs)
          end
    end.

Fixpoint prepare_inputs_loop (mixin : nat) (inputs : list Output)
    (randomOutputs : list (list RandomOutput)) (i : nat)
    (mixedInputs : list PreparedInput) : Result (list PreparedInput) :=
  match inputs with
  | [] => Ok mixedInputs
  | realOutput :: rest =>
      match prepare_input mixin realOutput (nth i randomOutputs []) with
      | Throw e => Throw e
      | Ok input =>
          prepare_inputs_loop mixin rest randomOutputs (S i) (mixedInputs ++ [input])
      end
  end.

(** [mixin] is a count of ring members, hence a [nat]. *)
Definition prepareTransactionInputs (inputs : list Output)
    (randomOutputs : list (list RandomOutput)) (mixin : nat)
    : Result (list PreparedInput) :=
  if negb (Nat.eqb (List.length inputs) (List.length randomOutputs))
     && negb (Nat.eqb mixin 0) then
    Throw (Error "There are not enough random output sets to mix with the real outputs")
  else if existsb (fun randomOutput => (List.length randomOutput <? mixin)%nat) randomOutputs then
    Throw (Error "There are not enough random outputs to mix with")
  else prepare_inputs_loop mixin inputs randomOutputs 0 [].

(** ** The helper and the transaction builder ([LedgerNote.ts]) *)

Section LedgerNote.

Variable Dev : Type.
Variable transport_exchange : Dev -> Buffer -> Result Buffer * Dev.

(** The object of config.json as loaded, and the argument the helper was
    constructed with. *)
Variable Config : ConfigT.
Variable config : ConfigT.

(** [this.config], and [Config] as the code finds it when it runs: one
    object (see [constructed]). *)
Definition this_config : ConfigT := constructed Config config.

(** The transaction decoder: [Transaction.from], [tx.hash()], [tx.size]. *)
Variable TransactionT : Type.
Variable Transaction_from : Buffer -> Result TransactionT.
Variable tx_hash : TransactionT -> Result string.
Variable tx_size : TransactionT -> Z.

(** The crypto provider ([TurtleCoinCrypto]). *)
Variable generateKeyDerivation : string -> string -> Result string.
Variable derivePublicKey : string -> Z -> string -> Result string.
Variable cn_fast_hash : string -> Result string.

(** The address codec, with the configured prefix. *)
Variable Address_fromPublicKeys : string -> string -> Result Address.

(** [BigInteger(text, 16)] of the big-integer package. *)
Variable BigInteger16 : string -> Result Z.

(** [JSON.stringify] on a message that is not a string. *)
Variable Any : Type.
Variable JSON_stringify : Any -> string.

(** [this.m_ledger.generateKeyImagePrimitive(derivation, outputIndex,
    publicEphemeral)]: the compiled Device Client at hand does not have
    this operation, so it is a parameter. *)
Variable ledger_generateKeyImagePrimitive : string -> Z -> string -> M Dev string.

#[local] Abbreviation M := (M Dev).
#[local] Abbreviation ledger_getPublicKeys := (getPublicKeys transport_exchange).
#[local] Abbreviation ledger_getPrivateViewKey := (getPrivateViewKey transport_exchange).
#[local] Abbreviation ledger_generateSignature := (generateSignature transport_exchange).
#[local] Abbreviation ledger_getRandomKeyPair := (getRandomKeyPair transport_exchange).
#[local] Abbreviation ledger_transactionState := (transactionState transport_exchange).
#[local] Abbreviation ledger_resetTransaction := (resetTransaction transport_exchange).

Definition get_session : M Session := fun w => (Ok (session w), w).

Definition set_session (f : Session -> Session) : M unit :=
  fun w => (Ok tt, mkWorld (sent w) (dev w) (f (session w))).

Definition ready : M bool := s <- get_session ;; ret (m_fetched s).

(** [fetchKeys]: the device answers with the two public keys as hashes;
    the helper keeps them as the public halves of its key pairs. *)
Definition fetchKeys : M unit :=
  keys <- ledger_getPublicKeys None ;;
  set_session (fun s =>
    mkSession (mkKeyPair (fst keys) "") (m_view s) (m_address s) (m_fetched s)) ;;;
  set_session (fun s =>
    mkSession (m_spend s) (mkKeyPair (snd keys) "") (m_address s) (m_fetched s)) ;;;
  view <- ledger_getPrivateViewKey None ;;
  set_session (fun s =>
    mkSession (m_spend s) (mkKeyPair (publicKey (m_view s)) view)
      (m_address s) (m_fetched s)) ;;;
  address <- lift (Address_fromPublicKeys (fst keys) (snd keys)) ;;
  set_session (fun s => mkSession (m_spend s) (m_view s) address (m_fetched s)) ;;;
  set_session (fun s => mkSession (m_spend s) (m_view s) (m_address s) true).

Definition ensure_ready : M unit :=
  r <- ready ;;
  if negb r then fetchKeys else ret tt.

Definition generateKeyImagePrimitive (publicSpendKey privateSpendKey : option string)
    (outputIndex : Z) (derivation : string) : M (string * string) :=
  ensure_ready ;;;
  let _ := UNUSED publicSpendKey in
  let _ := UNUSED privateSpendKey in
  s <- get_session ;;
  publicEphemeral <- lift (derivePublicKey derivation outputIndex (publicKey (m_spend s))) ;;
  result <- ledger_generateKeyImagePrimitive derivation outputIndex publicEphemeral ;;
  ret (publicEphemeral, result).

(** The pair returned is [(publicEphemeral, keyImage)]. *)
Definition LedgerNote_generateKeyImage (transactionPublicKey : string)
    (privateViewKey publicSpendKey privateSpendKey : option string)
    (outputIndex : Z) : M (string * string) :=
  ensure_ready ;;;
  let _ := UNUSED privateViewKey in
  let _ := UNUSED publicSpendKey in
  let _ := UNUSED privateSpendKey in
  s <- get_session ;;
  derivation <- lift (generateKeyDerivation transactionPublicKey (privateKey (m_view s))) ;;
  generateKeyImagePrimitive None None outputIndex derivation.

Definition isOurTransactionOutput (transactionPublicKey : string)
    (output : Output)
    (privateViewKey publicSpendKey privateSpendKey : option string)
    (generatePartial : option bool) : M Output :=
  let generatePartial := match generatePartial with Some g => g | None => false end in
  ensure_ready ;;;
  if generatePartial then
    throw (Error "Generating partial key images is not supported")
  else
    let _ := UNUSED privateViewKey in
    let _ := UNUSED publicSpendKey in
    let _ := UNUSED privateSpendKey in
    s <- get_session ;;
    derivedKey <- lift (generateKeyDerivation transactionPublicKey (privateKey (m_view s))) ;;
    publicEphemeral <- lift (derivePublicKey derivedKey (out_index output) (publicKey (m_spend s))) ;;
    if String.eqb publicEphemeral (out_key output) then
      let input :=
        mkOutputInput publicEphemeral
          (mkTransactionKeys transactionPublicKey derivedKey (out_index output))
          None in
      result <- LedgerNote_generateKeyImage transactionPublicKey None None None
                  (out_index output) ;;
      let input :=
        mkOutputInput (oi_publicEphemeral input) (oi_transactionKeys input)
          (Some NULL_KEY) in
      ret (mkOutput (out_index output) (out_key output) (out_globalIndex output)
             (out_amount output) (Some input) (Some (snd result)))
    else throw (Error "Not our output").

(** [if (result)]: an output object is truthy. *)
Definition object_truthy (o : Output) : bool := true.

Definition scanTransactionOutputs (transactionPublicKey : string)
    (outputs : list Output) (privateViewKey publicSpendKey : string)
    (privateSpendKey : option string) (generatePartial : option bool)
    : M (list Output) :=
  let promises :=
    map (fun output =>
           Promise_catch
             (isOurTransactionOutput transactionPublicKey output
                (Some privateViewKey) (Some publicSpendKey) privateSpendKey
                generatePartial)
             None)
        outputs in
  results <- Promise_all promises ;;
  let ourOutputs := filter object_truthy results in
  ret ourOutputs.

(** [Buffer.from(message).toString('hex')]: the bytes of the string. *)
Definition string_bytes (s : string) : Buffer :=
  map (fun c => Z.of_nat (nat_of_ascii c)) (list_ascii_of_string s).

Definition signMessage (message : string + Any) (privateKey : option string)
    : M string :=
  let _ := UNUSED privateKey in
  let message :=
    match message with
    | inl s => s
    | inr v => JSON_stringify v
    end in
  let hex := string_bytes message in
  hash <- lift (cn_fast_hash (hex_encode hex)) ;;
  ledger_generateSignature hash None.

(** *** [prepareTransactionOutputs] *)

Definition by_amount (a b : GeneratedOutput) : bool := go_amount a <=? go_amount b.

Definition prepareOutput (destination : Address) (amount index : Z)
    (privateKey : string) : Result PreparedOutput :=
  match generateKeyDerivation (publicKey (view destination)) privateKey with
  | Throw e => Throw e
  | Ok outDerivation =>
      match derivePublicKey outDerivation index (publicKey (spend destination)) with
      | Throw e => Throw e
      | Ok outPublicEphemeral => Ok (mkPreparedOutput amount outPublicEphemeral)
      end
  end.

(** The loop that starts one [prepareOutput] per output; a bad amount
    throws out of the loop itself, before any promise is awaited. *)
Fixpoint start_outputs (transactionKeys : KeyPair) (outputs : list GeneratedOutput)
    (i : Z) : Result (list (Result PreparedOutput)) :=
  match outputs with
  | [] => Ok []
  | output :: rest =>
      if go_amount output <=? 0 then Throw (RangeError "Amount cannot be <= 0")
      else
        let promise :=
          prepareOutput (go_destination output) (go_amount output) i
            (privateKey transactionKeys) in
        match start_outputs transactionKeys rest (i + 1) with
        | Throw e => Throw e
        | Ok promises => Ok (promise :: promises)
        end
  end.

(** [Promise.all] over promises that touch no shared state. *)
Fixpoint all_results {A} (promises : list (Result A)) : Result (list A) :=
  match promises with
  | [] => Ok []
  | Throw e :: _ => Throw e
  | Ok a :: rest =>
      match all_results rest with
      | Throw e => Throw e
      | Ok l => Ok (a :: l)
      end
  end.

Definition prepareTransactionOutputs (transactionKeys : KeyPair)
    (outputs : list GeneratedOutput) : Result (list PreparedOutput) :=
  let outputs := sort_by by_amount outputs in
  match start_outputs transactionKeys outputs 0 with
  | Throw e => Throw e
  | Ok promises => all_results promises
  end.

(** *** [createTransaction] *)

Definition effective_maximumOutputAmount : option Z :=
  js_or (maximumOutputAmount this_config) (maximumOutputAmount this_config).

(** [for (const output of outputs)] of the validation. *)
Fixpoint check_outputs (outputs : list GeneratedOutput) (neededMoney : Z)
    (integratedPaymentId : option string) : Result (Z * option string) :=
  match outputs with
  | [] => Ok (neededMoney, integratedPaymentId)
  | output :: rest =>
      if go_amount output <=? 0 then
        Throw (RangeError "Cannot create an output with an amount <= 0")
      else if js_gt (go_amount output) effective_maximumOutputAmount then
        Throw (RangeError ("Cannot create an output with an amount > "
                             ++ show_number effective_maximumOutputAmount))
      else
        let neededMoney := neededMoney + go_amount output in
        if UINT64_MAX <? neededMoney then
          Throw (RangeError "Total output amount exceeds UINT64_MAX")
        else
          let pid := paymentId (go_destination output) in
          if string_truthy (Some pid) then
            match integratedPaymentId with
            | Some integrated =>
                if negb (string_truthy integratedPaymentId) then
                  check_outputs rest neededMoney (Some pid)
                else if negb (String.eqb integrated pid) then
                  Throw (Error "Cannot perform multiple transfers with differing integrated addresses")
                else check_outputs rest neededMoney integratedPaymentId
            | None => check_outputs rest neededMoney (Some pid)
            end
          else check_outputs rest neededMoney integratedPaymentId
  end.

(** [for (const input of inputs)] of the validation. *)
Fixpoint check_inputs (inputs : list Output) (foundMoney : Z) : Result Z :=
  match inputs with
  | [] => Ok foundMoney
  | input :: rest =>
      if out_amount input <=? 0 then
        Throw (RangeError "Cannot spend outputs with an amount <= 0")
      else
        let foundMoney := foundMoney + out_amount input in
        if UINT64_MAX <? foundMoney then
          Throw (RangeError "Total input amount exceeds UINT64_MAX")
        else check_inputs rest foundMoney
  end.

Definition bool_or (a b : option bool) : bool :=
  match a with
  | Some true => true
  | _ => match b with Some true => true | _ => false end
  end.

(** Everything from the top of [createTransaction] down to the call of
    [prepareTransactionInputs]; the value is the fee in force. *)
Definition validate (outputs : list GeneratedOutput) (inputs : list Output)
    (randomOutputs : list (list RandomOutput)) (mixin : nat)
    (feeAmount : option Z) (paymentId : option string) (extraData : bool)
    : Result (option Z) :=
  if extraData then
    Throw (Error "Supplying extra transaction data is not supported")
  else
    let feeAmount :=
      match feeAmount with
      | None => js_or (defaultNetworkFee this_config) (defaultNetworkFee this_config)
      | Some _ => feeAmount
      end in
    let feePerByte :=
      bool_or (activateFeePerByteTransactions this_config)
              (activateFeePerByteTransactions this_config) in
    if negb (Nat.eqb (List.length randomOutputs) (List.length inputs))
       && negb (Nat.eqb mixin 0) then
      Throw (Error "The sets of random outputs supplied does not match the number of inputs supplied")
    else if existsb (fun randomOutput => (List.length randomOutput <? mixin)%nat) randomOutputs then
      Throw (Error "There are not enough random outputs to mix with")
    else
      match check_outputs outputs 0 None with
      | Throw e => Throw e
      | Ok (neededMoney, integratedPaymentId) =>
          if string_truthy integratedPaymentId && string_truthy paymentId
             && negb (String.eqb
                        (match integratedPaymentId with Some p => p | None => "" end)
                        (match paymentId with Some p => p | None => "" end)) then
            Throw (Error "Transfer destinations contains an integrated payment ID that does not match the paymentID supplied to this method")
          else
            match check_inputs inputs 0 with
            | Throw e => Throw e
            | Ok foundMoney =>
                if foundMoney <? neededMoney then
                  Throw (Error "We need more funds than was currently supplied for the transaction")
                else
                  let change := foundMoney - neededMoney in
                  if negb feePerByte
                     && match feeAmount with
                        | Some fee => negb (fee =? 0) && (change <? fee)
                        | None => false
                        end then
                    Throw (Error "We have not spent all of what we sent in")
                  else Ok feeAmount
            end
      end.

(** [inputs / outputs < ratio] on two counts and a whole ratio: a division
    by zero gives [Infinity] or [NaN], a missing ratio [undefined], and the
    comparison is false on each.  The counts are lengths of arrays, below
    [2 ^ 32]: the quotient of two such counts, rounded to a double, is below
    a whole ratio exactly when [inputs < ratio * outputs]. *)
Definition ratio_below (nInputs nOutputs : nat) (ratio : option Z) : bool :=
  match ratio with
  | None => false
  | Some r =>
      if Nat.eqb nOutputs 0 then false
      else Z.of_nat nInputs <? r * Z.of_nat nOutputs
  end.

Definition fusion_message : string :=
  "Sending a [0] fee transaction (fusion) requires a minimum of ["
    ++ show_number (js_or (fusionMinInputCount this_config)
                          (fusionMinInputCount this_config))
    ++ "] inputs".

(** [if (feeAmount === 0) { ... }]. *)
Definition fusion_check (feeAmount : option Z)
    (transactionInputs : list PreparedInput)
    (transactionOutputs : list PreparedOutput) : Result unit :=
  match feeAmount with
  | Some 0 =>
      if (List.length transactionInputs <? 12)%nat then
        Throw (Error fusion_message)
      else
        let ratio :=
          js_or (fusionMinInOutCountRatio this_config)
                (fusionMinInOutCountRatio this_config) in
        if ratio_below (List.length transactionInputs)
             (List.length transactionOutputs) ratio then
          Throw (Error "Sending a [0] fee transaction (fusion) requires the correct input:output ratio be met")
        else Ok tt
  | _ => Ok tt
  end.

Definition keyImage_value (input : PreparedInput) : Z :=
  match BigInteger16 (pi_keyImage input) with
  | Ok v => v
  | Throw _ => 0
  end.

(** [BigInteger(a.keyImage, 16).compare(BigInteger(b.keyImage, 16)) * -1]. *)
Definition by_keyImage_descending (a b : PreparedInput) : bool :=
  keyImage_value b <=? keyImage_value a.

(** [transactionInputs.sort(...)]: with two inputs or more the comparator
    reads every key image, and throws on one that does not parse. *)
Definition sort_inputs (transactionInputs : list PreparedInput)
    : Result (list PreparedInput) :=
  if (List.length transactionInputs <? 2)%nat then Ok transactionInputs
  else
    match all_results (map (fun input => BigInteger16 (pi_keyImage input)) transactionInputs) with
    | Throw e => Throw e
    | Ok _ => Ok (sort_by by_keyImage_descending transactionInputs)
    end.

(** What the builder holds when it enters [try]. *)
Record Prepared : Type := mkPrepared {
  p_inputs : list PreparedInput;
  p_tx_keys : KeyPair;
  p_outputs : list PreparedOutput
}.

(** From the validation to the two prepared lists. *)
Definition prepare_lists (outputs : list GeneratedOutput) (inputs : list Output)
    (randomOutputs : list (list RandomOutput)) (mixin : nat)
    (feeAmount : option Z) (paymentId : option string) (extraData : bool)
    : M (option Z * Prepared) :=
  feeAmount <- lift (validate outputs inputs randomOutputs mixin feeAmount paymentId extraData) ;;
  transactionInputs <- lift (prepareTransactionInputs inputs randomOutputs mixin) ;;
  keys <- ledger_getRandomKeyPair ;;
  let tx_keys := mkKeyPair (fst keys) (snd keys) in
  transactionOutputs <- lift (prepareTransactionOutputs tx_keys outputs) ;;
  ret (feeAmount, mkPrepared transactionInputs tx_keys transactionOutputs).

(** The fusion settings in force: [this.config.x || Config.x]. *)
Definition effective_fusionMinInputCount : option Z :=
  js_or (fusionMinInputCount this_config) (fusionMinInputCount this_config).

Definition effective_fusionMinInOutCountRatio : option Z :=
  js_or (fusionMinInOutCountRatio this_config) (fusionMinInOutCountRatio this_config).

(** The prepared outputs are not more than [maximumOutputsPerTransaction]. *)
Definition within_output_cap (p : Prepared) : Prop :=
  js_gt (Z.of_nat (List.length (p_outputs p)))
    (js_or (maximumOutputsPerTransaction this_config)
           (maximumOutputsPerTransaction this_config)) = false.

(** From the two prepared lists to the sorted inputs: the cap on outputs,
    the fusion rules, the sort by key image. *)
Definition check_and_sort (feeAmount : option Z) (p : Prepared) : Result Prepared :=
  if js_gt (Z.of_nat (List.length (p_outputs p)))
       (js_or (maximumOutputsPerTransaction this_config)
              (maximumOutputsPerTransaction this_config)) then
    Throw (RangeError "Tried to create a transaction with more outputs than permitted")
  else
    match fusion_check feeAmount (p_inputs p) (p_outputs p) with
    | Throw e => Throw e
    | Ok _ =>
        match sort_inputs (p_inputs p) with
        | Throw e => Throw e
        | Ok sorted => Ok (mkPrepared sorted (p_tx_keys p) (p_outputs p))
        end
    end.

(** Everything before [try]. *)
Definition before_try (outputs : list GeneratedOutput) (inputs : list Output)
    (randomOutputs : list (list RandomOutput)) (mixin : nat)
    (feeAmount : option Z) (paymentId : option string) (extraData : bool)
    : M Prepared :=
  fp <- prepare_lists outputs inputs randomOutputs mixin feeAmount paymentId extraData ;;
  lift (check_and_sort (fst fp) (snd fp)).

Definition expect_state (expected : Z) (message : string) : M unit :=
  state <- ledger_transactionState ;;
  if negb (state =? expected) then throw (Error message) else ret tt.

Definition load_input (input : PreparedInput) : M unit :=
  let offsets := map pio_index (pi_outputs input) in
  let offsets := map toJSNumber (Common_absoluteToRelativeOffsets offsets) in
  loadTransactionInput transport_exchange this_config
    (tk_publicKey (oi_transactionKeys (pi_input input)))
    (tk_outputIndex (oi_transactionKeys (pi_input input)))
    (pi_amount input)
    (map pio_key (pi_outputs input))
    offsets
    (Z.of_nat (pi_realOutputIndex input)).

(** The body of [try]. *)
Definition try_body (p : Prepared) (paymentId : option string) (unlockTime : Z)
    : M TransactionT :=
  startTransaction transport_exchange unlockTime
    (Z.of_nat (List.length (p_inputs p)))
    (Z.of_nat (List.length (p_outputs p)))
    (publicKey (p_tx_keys p))
    (if string_truthy paymentId then paymentId else None) ;;;
  expect_state TransactionState.READY "Ledger transaction construction not ready." ;;;
  startTransactionInputLoad transport_exchange ;;;
  expect_state TransactionState.RECEIVING_INPUTS "Ledger is not ready to receive inputs." ;;;
  for_each load_input (p_inputs p) ;;;
  expect_state TransactionState.INPUTS_RECEIVED "Ledger did not receive all required inputs." ;;;
  startTransactionOutputLoad transport_exchange ;;;
  expect_state TransactionState.RECEIVING_OUTPUTS "Ledger is not ready to receive outputs." ;;;
  for_each (fun output =>
              loadTransactionOutput transport_exchange this_config
                (po_amount output) (po_key output))
           (p_outputs p) ;;;
  expect_state TransactionState.OUTPUTS_RECEIVED "Ledger did not receive all required outputs." ;;;
  finalizeTransactionPrefix transport_exchange ;;;
  expect_state TransactionState.PREFIX_READY "Ledger did not properly finalize the transaction prefix." ;;;
  result <- signTransaction transport_exchange None ;;
  expect_state TransactionState.COMPLETE "Ledger did not properly complete the transaction." ;;;
  tx <- retrieveTransaction transport_exchange this_config Transaction_from ;;
  hash <- lift (tx_hash tx) ;;
  if negb (String.eqb hash (fst result)) then throw (Error "Transaction hash mismatch")
  else if negb (tx_size tx =? snd result) then throw (Error "Transaction size mismatch")
  else ret tx.

Definition createTransaction (outputs : list GeneratedOutput) (inputs : list Output)
    (randomOutputs : list (list RandomOutput)) (mixin : nat)
    (feeAmount : option Z) (paymentId : option string) (unlockTime : option Z)
    (extraData : bool) : M TransactionT :=
  let unlockTime :=
    match unlockTime with
    | Some t => t
    | None => 0
    end in
  p <- before_try outputs inputs randomOutputs mixin feeAmount paymentId extraData ;;
  try_finally (try_body p paymentId unlockTime) (ledger_resetTransaction None).

End LedgerNote.

(** ** The layouts and predicates of the specification *)

(** The request frame as the specification lays it out:
    [CLA=0xE0 | INS | P1 | P2=0 | u16be(len) | data]. *)
Definition spec_request_frame (ins : Z) (confirm : bool) (data : Buffer) : Buffer :=
  let len := Z.of_nat (List.length data) in
  [224; ins; if confirm then 1 else 0; 0] ++ [len / 256; len mod 256] ++ data.

(** The data of a call of [exchange] ([undefined] is no data) and its
    confirmation flag ([undefined] is the default, [true]). *)
Definition payload_of (data : option Buffer) : Buffer :=
  match data with Some d => d | None => [] end.

Definition confirm_of (confirm : option bool) : bool :=
  match confirm with Some c => c | None => true end.

(** The code the specification surfaces on a refusal: the first two bytes of
    the body when it has two, the status word otherwise. *)
Definition surfaced_code (body : Buffer) (sw_hi sw_lo : Z) : Z :=
  match body with
  | b0 :: b1 :: _ => b0 * 256 + b1
  | _ => sw_hi * 256 + sw_lo
  end.

(** Exactly [n] hexadecimal characters, of either case. *)
Definition hex_string (n : nat) (s : string) : bool :=
  Nat.eqb (String.length s) n && forallb isHexChar (list_ascii_of_string s).

Definition lower_hex_char (c : ascii) : bool :=
  in_range 48 57 c || in_range 97 102 c.

(** Exactly [n] lowercase hexadecimal characters. *)
Definition lowercase_hex_string (n : nat) (s : string) : bool :=
  Nat.eqb (String.length s) n && forallb lower_hex_char (list_ascii_of_string s).

(** A piece of the canonical decomposition: [d * 10^k] with [1 <= d <= 9]. *)
Definition digit_piece (a : Z) : Prop :=
  exists d k, 1 <= d <= 9 /\ 0 <= k /\ a = d * 10 ^ k.

(** The number a list of decimal digits spells, least significant first. *)
Fixpoint digits_value (ds : list Z) : Z :=
  match ds with
  | [] => 0
  | d :: rest => d + 10 * digits_value rest
  end.

(** The bound splits every piece above it into whole chunks. *)
Definition splits_evenly (maxAmt : option Z) : Prop :=
  match maxAmt with
  | None => True
  | Some m =>
      0 < m /\ forall d k, 1 <= d <= 9 -> 0 <= k -> m < d * 10 ^ k -> (d * 10 ^ k) mod m = 0
  end.

(** The operation throws and leaves the world as it was: nothing was handed
    to the transport. *)
Definition fails_locally {Dev A} (m : M Dev A) : Prop :=
  forall w, exists e, m w = (Throw e, w).

(** The request of [TX_RESET] with the default confirmation. *)
Definition TX_RESET_request : Buffer := [224; 121; 1; 0; 0; 0].

(** ** Collaborators for the worked examples *)

Definition demo_keys : KeyPair := mkKeyPair "" "".

Definition demo_address : Address := mkAddress demo_keys demo_keys "".

Definition no_config : ConfigT := mkConfig None None None None None None None.

Definition config_with_maximum (maximum : Z) : ConfigT :=
  mkConfig None None None (Some maximum) None None None.

(** A device that answers every request with one byte [1] and the status
    word [0x9000]. *)
Definition accepting_device (d : unit) (request : Buffer) : Result Buffer * unit :=
  (Ok [1; 144; 0], d).

(** A device that refuses every request: body [0x9501], status [0x6985]. *)
Definition refusing_device (d : unit) (request : Buffer) : Result Buffer * unit :=
  (Ok [149; 1; 105; 133], d).

Definition fresh_session : Session := mkSession demo_keys demo_keys demo_address false.

Definition fresh_world : World unit := mkWorld [] tt fresh_session.

Definition uppercase_key : string :=
  "AAAAAAAAAAAAAAAAAAAAAAAAAAAAAAAAAAAAAAAAAAAAAAAAAAAAAAAAAAAAAAAA".

Definition lowercase_key : string :=
  "aaaaaaaaaaaaaaaaaaaaaaaaaaaaaaaaaaaaaaaaaaaaaaaaaaaaaaaaaaaaaaaa".

(** A crypto provider for the examples: the derivation is the public key it
    is given, and the derived key is the derivation. *)
Definition demo_generateKeyDerivation (publicKey privateKey : string) : Result string :=
  Ok publicKey.

Definition demo_derivePublicKey (derivation : string) (index : Z) (publicKey : string)
    : Result string :=
  Ok derivation.

Definition demo_cn_fast_hash (hex : string) : Result string := Ok lowercase_key.

Definition demo_fromPublicKeys (spendKey viewKey : string) : Result Address :=
  Ok (mkAddress (mkKeyPair spendKey "") (mkKeyPair viewKey "") "").

Definition demo_stringify (v : unit) : string := "null".

(** A reading of [BigInteger(text, 16)] on plain hexadecimal text. *)
Definition parse_hex (text : string) : Result Z :=
  let cs := list_ascii_of_string text in
  if forallb isHexChar cs
  then Ok (fold_left (fun acc c => acc * 16 + hexval c) cs 0)
  else Throw (Error "not a valid digit in base 16").

(** The 64 characters that print 32 copies of one byte. *)
Definition key_of (b : Z) : string := hex_encode (repeat b 32).

(** A session whose keys were fetched. *)
Definition ready_session : Session :=
  mkSession (mkKeyPair (key_of 1) "") (mkKeyPair (key_of 2) (key_of 3))
    (mkAddress (mkKeyPair (key_of 1) "") (mkKeyPair (key_of 2) "") "") true.

(** An output of a transaction with public key [key_of 7]: under the demo
    provider it is ours when its key is [key_of 7]. *)
Definition our_output : Output := mkOutput 0 (key_of 7) 40 100 None None.

Definition foreign_output : Output := mkOutput 1 (key_of 9) 41 100 None None.

(** A scripted device for a whole build: the n-th read of [TX_STATE] says
    state n; [RANDOM_KEY_PAIR] gives two keys; [TX_SIGN] gives a hash and the
    size 3; [TX_DUMP] gives three bytes at offset 0 and nothing after. *)
Definition scripted_device (reads : nat) (request : Buffer) : Result Buffer * nat :=
  match request with
  | _ :: 112 :: _ => (Ok [Z.of_nat (S reads); 144; 0], S reads)
  | _ :: 25 :: _ => (Ok (repeat 17 32 ++ repeat 34 32 ++ [144; 0]), reads)
  | _ :: 119 :: _ => (Ok (repeat 171 32 ++ [0; 3; 144; 0]), reads)
  | _ :: 120 :: _ :: _ :: _ :: _ :: 0 :: 0 :: _ => (Ok [1; 2; 3; 144; 0], reads)
  | _ => (Ok [144; 0], reads)
  end.

(** The same device, except that it refuses to sign: status [0x6985]. *)
Definition refusing_signer (reads : nat) (request : Buffer) : Result Buffer * nat :=
  match request with
  | _ :: 119 :: _ => (Ok [105; 133], reads)
  | _ => scripted_device reads request
  end.

Definition demo_Transaction_from (bytes : Buffer) : Result Buffer := Ok bytes.

Definition demo_tx_hash (tx : Buffer) : Result string := Ok (key_of 171).

Definition demo_tx_size (tx : Buffer) : Z := Z.of_nat (List.length tx).

Definition demo_generateKeyImagePrimitive (Dev : Type) (derivation : string)
    (index : Z) (publicEphemeral : string) : M Dev string :=
  ret (key_of 5).

Definition builder_config : ConfigT :=
  mkConfig None (Some 20) (Some 4) (Some 100000) (Some 90) None (Some 100).

(** A caller's configuration that asks for thirteen inputs to an output. *)
Definition strict_ratio_config : ConfigT :=
  mkConfig None None (Some 13) None None None None.

Definition builder_world : World nat := mkWorld [] O ready_session.

Definition ready_world : World unit := mkWorld [] tt ready_session.

(** Twelve inputs worth 10 each, every one with three decoys. *)
Definition demo_input (n : nat) : Output :=
  mkOutput 0 (key_of (Z.of_nat n)) (100 + Z.of_nat n) 10
    (Some (mkOutputInput (key_of 8) (mkTransactionKeys (key_of 6) (key_of 7) 0) (Some NULL_KEY)))
    (Some (key_of (Z.of_nat n))).

Definition demo_inputs : list Output := map demo_input (seq 1 12).

Definition demo_decoys : list RandomOutput :=
  [mkRandomOutput (key_of 33) 3; mkRandomOutput (key_of 31) 1; mkRandomOutput (key_of 32) 2].

Definition demo_randomOutputs : list (list RandomOutput) := repeat demo_decoys 12.

Definition demo_destination : Address :=
  mkAddress (mkKeyPair (key_of 65) "") (mkKeyPair (key_of 66) "") "".

Definition demo_outputs : list GeneratedOutput := [mkGeneratedOutput 100 demo_destination].

(** ** The shape of prepared inputs, as the specification states it *)

(** The ring is in ascending order of index; the strict form leaves no two
    members with the same index. *)
Definition ring_ascending (p : PreparedInput) : Prop :=
  StronglySorted (fun a b => pio_index a <= pio_index b) (pi_outputs p).

Definition ring_strictly_ascending (p : PreparedInput) : Prop :=
  StronglySorted (fun a b => pio_index a < pio_index b) (pi_outputs p).

(** The member at [realOutputIndex] carries the global index of the real
    output. *)
Definition real_at_its_index (realOutput : Output) (p : PreparedInput) : Prop :=
  exists o, nth_error (pi_outputs p) (pi_realOutputIndex p) = Some o
            /\ pio_index o = out_globalIndex realOutput.

(** [p] is the prepared form of [realOutput]: its key image, a ring of
    [mixin + 1] members, and the real output at its recorded place. *)
Definition prepared_from (mixin : nat) (realOutput : Output) (p : PreparedInput) : Prop :=
  out_keyImage realOutput = Some (pi_keyImage p)
  /\ List.length (pi_outputs p) = S mixin
  /\ real_at_its_index realOutput p.

(** Key images compared as the big integers they spell. *)
Definition keyImage_ge (BigInteger16 : string -> Result Z) (a b : PreparedInput) : Prop :=
  exists va vb, BigInteger16 (pi_keyImage a) = Ok va
                /\ BigInteger16 (pi_keyImage b) = Ok vb /\ vb <= va.

Definition keyImage_gt (BigInteger16 : string -> Result Z) (a b : PreparedInput) : Prop :=
  exists va vb, BigInteger16 (pi_keyImage a) = Ok va
                /\ BigInteger16 (pi_keyImage b) = Ok vb /\ vb < va.

(** Two inputs that spell the same key image, each with decoys of which two
    share a global index. *)
Definition twin_input (n : nat) : Output :=
  mkOutput 0 (key_of (Z.of_nat n)) (100 + Z.of_nat n) 60
    (Some (mkOutputInput (key_of 8) (mkTransactionKeys (key_of 6) (key_of 7) 0) (Some NULL_KEY)))
    (Some (key_of 1)).

Definition twin_inputs : list Output := [twin_input 1; twin_input 2].

Definition twin_decoys : list (list RandomOutput) :=
  repeat [mkRandomOutput (key_of 31) 5; mkRandomOutput (key_of 32) 5;
          mkRandomOutput (key_of 33) 6] 2.

(** The computation only adds to the list of requests handed to the
    transport. *)
Definition appends {Dev A} (m : M Dev A) : Prop :=
  forall w, exists more, sent (snd (m w)) = sent w ++ more.

(** The run of the code before [try] on the twelve demo inputs. *)
Definition demo_before_try : Result Prepared * World nat :=
  before_try scripted_device builder_config builder_config
    demo_generateKeyDerivation demo_derivePublicKey parse_hex
    demo_outputs demo_inputs demo_randomOutputs 3 (Some 0) None false builder_world.

Definition demo_prepared : Prepared :=
  match fst demo_before_try with
  | Ok p => p
  | Throw _ => mkPrepared [] demo_keys []
  end.

(** ** The remaining operations of the Device Client *)

Module LedgerDevice.

Section MoreOperations.

Variable Dev : Type.
Variable transport_exchange : Dev -> Buffer -> Result Buffer * Dev.

#[local] Abbreviation M := (M Dev).
#[local] Abbreviation exchange := (exchange transport_exchange).

Definition getVersion : M (Z * Z * Z) :=
  result <- exchange VERSION None None ;;
  major <- lift (reader_uint8_t result) ;;
  minor <- lift (reader_uint8_t (snd major)) ;;
  patch <- lift (reader_uint8_t (snd minor)) ;;
  ret (fst major, fst minor, fst patch).

Definition isDebug : M bool :=
  result <- exchange DEBUG None None ;;
  v <- lift (reader_uint8_t result) ;;
  ret (fst v =? 1).

(** [result.unreadBuffer.toString('hex')]. *)
Definition getIdent : M string :=
  result <- exchange IDENT None None ;;
  ret (hex_encode result).

Definition getPrivateSpendKey (confirm : option bool) : M string :=
  result <- exchange SPEND_ESECRET_KEY confirm None ;;
  h <- lift (reader_hash result) ;;
  ret (fst h).

Definition resetKeys (confirm : option bool) : M unit :=
  exchange RESET_KEYS confirm None ;;; ret tt.

Definition generateKeyDerivation (tx_public_key : string) (confirm : option bool)
    : M string :=
  if negb (isHex64 tx_public_key) then throw (Error "Malformed tx_public_key supplied")
  else
    let writer := [] ++ hex_decode tx_public_key in
    result <- exchange GENERATE_KEY_DERIVATION confirm (Some writer) ;;
    h <- lift (reader_hash result) ;;
    ret (fst h).

Definition derivePublicKey (derivation : string) (output_index : Z)
    (confirm : option bool) : M string :=
  if negb (isHex64 derivation) then throw (Error "Malformed derivation supplied")
  else if output_index <? 0 then throw (Error "output_index must be >= 0")
  else
    let writer := [] ++ hex_decode derivation in
    writer <- lift (Writer_uint32_t output_index writer) ;;
    result <- exchange DERIVE_PUBLIC_KEY confirm (Some writer) ;;
    h <- lift (reader_hash result) ;;
    ret (fst h).

Definition deriveSecretKey (derivation : string) (output_index : Z)
    (confirm : option bool) : M string :=
  if negb (isHex64 derivation) then throw (Error "Malformed derivation supplied")
  else if output_index <? 0 then throw (Error "output_index must be >= 0")
  else
    let writer := [] ++ hex_decode derivation in
    writer <- lift (Writer_uint32_t output_index writer) ;;
    result <- exchange DERIVE_SECRET_KEY confirm (Some writer) ;;
    h <- lift (reader_hash result) ;;
    ret (fst h).

Definition checkSignature (message_digest public_key signature : string) : M bool :=
  if negb (isHex64 message_digest) then throw (Error "Malformed message_disgest supplied")
  else if negb (isHex64 public_key) then throw (Error "Malformed public_key supplied")
  else if negb (isHex128 signature) then throw (Error "Malformed signature supplied")
  else
    let writer := [] ++ hex_decode message_digest in
    let writer := writer ++ hex_decode public_key in
    let writer := writer ++ hex_decode signature in
    result <- exchange CHECK_SIGNATURE None (Some writer) ;;
    v <- lift (reader_uint8_t result) ;;
    ret (fst v =? 1).

(** [while (result.unreadBytes > 0) signatures.push(result.hex(64))]: every
    turn reads 64 bytes, so the number of unread bytes is fuel enough. *)
Fixpoint read_signatures (fuel : nat) (result : Buffer) (signatures : list string)
    : Result (list string) :=
  if (0 <? List.length result)%nat then
    match fuel with
    | O => Ok signatures
    | S fuel' =>
        match reader_hex 64 result with
        | Throw e => Throw e
        | Ok (signature, rest) => read_signatures fuel' rest (signatures ++ [signature])
        end
    end
  else Ok signatures.

Definition generateRingSignatures (tx_public_key : string) (output_index : Z)
    (output_key tx_prefix_hash : string) (input_keys : list string)
    (real_output_index : Z) (confirm : option bool) : M (list string) :=
  if negb (isHex64 tx_public_key) then throw (Error "Malformed tx_public_key supplied")
  else if output_index <? 0 then throw (Error "output_index must be >= 0")
  else if negb (isHex64 output_key) then throw (Error "Malformed output_key supplied")
  else if negb (isHex64 tx_prefix_hash) then throw (Error "Malformed tx_prefix_hash supplied")
  else if real_output_index <? 0 then throw (Error "real_output_index must be >= 0")
  else if Nat.eqb (List.length input_keys) 0 then
    throw (Error "Must supply at least one input_key")
  else if negb (forallb isHex64 input_keys) then
    throw (Error "Malformed input_key supplied")
  else
    let writer := [] ++ hex_decode tx_public_key in
    writer <- lift (Writer_uint32_t output_index writer) ;;
    let writer := writer ++ hex_decode output_key in
    let writer := writer ++ hex_decode tx_prefix_hash in
    let writer := fold_left (fun wr input => wr ++ hex_decode input) input_keys writer in
    writer <- lift (Writer_uint32_t real_output_index writer) ;;
    result <- exchange GENERATE_RING_SIGNATURES confirm (Some writer) ;;
    if negb (Nat.eqb (List.length result mod 64) 0) then
      throw (Error "Data returned does not appear to be a set of signatures")
    else
      signatures <- lift (read_signatures (List.length result) result []) ;;
      if negb (Nat.eqb (List.length signatures) (List.length input_keys)) then
        throw (Error "Returned signature count does not match the number of input keys supplied")
      else ret signatures.

Definition checkRingSignatures (tx_prefix_hash key_image : string)
    (public_keys signatures : list string) : M bool :=
  if negb (isHex64 tx_prefix_hash) then throw (Error "Malformed tx_prefix_hash supplied")
  else if negb (isHex64 key_image) then throw (Error "Malformed key_image supplied")
  else if Nat.eqb (List.length public_keys) 0 then
    throw (Error "Must supply at least one public_key")
  else if Nat.eqb (List.length signatures) 0 then
    throw (Error "Must supply at least one signature")
  else if negb (Nat.eqb (List.length public_keys) (List.length signatures)) then
    throw (Error "The number of public_keys and signatures does not match")
  else if negb (forallb isHex64 public_keys) then
    throw (Error "Malformed public_key supplied")
  else if negb (forallb isHex128 signatures) then
    throw (Error "Malformed signature supplied")
  else
    let writer := [] ++ hex_decode tx_prefix_hash in
    let writer := writer ++ hex_decode key_image in
    let writer := fold_left (fun wr key => wr ++ hex_decode key) public_keys writer in
    let writer := fold_left (fun wr sig => wr ++ hex_decode sig) signatures writer in
    result <- exchange CHECK_RING_SIGNATURES None (Some writer) ;;
    v <- lift (reader_uint8_t result) ;;
    ret (fst v =? 1).

End MoreOperations.

End LedgerDevice.

(** ** The remaining members of the helper *)

Section LedgerNoteMembers.

Variable Dev : Type.
Variable cn_fast_hash : string -> Result string.

(** [TurtleCoinCrypto.checkSignature]. *)
Variable crypto_checkSignature : string -> string -> string -> Result bool.

Variable Any : Type.
Variable JSON_stringify : Any -> string.


(** [verifyMessageSignature]: no device, no session. *)
Definition verifyMessageSignature (message : string + Any)
    (publicKey signature : string) : Result bool :=
  let message :=
    match message with
    | inl s => s
    | inr v => JSON_stringify v
    end in
  let hex := string_bytes message in
  match cn_fast_hash (hex_encode hex) with
  | Throw e => Throw e
  | Ok hash => crypto_checkSignature hash publicKey signature
  end.

End LedgerNoteMembers.

(** The INS byte of a request. *)
Definition ins_of (request : Buffer) : Z := nth 1 request 0.

(** Every request the computation hands to the transport has the six bytes
    of the header and at most 512 bytes in all. *)
Definition within_transport_limit {Dev A} (m : M Dev A) : Prop :=
  forall w, exists more,
    sent (snd (m w)) = sent w ++ more
    /\ Forall (fun request => (6 <= List.length request <= 512)%nat) more.

(** On a successful run the computation adds requests whose INS bytes, in
    order, form a list that [S] accepts. *)
Definition sends {Dev A} (m : M Dev A) (S : list Z -> Prop) : Prop :=
  forall w v w', m w = (Ok v, w') ->
    exists requests, sent w' = sent w ++ requests /\ S (map ins_of requests).

(** The INS bytes [prefix], followed by any number of [TX_DUMP]. *)
Definition then_dumps (prefix : list Z) (l : list Z) : Prop :=
  exists n, l = prefix ++ repeat 120 n.

(** The INS bytes of a whole build with [n] inputs, [m] outputs and [k]
    reads of the dump. *)
Definition build_requests (n m k : nat) : list Z :=
  [25; 113; 112; 114; 112] ++ repeat 115 n ++ [112; 116; 112] ++ repeat 117 m
    ++ [112; 118; 112; 119; 112] ++ repeat 120 k ++ [121].

(** A ring member that is one of the supplied decoys, with a global index
    other than the real output's. *)
Definition is_decoy_of (realOutput : Output) (fakeOutputs : list RandomOutput)
    (o : PreparedInputOutputs) : Prop :=
  pio_index o <> out_globalIndex realOutput
  /\ exists fake, In fake fakeOutputs
       /\ o = mkPreparedInputOutputs (ro_key fake) (ro_globalIndex fake).





(** ** Further collaborators for the examples *)

(** The value of a result, or a default. *)
Definition value_or {A} (r : Result A) (default : A) : A :=
  match r with
  | Ok a => a
  | Throw _ => default
  end.

(** A device that answers every request with 64 bytes [5] and the status
    word [0x9000]: two keys, or one signature. *)
Definition signing_device (d : unit) (request : Buffer) : Result Buffer * unit :=
  (Ok (repeat 5 64 ++ [144; 0]), d).

Definition demo_checkSignature (digest publicKey signature : string) : Result bool :=
  Ok (String.eqb signature (hex_encode (repeat 5 64))).

(** The whole build of the examples: twelve inputs of 10, one output of 100,
    no fee. *)
Definition demo_build : Result Buffer * World nat :=
  createTransaction scripted_device builder_config builder_config
    demo_Transaction_from demo_tx_hash demo_tx_size
    demo_generateKeyDerivation demo_derivePublicKey parse_hex
    demo_outputs demo_inputs demo_randomOutputs 3 (Some 0) None None false
    builder_world.

Definition demo_two_outputs : list GeneratedOutput :=
  [mkGeneratedOutput 200 demo_destination; mkGeneratedOutput 100 demo_destination].

Definition demo_tx_keys : KeyPair := mkKeyPair (key_of 17) (key_of 34).

Definition demo_prepared_outputs : list PreparedOutput :=
  value_or (prepareTransactionOutputs demo_generateKeyDerivation demo_derivePublicKey
              demo_tx_keys demo_two_outputs) [].

Definition demo_prepared_inputs : list PreparedInput :=
  value_or (prepareTransactionInputs demo_inputs demo_randomOutputs 3) [].


Definition demo_sign : Result string * World unit :=
  signMessage signing_device demo_cn_fast_hash demo_stringify (inl "hello"%string) None
    ready_world.



(** A device whose dump never ends: 250 bytes and the status word [0x9000]
    to every request. *)
Definition endless_device (d : unit) (request : Buffer) : Result Buffer * unit :=
  (Ok (repeat 7 250 ++ [144; 0]), d).


(** The bound of the Ledger on a transaction, as the library configures it. *)
Definition ledger_size_config : ConfigT :=
  mkConfig None None None None None None (Some 38400).

(** * Properties *)

(** ** Offsets *)

Lemma push_numbers_from (l acc : list Z) :
  fold_left (fun result offset => result ++ [toJSNumber offset]) l acc
  = acc ++ map toJSNumber l.
Proof.
  revert acc; induction l as [|x l IH]; intros acc; simpl.
  - now rewrite app_nil_r.
  - rewrite IH, <- app_assoc. reflexivity.
Qed.

Lemma push_numbers_map (l : list Z) : push_numbers l = map toJSNumber l.
Proof. unfold push_numbers. now rewrite push_numbers_from. Qed.

(** Up to [MAX_SAFE_INTEGER] the number is the integer. *)
Lemma toJSNumber_safe (x : Z) : 0 <= x <= MAX_SAFE_INTEGER -> toJSNumber x = x.
Proof.
  intros Hx. unfold toJSNumber, nearest_double.
  replace (x <? 0) with false by (symmetry; apply Z.ltb_ge; lia).
  replace (x <=? MAX_SAFE_INTEGER) with true by (symmetry; apply Z.leb_le; lia).
  reflexivity.
Qed.

Lemma push_numbers_safe (l : list Z) :
  Forall (fun x => 0 <= x <= MAX_SAFE_INTEGER) l -> push_numbers l = l.
Proof.
  intros H. rewrite push_numbers_map.
  induction H as [|x l Hx _ IH]; cbn [map]; [reflexivity|].
  now rewrite IH, toJSNumber_safe.
Qed.

Lemma prefix_sums_differences (l : list Z) (p : Z) :
  prefix_sums p (differences p l) = l.
Proof.
  revert p; induction l as [|a l IH]; intros p; simpl; [reflexivity|].
  replace (p + (a - p)) with a by lia.
  now rewrite IH.
Qed.

(** The differences of an ascending sequence of safe integers are safe. *)
Lemma differences_safe (l : list Z) (p : Z) :
  0 <= p ->
  Sorted Z.le (p :: l) ->
  Forall (fun x => 0 <= x <= MAX_SAFE_INTEGER) l ->
  Forall (fun x => 0 <= x <= MAX_SAFE_INTEGER) (differences p l).
Proof.
  revert p; induction l as [|a l IH]; intros p Hp Hs Hl; cbn [differences];
    [constructor|].
  inversion Hs as [|? ? Hs' Hrel]; subst. inversion Hrel as [|? ? Hle]; subst.
  inversion Hl as [|? ? Ha Hl']; subst.
  constructor; [lia|]. apply IH; [lia | exact Hs' | exact Hl'].
Qed.

Example offsets_S3 :
  absoluteToRelativeOffsets [5; 9; 14; 14; 20] = [5; 4; 5; 0; 6].
Proof. reflexivity. Qed.

(** C9, as amended: for every ascending sequence of absolute offsets that
    numbers hold exactly, from 0 to [MAX_SAFE_INTEGER], turning it into
    relative offsets and back gives the sequence again. *)
Theorem offsets_round_trip (a : list Z) :
  Sorted Z.le a ->
  Forall (fun x => 0 <= x <= MAX_SAFE_INTEGER) a ->
  relativeToAbsoluteOffsets (absoluteToRelativeOffsets a) = a.
Proof.
  intros Hs Ha.
  unfold relativeToAbsoluteOffsets, absoluteToRelativeOffsets.
  destruct a as [|x l]; [reflexivity|].
  inversion Ha as [|? ? Hx Hl]; subst.
  cbn [Common_absoluteToRelativeOffsets].
  rewrite (@push_numbers_safe (x :: differences x l))
    by (constructor; [exact Hx | apply differences_safe; [lia | exact Hs | exact Hl]]).
  unfold Common_relativeToAbsoluteOffsets. cbn [prefix_sums].
  rewrite Z.add_0_l, prefix_sums_differences.
  now apply push_numbers_safe.
Qed.

Lemma offsets_round_trip_witness :
  Sorted Z.le [5; 9; 14; 14; 20]
  /\ Forall (fun x => 0 <= x <= MAX_SAFE_INTEGER) [5; 9; 14; 14; 20]
  /\ relativeToAbsoluteOffsets (absoluteToRelativeOffsets [5; 9; 14; 14; 20])
     = [5; 9; 14; 14; 20].
Proof.
  assert (H : Sorted Z.le [5; 9; 14; 14; 20])
    by (repeat constructor; lia).
  assert (F : Forall (fun x => 0 <= x <= MAX_SAFE_INTEGER) [5; 9; 14; 14; 20])
    by (repeat constructor; unfold MAX_SAFE_INTEGER; lia).
  split; [exact H|]. split; [exact F | exact (@offsets_round_trip _ H F)].
Defined.

(** C9, as stated, fails: from 1 to 2^53 + 2 the difference is 2^53 + 1,
    which no number holds; the wrapper rounds it to 2^53, and the way back
    ends one step short of the offset it started from. *)
Lemma large_offsets_are_rounded :
  Sorted Z.le [1; 9007199254740994]
  /\ absoluteToRelativeOffsets [1; 9007199254740994] = [1; 9007199254740992]
  /\ relativeToAbsoluteOffsets (absoluteToRelativeOffsets [1; 9007199254740994])
     = [1; 9007199254740992]
  /\ relativeToAbsoluteOffsets (absoluteToRelativeOffsets [1; 9007199254740994])
     <> [1; 9007199254740994].
Proof.
  split; [repeat constructor; lia|].
  split; [vm_compute; reflexivity|].
  split; [vm_compute; reflexivity|].
  vm_compute. discriminate.
Qed.

(** ** Hexadecimal validation *)

Lemma string_length_chars (s : string) :
  String.length s = List.length (list_ascii_of_string s).
Proof. induction s; simpl; congruence. Qed.

Lemma regex_hex_n_spec (n : nat) (cs : list ascii) :
  regex_hex_n n cs = Nat.eqb (List.length cs) n && forallb isHexChar cs.
Proof.
  revert cs; induction n as [|n IH]; intros [|c cs]; simpl; try reflexivity.
  rewrite IH. destruct (isHexChar c), (Nat.eqb (List.length cs) n); reflexivity.
Qed.

Lemma isHex_even_length (n : nat) (s : string) :
  Nat.even n = true ->
  isHex s && Nat.eqb (String.length s) n = hex_string n s.
Proof.
  intros Hn. unfold isHex, hex_string.
  destruct (Nat.eqb (String.length s) n) eqn:E.
  - apply Nat.eqb_eq in E. rewrite E at 1.
    assert (Hm : Nat.eqb (n mod 2) 0 = true).
    { apply Nat.eqb_eq. apply Nat.even_spec in Hn. destruct Hn as [k ->].
      rewrite Nat.mul_comm. apply Nat.Div0.mod_mul. }
    rewrite Hm; simpl. rewrite regex_hex_n_spec, <- string_length_chars, Nat.eqb_refl.
    simpl. now rewrite andb_true_r.
  - now rewrite andb_false_r.
Qed.

Lemma isHex64_spec (s : string) : isHex64 s = hex_string 64 s.
Proof. apply isHex_even_length. reflexivity. Qed.

Lemma isHex128_spec (s : string) : isHex128 s = hex_string 128 s.
Proof. apply isHex_even_length. reflexivity. Qed.

Ltac local_failure := intros ?w; unfold throw; eexists; reflexivity.

(** C3, as amended: a parameter that is not exactly 64 hexadecimal
    characters of either case (128 for a signature) makes the operation throw
    before anything is handed to the transport. *)
Theorem malformed_hex_fails_before_transport :
  forall (Dev : Type) (transport : Dev -> Buffer -> Result Buffer * Dev)
         (bad64 bad128 : string),
    hex_string 64 bad64 = false ->
    hex_string 128 bad128 = false ->
    fails_locally (checkKey transport bad64)
    /\ fails_locally (checkScalar transport bad64)
    /\ fails_locally (privateToPublic transport bad64)
    /\ (forall index key confirm,
          fails_locally (generateKeyImage transport bad64 index key confirm)
          /\ fails_locally (generateKeyImage transport key index bad64 confirm))
    /\ (forall confirm, fails_locally (generateSignature transport bad64 confirm))
    /\ (forall a index b k signature confirm,
          fails_locally (completeRingSignature transport bad64 index b k signature confirm)
          /\ fails_locally (completeRingSignature transport a index bad64 k signature confirm)
          /\ fails_locally (completeRingSignature transport a index b bad64 signature confirm)
          /\ fails_locally (completeRingSignature transport a index b k bad128 confirm)).
Proof.
  intros Dev transport bad64 bad128 H64 H128.
  assert (E64 : isHex64 bad64 = false) by now rewrite isHex64_spec.
  assert (E128 : isHex128 bad128 = false) by now rewrite isHex128_spec.
  repeat split.
  - unfold checkKey. rewrite E64. local_failure.
  - unfold checkScalar. rewrite E64. local_failure.
  - unfold privateToPublic. rewrite E64. local_failure.
  - unfold generateKeyImage. rewrite E64. local_failure.
  - unfold generateKeyImage. rewrite E64.
    destruct (isHex64 key); simpl; [|local_failure].
    destruct (index <? 0); local_failure.
  - unfold generateSignature. rewrite E64. local_failure.
  - unfold completeRingSignature. rewrite E64. local_failure.
  - unfold completeRingSignature. rewrite E64.
    destruct (isHex64 a); simpl; [|local_failure].
    destruct (index <? 0); local_failure.
  - unfold completeRingSignature. rewrite E64.
    destruct (isHex64 a); simpl; [|local_failure].
    destruct (index <? 0); [local_failure|].
    destruct (isHex64 b); simpl; local_failure.
  - unfold completeRingSignature. rewrite E128.
    destruct (isHex64 a); simpl; [|local_failure].
    destruct (index <? 0); [local_failure|].
    destruct (isHex64 b); simpl; [|local_failure].
    destruct (isHex64 k); simpl; local_failure.
Qed.

Lemma malformed_hex_witness :
  hex_string 64 "ZZ" = false
  /\ hex_string 128 lowercase_key = false
  /\ fails_locally (checkKey accepting_device "ZZ").
Proof.
  assert (H64 : hex_string 64 "ZZ" = false) by reflexivity.
  assert (H128 : hex_string 128 lowercase_key = false) by reflexivity.
  split; [exact H64|]. split; [exact H128|].
  exact (proj1 (@malformed_hex_fails_before_transport unit accepting_device _ _ H64 H128)).
Defined.

(** C3, as stated, fails: 64 uppercase hexadecimal characters are not 64
    lowercase ones, yet [checkKey] frames them and the device answers. *)
Lemma checkKey_accepts_uppercase_hex :
  lowercase_hex_string 64 uppercase_key = false
  /\ checkKey accepting_device uppercase_key fresh_world
     = (Ok true,
        mkWorld [spec_request_frame 22 true (repeat 170 32)] tt fresh_session).
Proof. split; vm_compute; reflexivity. Qed.

(** ** Request framing *)

Lemma cmd_code_byte (c : CMD) : cmd_code c mod 256 = cmd_code c.
Proof. destruct c; reflexivity. Qed.

Lemma exchange_transmits (Dev : Type)
    (transport : Dev -> Buffer -> Result Buffer * Dev)
    (cmd : CMD) (confirm : option bool) (data : option Buffer) (w : World Dev) :
  Z.of_nat (List.length (payload_of data)) <= 512 - 6 ->
  exchange transport cmd confirm data w
  = transmit transport
      (spec_request_frame (cmd_code cmd) (confirm_of confirm) (payload_of data)) w.
Proof.
  intros Hlen. unfold exchange, spec_request_frame, uint8_t, uint16_be, uint16_le.
  rewrite cmd_code_byte.
  destruct data as [d|]; simpl payload_of in *.
  - destruct (512 - 6 <? Z.of_nat (List.length d)) eqn:E; [apply Z.ltb_lt in E; lia|].
    assert (Hq : (Z.of_nat (List.length d) / 256) mod 256 = Z.of_nat (List.length d) / 256).
    { apply Z.mod_small. split.
      - apply Z.div_pos; lia.
      - apply Z.div_lt_upper_bound; lia. }
    rewrite Hq.
    destruct confirm as [[|]|]; reflexivity.
  - destruct confirm as [[|]|]; reflexivity.
Qed.

Lemma transmit_sent (Dev : Type)
    (transport : Dev -> Buffer -> Result Buffer * Dev)
    (request : Buffer) (w : World Dev) :
  sent (snd (transmit transport request w)) = sent w ++ [request].
Proof.
  unfold transmit. destruct (transport (dev w) request) as [[r|e] d]; reflexivity.
Qed.

Lemma exchange_sent (Dev : Type)
    (transport : Dev -> Buffer -> Result Buffer * Dev)
    (cmd : CMD) (confirm : option bool) (data : option Buffer) (w : World Dev) :
  Z.of_nat (List.length (payload_of data)) <= 512 - 6 ->
  sent (snd (exchange transport cmd confirm data w))
  = sent w ++ [spec_request_frame (cmd_code cmd) (confirm_of confirm) (payload_of data)].
Proof.
  intros Hlen. rewrite exchange_transmits by assumption. apply transmit_sent.
Qed.

Lemma exchange_refuses_large (Dev : Type)
    (transport : Dev -> Buffer -> Result Buffer * Dev)
    (cmd : CMD) (confirm : option bool) (data : option Buffer) (w : World Dev) :
  512 - 6 < Z.of_nat (List.length (payload_of data)) ->
  exchange transport cmd confirm data w
  = (Throw (Error "Data payload exceeds maximum size"), w).
Proof.
  intros Hlen. unfold exchange.
  destruct data as [d|]; cbn [payload_of List.length] in Hlen; [|simpl in Hlen; lia].
  apply Z.ltb_lt in Hlen. rewrite Hlen. reflexivity.
Qed.

(** C4: the bytes handed to the transport are [0xE0], the command's INS
    byte, P1 (1 when confirmation is asked for, else 0), P2 = 0, the
    big-endian 16-bit length of the data, and the data; a payload longer
    than 512 - 6 bytes is refused and nothing is handed over. *)
Theorem exchange_request_bytes :
  forall (Dev : Type) (transport : Dev -> Buffer -> Result Buffer * Dev)
         (cmd : CMD) (confirm : option bool) (data : option Buffer) (w : World Dev),
    (Z.of_nat (List.length (payload_of data)) <= 512 - 6 ->
     sent (snd (exchange transport cmd confirm data w))
     = sent w ++ [spec_request_frame (cmd_code cmd) (confirm_of confirm) (payload_of data)])
    /\ (512 - 6 < Z.of_nat (List.length (payload_of data)) ->
        exchange transport cmd confirm data w
        = (Throw (Error "Data payload exceeds maximum size"), w)).
Proof.
  intros Dev transport cmd confirm data w. split.
  - apply exchange_sent.
  - apply exchange_refuses_large.
Qed.

Lemma exchange_request_bytes_witness :
  sent (snd (exchange accepting_device VERSION None None fresh_world))
  = [[224; 1; 1; 0; 0; 0]]
  /\ exchange accepting_device CHECK_KEY None (Some (repeat 0 507)) fresh_world
     = (Throw (Error "Data payload exceeds maximum size"), fresh_world).
Proof.
  destruct (@exchange_request_bytes unit accepting_device VERSION None None fresh_world)
    as [Hsmall _].
  destruct (@exchange_request_bytes unit accepting_device CHECK_KEY None
              (Some (repeat 0 507)) fresh_world) as [_ Hlarge].
  split.
  - apply Hsmall. vm_compute. discriminate.
  - apply Hlarge. vm_compute. reflexivity.
Defined.

(** ** Response framing *)

Lemma parse_response_spec (body : Buffer) (hi lo : Z) :
  parse_response (body ++ [hi; lo])
  = if read_uint16_be hi lo =? ErrorCode.OK then Ok body
    else Throw (Error ("Could not complete request: "
                         ++ show_number (Some (surfaced_code body hi lo)))).
Proof.
  unfold parse_response, slice_from, slice_to.
  rewrite length_app. cbn [List.length].
  set (n := List.length body).
  replace (Z.of_nat (n + 2) - 2) with (Z.of_nat n) by lia.
  destruct (Z.of_nat n <? 0) eqn:E; [apply Z.ltb_lt in E; lia|].
  rewrite Z.min_l by lia. rewrite Nat2Z.id.
  assert (Hskip : skipn n (body ++ [hi; lo]) = [hi; lo]).
  { rewrite skipn_app. unfold n. rewrite skipn_all, Nat.sub_diag. reflexivity. }
  rewrite Hskip. cbn [List.length].
  replace (Z.of_nat (n + 2) - Z.of_nat 2) with (Z.of_nat n) by lia.
  rewrite E, Z.min_l by lia. rewrite Nat2Z.id.
  assert (Hfirst : firstn n (body ++ [hi; lo]) = body).
  { rewrite firstn_app. unfold n. rewrite firstn_all, Nat.sub_diag.
    simpl. apply app_nil_r. }
  rewrite Hfirst. cbn [reader_uint16_be].
  destruct (read_uint16_be hi lo =? ErrorCode.OK); cbn [negb]; [reflexivity|].
  destruct body as [|b0 [|b1 rest]]; reflexivity.
Qed.

(** C5: when the status word that ends the response is not [0x9000] the
    exchange throws, quoting the first two bytes of the body when the body
    has two and the status word otherwise; on [0x9000] the caller gets the
    body as it came. *)
Theorem exchange_status_word :
  forall (Dev : Type) (transport : Dev -> Buffer -> Result Buffer * Dev)
         (cmd : CMD) (confirm : option bool) (data : option Buffer) (w : World Dev)
         (body : Buffer) (hi lo : Z) (dev' : Dev),
    Z.of_nat (List.length (payload_of data)) <= 512 - 6 ->
    transport (dev w)
      (spec_request_frame (cmd_code cmd) (confirm_of confirm) (payload_of data))
    = (Ok (body ++ [hi; lo]), dev') ->
    fst (exchange transport cmd confirm data w)
    = if read_uint16_be hi lo =? 36864 then Ok body
      else Throw (Error ("Could not complete request: "
                           ++ show_number (Some (surfaced_code body hi lo)))).
Proof.
  intros Dev transport cmd confirm data w body hi lo dev' Hlen Hanswer.
  rewrite exchange_transmits by assumption.
  unfold transmit. rewrite Hanswer. cbn [fst].
  apply parse_response_spec.
Qed.

Lemma exchange_status_word_witness :
  fst (exchange refusing_device TX_SIGN None None fresh_world)
  = Throw (Error "Could not complete request: 38145")
  /\ fst (exchange accepting_device TX_STATE None None fresh_world) = Ok [1].
Proof.
  split.
  - apply (@exchange_status_word unit refusing_device TX_SIGN None None fresh_world
             [149; 1] 105 133 tt); [vm_compute; discriminate | reflexivity].
  - apply (@exchange_status_word unit accepting_device TX_STATE None None fresh_world
             [1] 144 0 tt); [vm_compute; discriminate | reflexivity].
Defined.

(** ** Output decomposition *)

Example generateTransactionOutputs_S4 :
  option_map (fun r => match r with Ok l => amounts l | Throw _ => [] end)
    (generateTransactionOutputs no_config (fun _ => Ok demo_address)
       (config_with_maximum 100000) "address" 123)
  = Some [3; 20; 100].
Proof. vm_compute. reflexivity. Qed.

(** C1 at a failing input: with [maximumOutputAmount = 30] the amount 40 is
    one piece, 4 * 10^1, above the bound; the loop emits one chunk of 30 and
    leaves the remaining 10 behind, so the amounts sum to 30, not to 40. *)
Theorem generateTransactionOutputs_drops_remainder :
  generateTransactionOutputs no_config (fun _ => Ok demo_address)
    (config_with_maximum 30) "address" 40
  = Some (Ok [mkGeneratedOutput 30 demo_address])
  /\ sum (amounts [mkGeneratedOutput 30 demo_address]) = 30
  /\ 30 <> 40.
Proof. split; [|split]; [vm_compute; reflexivity | reflexivity | discriminate]. Qed.

(** *** What the decomposition does keep *)

Lemma digits_lsb_range (fuel : nat) (n : Z) :
  0 <= n -> Forall (fun d => 0 <= d <= 9) (digits_lsb fuel n).
Proof.
  revert n; induction fuel as [|fuel IH]; intros n Hn; simpl; [constructor|].
  destruct (n <? 10) eqn:E.
  - apply Z.ltb_lt in E. repeat constructor; lia.
  - constructor.
    + pose proof (Z.mod_pos_bound n 10). lia.
    + apply IH. apply Z.div_pos; lia.
Qed.

Lemma digits_lsb_value (fuel : nat) (n : Z) :
  0 <= n < 2 ^ Z.of_nat fuel -> digits_value (digits_lsb fuel n) = n.
Proof.
  revert n; induction fuel as [|fuel IH]; intros n Hn.
  - simpl in *. lia.
  - cbn [digits_lsb]. destruct (n <? 10) eqn:E.
    + simpl. lia.
    + apply Z.ltb_ge in E. cbn [digits_value]. rewrite IH.
      * pose proof (Z.div_mod n 10). lia.
      * rewrite Nat2Z.inj_succ, Z.pow_succ_r in Hn by lia.
        split; [apply Z.div_pos; lia|].
        apply Z.div_lt_upper_bound; lia.
Qed.

Lemma enough_digits (n : Z) :
  0 <= n -> n < 2 ^ Z.of_nat (S (Z.to_nat (Z.log2 n))).
Proof.
  intros Hn. rewrite Nat2Z.inj_succ, Z2Nat.id by apply Z.log2_nonneg.
  destruct (Z.eq_dec n 0) as [->|Hz]; [reflexivity|].
  apply Z.log2_spec. lia.
Qed.

Lemma amountChars_digits (n : Z) :
  n <= MAX_SAFE_INTEGER ->
  rev (list_ascii_of_string (Number_toString n))
  = map digit_char (digits_lsb (S (Z.to_nat (Z.log2 n))) n).
Proof.
  intros Hn. unfold Number_toString, decimal_digits.
  replace (n <=? MAX_SAFE_INTEGER) with true by (symmetry; now apply Z.leb_le).
  now rewrite list_ascii_of_string_of_list_ascii, rev_involutive.
Qed.

Lemma parseInt_digit_char (d : Z) : 0 <= d <= 9 -> parseInt (digit_char d) = d.
Proof.
  intros Hd. unfold parseInt, digit_char.
  rewrite nat_ascii_embedding by lia. lia.
Qed.

Lemma sum_amounts_app (l1 l2 : list GeneratedOutput) :
  sum (amounts (l1 ++ l2)) = sum (amounts l1) + sum (amounts l2).
Proof.
  unfold amounts, sum. induction l1 as [|x l1 IH]; simpl; [reflexivity|].
  rewrite IH. lia.
Qed.

Lemma sum_amounts_repeat (o : GeneratedOutput) (k : nat) :
  sum (amounts (repeat o k)) = Z.of_nat k * go_amount o.
Proof.
  unfold amounts, sum. induction k as [|k IH]; [reflexivity|].
  cbn [repeat map fold_right]. rewrite IH. lia.
Qed.

(** The loop only ever adds chunks of the bound. *)
Lemma split_loop_chunks (fuel : nat) (m : Z) (destination : Address)
    (splitAmt : Z) (result result' : list GeneratedOutput) :
  split_loop fuel m destination splitAmt result = Some result' ->
  exists k, result' = result ++ repeat (mkGeneratedOutput m destination) k.
Proof.
  revert splitAmt result; induction fuel as [|fuel IH]; intros s acc H; simpl in H.
  - destruct (m <=? s); [discriminate|]. injection H as <-. exists O. simpl.
    now rewrite app_nil_r.
  - destruct (m <=? s).
    + apply IH in H. destruct H as [k ->]. exists (S k).
      now rewrite <- app_assoc.
    + injection H as <-. exists O. simpl. now rewrite app_nil_r.
Qed.

(** With a positive bound the loop ends after [splitAmt / max] turns. *)
Lemma split_loop_terminates (m : Z) (destination : Address) (fuel : nat)
    (splitAmt : Z) (result : list GeneratedOutput) :
  0 < m -> 0 <= splitAmt -> (Z.to_nat (splitAmt / m) < fuel)%nat ->
  split_loop fuel m destination splitAmt result
  = Some (result ++ repeat (mkGeneratedOutput m destination) (Z.to_nat (splitAmt / m))).
Proof.
  intros Hm. revert splitAmt result; induction fuel as [|fuel IH];
    intros s acc Hs Hfuel; [lia|].
  cbn [split_loop]. destruct (m <=? s) eqn:E.
  - apply Z.leb_le in E.
    assert (Hq : s / m = (s - m) / m + 1).
    { replace s with ((s - m) + 1 * m) at 1 by lia.
      rewrite Z.div_add by lia. reflexivity. }
    assert (0 <= (s - m) / m) by (apply Z.div_pos; lia).
    rewrite IH by lia.
    rewrite Hq, Z2Nat.inj_add, Nat.add_1_r by lia.
    cbn [repeat]. now rewrite <- app_assoc.
  - apply Z.leb_gt in E. rewrite Z.div_small by lia. simpl. now rewrite app_nil_r.
Qed.

(** With a bound that is not positive the loop never ends, whatever the
    fuel. *)
Lemma split_loop_diverges (m : Z) (destination : Address) (fuel : nat)
    (splitAmt : Z) (result : list GeneratedOutput) :
  m <= 0 -> m <= splitAmt ->
  split_loop fuel m destination splitAmt result = None.
Proof.
  intros Hm. revert splitAmt result; induction fuel as [|fuel IH];
    intros s acc Hs; cbn [split_loop].
  - apply Z.leb_le in Hs. now rewrite Hs.
  - pose proof Hs as Hs'. apply Z.leb_le in Hs'. rewrite Hs'. apply IH. lia.
Qed.

Section Decomposition.

Variable maxAmt : option Z.
Variable destination : Address.

Let shape (a : Z) : Prop := digit_piece a \/ maxAmt = Some a.

Lemma outputs_loop_shape (ds : list Z) (i : Z)
    (result result' : list GeneratedOutput) :
  Forall (fun d => 0 <= d <= 9) ds -> 0 <= i ->
  Forall shape (amounts result) ->
  outputs_loop maxAmt destination (map digit_char ds) i result = Some result' ->
  Forall shape (amounts result').
Proof.
  revert i result; induction ds as [|d ds IH]; intros i acc Hds Hi Hacc H.
  - simpl in H. now injection H as <-.
  - inversion Hds as [|? ? Hd Hds']; subst.
    cbn [map outputs_loop] in H. rewrite parseInt_digit_char in H by assumption.
    destruct (js_gt (d * 10 ^ i) maxAmt) eqn:Egt.
    + destruct maxAmt as [m|] eqn:Emax; [|discriminate].
      destruct (split_loop _ m destination (d * 10 ^ i) acc) as [acc'|] eqn:Es;
        [|discriminate].
      apply split_loop_chunks in Es. destruct Es as [k ->].
      apply IH in H; [exact H | exact Hds' | lia |].
      unfold amounts. rewrite map_app. apply Forall_app. split; [exact Hacc|].
      rewrite map_repeat. apply Forall_forall. intros a Ha.
      apply repeat_spec in Ha. subst a. hnf. right. reflexivity.
    + destruct (negb (d * 10 ^ i =? 0)) eqn:Ez.
      * apply IH in H; [exact H | exact Hds' | lia |].
        unfold amounts. rewrite map_app. apply Forall_app. split; [exact Hacc|].
        constructor; [|constructor]. hnf. left. exists d, i.
        apply negb_true_iff, Z.eqb_neq in Ez.
        assert (d <> 0) by (intros ->; now apply Ez).
        repeat split; lia.
      * apply IH in H; [exact H | exact Hds' | lia | exact Hacc].
Qed.

Lemma outputs_loop_sum (ds : list Z) (i : Z) (result : list GeneratedOutput) :
  splits_evenly maxAmt ->
  Forall (fun d => 0 <= d <= 9) ds -> 0 <= i ->
  exists result',
    outputs_loop maxAmt destination (map digit_char ds) i result = Some result'
    /\ sum (amounts result') = sum (amounts result) + 10 ^ i * digits_value ds.
Proof.
  intros Heven. revert i result; induction ds as [|d ds IH]; intros i acc Hds Hi.
  - exists acc. split; [reflexivity|]. simpl. lia.
  - inversion Hds as [|? ? Hd Hds']; subst.
    cbn [map outputs_loop digits_value]. rewrite parseInt_digit_char by assumption.
    assert (Hpow : 10 ^ (i + 1) = 10 * 10 ^ i) by (rewrite Z.pow_add_r; lia).
    assert (Hpos : 0 < 10 ^ i) by (apply Z.pow_pos_nonneg; lia).
    destruct (js_gt (d * 10 ^ i) maxAmt) eqn:Egt.
    + destruct maxAmt as [m|] eqn:Emax; [|discriminate].
      simpl in Egt. apply Z.ltb_lt in Egt.
      destruct Heven as [Hm Hdiv].
      assert (Hd1 : 1 <= d <= 9) by nia.
      specialize (Hdiv d i Hd1 Hi Egt).
      unfold split_fuel. assert (Hm' : (0 <? m) = true) by now apply Z.ltb_lt.
      rewrite Hm'.
      assert (Hamt : 0 <= d * 10 ^ i) by nia.
      rewrite split_loop_terminates;
        [| exact Hm | exact Hamt | apply Nat.lt_succ_diag_r].
      destruct (IH (i + 1)
                  (acc ++ repeat (mkGeneratedOutput m destination)
                                 (Z.to_nat (d * 10 ^ i / m))) Hds' ltac:(lia))
        as [r [Hr Hsum]].
      exists r. split; [exact Hr|].
      rewrite Hsum, sum_amounts_app, sum_amounts_repeat. cbn [go_amount].
      rewrite Z2Nat.id by (apply Z.div_pos; nia).
      pose proof (Z.div_mod (d * 10 ^ i) m ltac:(lia)) as Hdm.
      rewrite Hdiv in Hdm. rewrite Hpow. lia.
    + destruct (negb (d * 10 ^ i =? 0)) eqn:Ez.
      * destruct (IH (i + 1) (acc ++ [mkGeneratedOutput (d * 10 ^ i) destination])
                    Hds' ltac:(lia)) as [r [Hr Hsum]].
        exists r. split; [exact Hr|].
        rewrite Hsum, sum_amounts_app.
        change (sum (amounts [mkGeneratedOutput (d * 10 ^ i) destination]))
          with (d * 10 ^ i + 0).
        rewrite Hpow. lia.
      * destruct (IH (i + 1) acc Hds' ltac:(lia)) as [r [Hr Hsum]].
        exists r. split; [exact Hr|].
        apply negb_false_iff, Z.eqb_eq in Ez.
        rewrite Hsum, Hpow. lia.
Qed.

End Decomposition.

Lemma power_of_ten_splits_evenly (j : Z) : 0 <= j -> splits_evenly (Some (10 ^ j)).
Proof.
  intros Hj. split; [apply Z.pow_pos_nonneg; lia|].
  intros d k Hd Hk Hgt.
  destruct (Z_lt_le_dec k j) as [Hlt|Hle].
  - exfalso.
    assert (10 ^ (k + 1) <= 10 ^ j) by (apply Z.pow_le_mono_r; lia).
    rewrite Z.pow_add_r in * by lia.
    assert (0 < 10 ^ k) by (apply Z.pow_pos_nonneg; lia). nia.
  - replace k with ((k - j) + j) by lia. rewrite Z.pow_add_r by lia.
    rewrite Z.mul_assoc. apply Z.mod_mul.
    assert (0 < 10 ^ j) by (apply Z.pow_pos_nonneg; lia). lia.
Qed.

Section Amounts.

Variable Config config : ConfigT.
Variable Address_fromAddress : string -> Result Address.

(** Every amount the function returns is a piece [d * 10^k] with
    [1 <= d <= 9], or the bound itself. *)
Lemma generateTransactionOutputs_shape (address : string) (amount : Z)
    (result : list GeneratedOutput) :
  generateTransactionOutputs Config Address_fromAddress config address amount
  = Some (Ok result) ->
  Forall (fun a => digit_piece a
                   \/ effective_maximumOutputAmount Config config = Some a)
    (amounts result).
Proof.
  unfold generateTransactionOutputs, effective_maximumOutputAmount, this_config.
  cbv zeta. intros H.
  destruct (amount <? 0) eqn:En; [discriminate|]. apply Z.ltb_ge in En.
  destruct (Address_fromAddress address) as [destination|e]; [|discriminate].
  destruct (MAX_SAFE_INTEGER <? amount) eqn:Es; [discriminate|]. apply Z.ltb_ge in Es.
  rewrite amountChars_digits in H by exact Es.
  destruct (outputs_loop _ destination _ 0 []) as [r|] eqn:Hloop; [|discriminate].
  injection H as <-.
  refine (@outputs_loop_shape _ destination _ 0 [] r _ _ _ Hloop);
    [now apply digits_lsb_range | lia | constructor].
Qed.

(** When the bound splits every piece above it into whole chunks (no bound
    at all, or a power of ten), the call returns and the amounts sum to the
    amount asked for. *)
Lemma generateTransactionOutputs_sum (address : string) (amount : Z)
    (destination : Address) :
  0 <= amount <= MAX_SAFE_INTEGER ->
  Address_fromAddress address = Ok destination ->
  splits_evenly (effective_maximumOutputAmount Config config) ->
  exists result,
    generateTransactionOutputs Config Address_fromAddress config address amount
    = Some (Ok result)
    /\ sum (amounts result) = amount.
Proof.
  intros [Hn Hs] Haddr Heven.
  unfold generateTransactionOutputs. unfold effective_maximumOutputAmount, this_config in Heven.
  cbv zeta.
  apply Z.ltb_ge in Hn. rewrite Hn. apply Z.ltb_ge in Hn.
  rewrite Haddr.
  replace (MAX_SAFE_INTEGER <? amount) with false by (symmetry; now apply Z.ltb_ge).
  rewrite amountChars_digits by exact Hs.
  destruct (@outputs_loop_sum _ destination
              (digits_lsb (S (Z.to_nat (Z.log2 amount))) amount) 0 [] Heven
              (digits_lsb_range (S (Z.to_nat (Z.log2 amount))) Hn) (Z.le_refl 0))
    as [r [Hr Hsum]].
  rewrite Hr. exists r. split; [reflexivity|].
  rewrite Hsum, digits_lsb_value by (split; [exact Hn | now apply enough_digits]).
  change (sum (amounts [])) with 0. rewrite Z.pow_0_r. lia.
Qed.

End Amounts.

(** With a bound that is a power of ten, as in the scenario with 100000, the
    amounts sum to the amount asked for. *)
Lemma generateTransactionOutputs_sum_power_of_ten (Config config : ConfigT)
    (Address_fromAddress : string -> Result Address) (address : string)
    (amount j : Z) (destination : Address) :
  0 <= amount <= MAX_SAFE_INTEGER -> 0 <= j ->
  Address_fromAddress address = Ok destination ->
  effective_maximumOutputAmount Config config = Some (10 ^ j) ->
  exists result,
    generateTransactionOutputs Config Address_fromAddress config address amount
    = Some (Ok result)
    /\ sum (amounts result) = amount.
Proof.
  intros Hn Hj Haddr Hmax.
  apply generateTransactionOutputs_sum with (destination := destination);
    [exact Hn | exact Haddr |].
  rewrite Hmax. now apply power_of_ten_splits_evenly.
Qed.

(** ** Scanning *)

Section Scanning.

Variable Dev : Type.
Variable transport : Dev -> Buffer -> Result Buffer * Dev.
Variable generateKeyDerivation : string -> string -> Result string.
Variable derivePublicKey : string -> Z -> string -> Result string.
Variable cn_fast_hash : string -> Result string.
Variable Address_fromPublicKeys : string -> string -> Result Address.
Variable keyImagePrimitive : string -> Z -> string -> M Dev string.
Variable Any : Type.
Variable JSON_stringify : Any -> string.

(** With the keys fetched, an output whose key differs from the derived one
    makes [isOurTransactionOutput] throw and leave the world alone. *)
Lemma foreign_output_throws (txPub : string) (o : Output)
    (k1 k2 k3 : option string) (w : World Dev) (derivation ephemeral : string) :
  m_fetched (session w) = true ->
  generateKeyDerivation txPub (privateKey (m_view (session w))) = Ok derivation ->
  derivePublicKey derivation (out_index o) (publicKey (m_spend (session w))) = Ok ephemeral ->
  String.eqb ephemeral (out_key o) = false ->
  isOurTransactionOutput transport generateKeyDerivation derivePublicKey
    Address_fromPublicKeys keyImagePrimitive txPub o k1 k2 k3 None w
  = (Throw (Error "Not our output"), w).
Proof.
  intros Hready Hd He Hneq.
  unfold isOurTransactionOutput, ensure_ready, ready, get_session, bind, ret, lift, throw.
  rewrite Hready. cbn [negb]. rewrite Hd, He, Hneq. reflexivity.
Qed.

(** The scan of a single foreign output is a rejection, not an empty list:
    [.catch()] without a handler lets the rejection through [Promise.all]. *)
Lemma scan_single_foreign (txPub : string) (o : Output) (v s : string)
    (w : World Dev) (derivation ephemeral : string) :
  m_fetched (session w) = true ->
  generateKeyDerivation txPub (privateKey (m_view (session w))) = Ok derivation ->
  derivePublicKey derivation (out_index o) (publicKey (m_spend (session w))) = Ok ephemeral ->
  String.eqb ephemeral (out_key o) = false ->
  scanTransactionOutputs transport generateKeyDerivation derivePublicKey
    Address_fromPublicKeys keyImagePrimitive txPub [o] v s None None w
  = (Throw (Error "Not our output"), w).
Proof.
  intros Hready Hd He Hneq.
  unfold scanTransactionOutputs, bind. cbn [map Promise_all Promise_catch].
  rewrite (foreign_output_throws _ _ _ _ _ Hready Hd He Hneq).
  reflexivity.
Qed.

(** C10: the key arguments kept for compatibility with the host-side helper
    change neither the result nor the world (the requests handed to the
    transport included) of [generateKeyImage], [isOurTransactionOutput] and
    [signMessage]. *)
Theorem key_arguments_are_ignored :
  forall (txPub : string) (o : Output) (index : Z) (partial : option bool)
         (message : string + Any) (w : World Dev)
         (view1 spend1 secret1 view2 spend2 secret2 : option string),
    LedgerNote_generateKeyImage transport generateKeyDerivation derivePublicKey
      Address_fromPublicKeys keyImagePrimitive txPub view1 spend1 secret1 index w
    = LedgerNote_generateKeyImage transport generateKeyDerivation derivePublicKey
        Address_fromPublicKeys keyImagePrimitive txPub view2 spend2 secret2 index w
    /\ isOurTransactionOutput transport generateKeyDerivation derivePublicKey
         Address_fromPublicKeys keyImagePrimitive txPub o view1 spend1 secret1 partial w
       = isOurTransactionOutput transport generateKeyDerivation derivePublicKey
           Address_fromPublicKeys keyImagePrimitive txPub o view2 spend2 secret2 partial w
    /\ signMessage transport cn_fast_hash JSON_stringify message secret1 w
       = signMessage transport cn_fast_hash JSON_stringify message secret2 w.
Proof.
  intros txPub o index partial message w view1 spend1 secret1 view2 spend2 secret2.
  split; [|split].
  - unfold LedgerNote_generateKeyImage. reflexivity.
  - unfold isOurTransactionOutput. destruct partial as [[|]|]; reflexivity.
  - unfold signMessage. reflexivity.
Qed.

End Scanning.

(** C2 at a failing input: the keys are fetched and the single output is not
    ours; the scan rejects with the error of the predicate instead of
    returning the empty list, and one foreign output among ours loses the
    whole scan. *)
Theorem scan_rejects_on_a_foreign_output :
  scanTransactionOutputs accepting_device demo_generateKeyDerivation
    demo_derivePublicKey demo_fromPublicKeys
    (demo_generateKeyImagePrimitive (Dev:=unit)) (key_of 7)
    [foreign_output] "view" "spend" None None ready_world
  = (Throw (Error "Not our output"), ready_world)
  /\ scanTransactionOutputs accepting_device demo_generateKeyDerivation
       demo_derivePublicKey demo_fromPublicKeys
       (demo_generateKeyImagePrimitive (Dev:=unit)) (key_of 7)
       [our_output; foreign_output] "view" "spend" None None ready_world
     = (Throw (Error "Not our output"), ready_world)
  /\ fst (scanTransactionOutputs accepting_device demo_generateKeyDerivation
            demo_derivePublicKey demo_fromPublicKeys
            (demo_generateKeyImagePrimitive (Dev:=unit)) (key_of 7)
            [our_output] "view" "spend" None None ready_world)
     = Ok [mkOutput 0 (key_of 7) 40 100
             (Some (mkOutputInput (key_of 7)
                      (mkTransactionKeys (key_of 7) (key_of 7) 0) (Some NULL_KEY)))
             (Some (key_of 5))].
Proof. repeat split; vm_compute; reflexivity. Qed.

(** ** Sorting *)

Section SortFacts.

Variable A : Type.
Variable le : A -> A -> bool.
Hypothesis le_total : forall a b, le a b = false -> le b a = true.
Hypothesis le_trans : forall a b c, le a b = true -> le b c = true -> le a c = true.

Let R (a b : A) : Prop := le a b = true.

Lemma insert_by_In (x y : A) (l : list A) :
  In y (insert_by le x l) <-> y = x \/ In y l.
Proof.
  induction l as [|z l IH]; simpl.
  - intuition.
  - destruct (le x z); simpl; [intuition|]. rewrite IH. intuition.
Qed.

Lemma sort_by_In (y : A) (l : list A) : In y (sort_by le l) <-> In y l.
Proof.
  induction l as [|x l IH]; simpl; [reflexivity|].
  rewrite insert_by_In, IH. intuition.
Qed.

Lemma insert_by_length (x : A) (l : list A) :
  List.length (insert_by le x l) = S (List.length l).
Proof.
  induction l as [|z l IH]; simpl; [reflexivity|].
  destruct (le x z); simpl; [reflexivity|]. now rewrite IH.
Qed.

Lemma sort_by_length (l : list A) : List.length (sort_by le l) = List.length l.
Proof.
  induction l as [|x l IH]; simpl; [reflexivity|].
  now rewrite insert_by_length, IH.
Qed.

Lemma insert_by_sorted (x : A) (l : list A) :
  StronglySorted R l -> StronglySorted R (insert_by le x l).
Proof.
  induction 1 as [|z l Hs IH Hall]; simpl.
  - constructor; constructor.
  - destruct (le x z) eqn:E.
    + constructor; [constructor; assumption|].
      constructor; [exact E|].
      eapply Forall_impl; [|exact Hall]. intros b Hb. exact (le_trans E Hb).
    + constructor; [exact IH|].
      apply Forall_forall. intros b Hb. apply insert_by_In in Hb.
      destruct Hb as [->|Hb].
      * apply le_total. exact E.
      * rewrite Forall_forall in Hall. now apply Hall.
Qed.

Lemma sort_by_sorted (l : list A) : StronglySorted R (sort_by le l).
Proof.
  induction l as [|x l IH]; simpl; [constructor|].
  now apply insert_by_sorted.
Qed.

End SortFacts.

Lemma StronglySorted_weaken (A : Type) (R1 R2 : A -> A -> Prop) (l : list A) :
  (forall a b, In a l -> In b l -> R1 a b -> R2 a b) ->
  StronglySorted R1 l -> StronglySorted R2 l.
Proof.
  intros Himp Hs. induction Hs as [|x l Hs IH Hall].
  - constructor.
  - constructor.
    + apply IH. intros a b Ha Hb. apply Himp; now right.
    + rewrite Forall_forall in *. intros b Hb.
      apply Himp; [now left | now right | now apply Hall].
Qed.

(** ** Input preparation *)

Lemma by_index_total (a b : PreparedInputOutputs) :
  by_index a b = false -> by_index b a = true.
Proof. unfold by_index. rewrite Z.leb_gt, Z.leb_le. lia. Qed.

Lemma by_index_trans (a b c : PreparedInputOutputs) :
  by_index a b = true -> by_index b c = true -> by_index a c = true.
Proof. unfold by_index. rewrite !Z.leb_le. lia. Qed.

Lemma pick_fakes_length (mixin : nat) (realOutput : Output)
    (fakeOutputs : list RandomOutput) (mixedOutputs : list PreparedInputOutputs) :
  (List.length mixedOutputs <= mixin)%nat ->
  (List.length (pick_fakes mixin realOutput fakeOutputs mixedOutputs) <= mixin)%nat.
Proof.
  revert mixedOutputs; induction fakeOutputs as [|f rest IH]; intros acc Hacc; simpl.
  - exact Hacc.
  - destruct (Nat.eqb (List.length acc) mixin) eqn:E; [now apply IH|].
    destruct (ro_globalIndex f =? out_globalIndex realOutput); [now apply IH|].
    apply IH. rewrite length_app; simpl. apply Nat.eqb_neq in E. lia.
Qed.

Lemma find_real_spec (g : Z) (l : list PreparedInputOutputs) (j acc : nat) :
  (find_real g l j acc = acc /\ Forall (fun o => pio_index o <> g) l)
  \/ ((j <= find_real g l j acc)%nat
      /\ exists o, nth_error l (find_real g l j acc - j) = Some o /\ pio_index o = g).
Proof.
  revert j acc; induction l as [|o rest IH]; intros j acc; simpl.
  - left. split; [reflexivity | constructor].
  - destruct (IH (S j) (if pio_index o =? g then j else acc)) as [[Hr Hall]|[Hle [o' [Hn Ho']]]].
    + rewrite Hr. destruct (pio_index o =? g) eqn:E.
      * right. split; [lia|]. exists o. rewrite Nat.sub_diag. simpl.
        split; [reflexivity | now apply Z.eqb_eq].
      * left. split; [reflexivity|]. constructor; [now apply Z.eqb_neq | exact Hall].
    + right. split; [lia|]. exists o'. split; [|exact Ho'].
      set (r := find_real g rest (S j) (if pio_index o =? g then j else acc)) in *.
      replace (r - j)%nat with (S (r - S j)) by lia. exact Hn.
Qed.

Lemma prepare_input_spec (mixin : nat) (realOutput : Output)
    (fakeOutputs : list RandomOutput) (p : PreparedInput) :
  prepare_input mixin realOutput fakeOutputs = Ok p ->
  prepared_from mixin realOutput p /\ ring_ascending p.
Proof.
  unfold prepare_input. intros H.
  destruct (out_keyImage realOutput) as [k|] eqn:Ek; [|discriminate].
  destruct (string_truthy (Some k)); [|discriminate]. cbn [negb] in H.
  destruct (out_input realOutput) as [input|]; [|discriminate].
  destruct (out_amount realOutput <=? 0); [discriminate|].
  match type of H with
  | match ?m with _ => _ end = _ => destruct m as [mixed|e] eqn:Em; [|discriminate]
  end.
  assert (Hlen : List.length mixed = mixin).
  { destruct (Nat.eqb mixin 0) eqn:E0; cbn [negb] in Em.
    - injection Em as <-. apply Nat.eqb_eq in E0. now subst.
    - match type of Em with
      | (if ?c then _ else _) = _ => destruct c eqn:Ec; [discriminate|]
      end.
      injection Em as <-. apply Nat.ltb_ge in Ec.
      apply Nat.le_antisymm; [|exact Ec].
      apply pick_fakes_length. simpl. lia. }
  injection H as <-. unfold prepared_from, ring_ascending, real_at_its_index.
  cbn [pi_outputs pi_keyImage pi_realOutputIndex].
  set (realMember := mkPreparedInputOutputs (out_key realOutput) (out_globalIndex realOutput)).
  set (ring := sort_by by_index (mixed ++ [realMember])).
  repeat split.
  - exact Ek.
  - unfold ring. rewrite sort_by_length, length_app. simpl. lia.
  - destruct (find_real_spec (out_globalIndex realOutput) ring 0 0)
      as [[_ Hall]|[_ [o [Hn Ho]]]].
    + exfalso. rewrite Forall_forall in Hall.
      apply (Hall realMember); [|reflexivity].
      unfold ring. apply sort_by_In. apply in_or_app. right. now left.
    + exists o. rewrite Nat.sub_0_r in Hn. now split.
  - apply StronglySorted_weaken with (R1 := fun a b => by_index a b = true).
    + intros a b _ _. unfold by_index. now rewrite Z.leb_le.
    + apply sort_by_sorted; [exact by_index_total | exact by_index_trans].
Qed.

Lemma prepare_inputs_loop_spec (mixin : nat) (inputs : list Output)
    (randomOutputs : list (list RandomOutput)) (i : nat)
    (mixedInputs result : list PreparedInput) (P : PreparedInput -> Prop) :
  Forall P mixedInputs ->
  (forall realOutput p, In realOutput inputs ->
     prepared_from mixin realOutput p /\ ring_ascending p -> P p) ->
  prepare_inputs_loop mixin inputs randomOutputs i mixedInputs = Ok result ->
  Forall P result /\ List.length result = (List.length mixedInputs + List.length inputs)%nat.
Proof.
  revert i mixedInputs; induction inputs as [|realOutput rest IH];
    intros i acc Hacc HP H; simpl in H.
  - injection H as <-. split; [exact Hacc | simpl; lia].
  - destruct (prepare_input mixin realOutput (nth i randomOutputs [])) as [p|e] eqn:Ep;
      [|discriminate].
    apply IH in H.
    + destruct H as [Hall Hlen]. split; [exact Hall|].
      rewrite Hlen, length_app. simpl. lia.
    + apply Forall_app. split; [exact Hacc|]. constructor; [|constructor].
      apply (HP realOutput); [now left | now apply prepare_input_spec in Ep].
    + intros r q Hin. apply HP. now right.
Qed.

Lemma prepareTransactionInputs_spec (inputs : list Output)
    (randomOutputs : list (list RandomOutput)) (mixin : nat)
    (result : list PreparedInput) :
  prepareTransactionInputs inputs randomOutputs mixin = Ok result ->
  Forall (fun p => ring_ascending p
                   /\ exists realOutput, In realOutput inputs
                                         /\ prepared_from mixin realOutput p) result
  /\ List.length result = List.length inputs.
Proof.
  unfold prepareTransactionInputs. intros H.
  destruct (negb (Nat.eqb (List.length inputs) (List.length randomOutputs))
            && negb (Nat.eqb mixin 0)); [discriminate|].
  destruct (existsb _ randomOutputs); [discriminate|].
  eapply prepare_inputs_loop_spec in H.
  - exact H.
  - constructor.
  - intros r p Hin [Hp Hr]. split; [exact Hr|]. now exists r.
Qed.

(** ** The builder before [try] *)

Section Builder.

Variable Dev : Type.
Variable transport : Dev -> Buffer -> Result Buffer * Dev.
Variable Config config : ConfigT.
Variable TransactionT : Type.
Variable Transaction_from : Buffer -> Result TransactionT.
Variable tx_hash : TransactionT -> Result string.
Variable tx_size : TransactionT -> Z.
Variable generateKeyDerivation : string -> string -> Result string.
Variable derivePublicKey : string -> Z -> string -> Result string.
Variable BigInteger16 : string -> Result Z.

Lemma all_results_map_ok (A B : Type) (f : A -> Result B) (l : list A) (vs : list B) :
  all_results (map f l) = Ok vs -> forall x, In x l -> exists v, f x = Ok v.
Proof.
  revert vs; induction l as [|a l IH]; intros vs H x Hin; [contradiction|].
  simpl in H. destruct (f a) as [v|e] eqn:Ea; [|discriminate].
  destruct (all_results (map f l)) as [vs'|e] eqn:El; [|discriminate].
  destruct Hin as [<-|Hin]; [now exists v | now apply (IH vs')].
Qed.

Lemma by_keyImage_total (a b : PreparedInput) :
  by_keyImage_descending BigInteger16 a b = false ->
  by_keyImage_descending BigInteger16 b a = true.
Proof. unfold by_keyImage_descending. rewrite Z.leb_gt, Z.leb_le. lia. Qed.

Lemma by_keyImage_trans (a b c : PreparedInput) :
  by_keyImage_descending BigInteger16 a b = true ->
  by_keyImage_descending BigInteger16 b c = true ->
  by_keyImage_descending BigInteger16 a c = true.
Proof. unfold by_keyImage_descending. rewrite !Z.leb_le. lia. Qed.

Lemma sort_inputs_spec (l sorted : list PreparedInput) :
  sort_inputs BigInteger16 l = Ok sorted ->
  StronglySorted (keyImage_ge BigInteger16) sorted
  /\ (forall x, In x sorted <-> In x l)
  /\ List.length sorted = List.length l.
Proof.
  unfold sort_inputs. intros H.
  destruct (List.length l <? 2)%nat eqn:E.
  - injection H as <-. split; [|split; [reflexivity | reflexivity]].
    destruct l as [|x [|y t]]; [constructor | repeat constructor | discriminate].
  - destruct (all_results _) as [vs|e] eqn:Ea; [|discriminate].
    injection H as <-.
    split; [|split; [intros x; apply sort_by_In | apply sort_by_length]].
    apply StronglySorted_weaken
      with (R1 := fun a b => by_keyImage_descending BigInteger16 a b = true).
    + intros a b Ha Hb Hle.
      apply sort_by_In in Ha, Hb.
      destruct (all_results_map_ok _ _ Ea _ Ha) as [va Eva].
      destruct (all_results_map_ok _ _ Ea _ Hb) as [vb Evb].
      exists va, vb. split; [exact Eva|]. split; [exact Evb|].
      unfold by_keyImage_descending, keyImage_value in Hle.
      rewrite Eva, Evb in Hle. now apply Z.leb_le.
    + apply sort_by_sorted; [exact by_keyImage_total | exact by_keyImage_trans].
Qed.

Lemma getRandomKeyPair_sent (w w1 : World Dev) (r : Result (string * string)) :
  getRandomKeyPair transport w = (r, w1) ->
  sent w1 = sent w ++ [spec_request_frame (cmd_code RANDOM_KEY_PAIR) true []].
Proof.
  unfold getRandomKeyPair, bind, lift, ret. intros H.
  pose proof (@exchange_sent Dev transport RANDOM_KEY_PAIR None None w) as Hs.
  specialize (Hs ltac:(simpl; lia)). simpl payload_of in Hs. simpl confirm_of in Hs.
  destruct (exchange transport RANDOM_KEY_PAIR None None w) as [[body|e] w'];
    simpl in Hs.
  - destruct (reader_hash body) as [pub|e]; [|injection H as _ <-; exact Hs].
    destruct (reader_hash (snd pub)) as [priv|e]; injection H as _ <-; exact Hs.
  - injection H as _ <-. exact Hs.
Qed.

(** What a successful run of the code before [try] went through. *)
Lemma before_try_inv (outputs : list GeneratedOutput) (inputs : list Output)
    (randomOutputs : list (list RandomOutput)) (mixin : nat)
    (feeAmount : option Z) (pid : option string) (extraData : bool)
    (w w1 : World Dev) (p : Prepared) :
  before_try transport Config config generateKeyDerivation derivePublicKey BigInteger16
    outputs inputs randomOutputs mixin feeAmount pid extraData w = (Ok p, w1) ->
  exists fee p0,
    prepare_lists transport Config config generateKeyDerivation derivePublicKey
      outputs inputs randomOutputs mixin feeAmount pid extraData w = (Ok (fee, p0), w1)
    /\ validate Config config outputs inputs randomOutputs mixin feeAmount pid extraData = Ok fee
    /\ prepareTransactionInputs inputs randomOutputs mixin = Ok (p_inputs p0)
    /\ sent w1 = sent w ++ [spec_request_frame (cmd_code RANDOM_KEY_PAIR) true []]
    /\ check_and_sort Config config BigInteger16 fee p0 = Ok p.
Proof.
  unfold before_try. unfold bind at 1. intros H.
  destruct (prepare_lists _ _ _ _ _ _ _ _ _ _ _ _ w) as [[[fee p0]|e] w'] eqn:Hp;
    [|discriminate].
  unfold lift in H. cbn [fst snd] in H. injection H as Hc <-.
  exists fee, p0. split; [reflexivity|].
  unfold prepare_lists, bind, lift, ret in Hp.
  destruct (validate _ _ _ _ _ _ _ _ _) as [fee'|e]; [|discriminate].
  destruct (prepareTransactionInputs inputs randomOutputs mixin) as [ins|e]; [|discriminate].
  destruct (getRandomKeyPair transport w) as [[keys|e] w2] eqn:Hk; [|discriminate].
  apply getRandomKeyPair_sent in Hk.
  destruct (prepareTransactionOutputs _ _ _ _) as [outs|e]; [|discriminate].
  injection Hp as <- <- <-. cbn [p_inputs]. repeat split; assumption.
Qed.

Lemma check_and_sort_inv (fee : option Z) (p0 p : Prepared) :
  check_and_sort Config config BigInteger16 fee p0 = Ok p ->
  js_gt (Z.of_nat (List.length (p_outputs p0)))
    (js_or (maximumOutputsPerTransaction (this_config Config config))
           (maximumOutputsPerTransaction (this_config Config config))) = false
  /\ fusion_check Config config fee (p_inputs p0) (p_outputs p0) = Ok tt
  /\ sort_inputs BigInteger16 (p_inputs p0) = Ok (p_inputs p)
  /\ p_outputs p = p_outputs p0.
Proof.
  unfold check_and_sort. intros H.
  destruct (js_gt _ _); [discriminate|].
  destruct (fusion_check _ _ _ _ _) as [[]|e]; [|discriminate].
  destruct (sort_inputs _ _) as [sorted|e]; [|discriminate].
  injection H as <-. repeat split.
Qed.

(** C7, as amended: when the code before [try] has run, and with only the
    request for the transaction keys handed to the device so far, the
    prepared inputs stand in descending order of key image, equal key images
    side by side; every ring has [mixin + 1] members in ascending order of
    index, equal indexes side by side, and the member at [realOutputIndex]
    carries the global index of the real output. *)
Theorem prepared_inputs_are_ordered :
  forall (outputs : list GeneratedOutput) (inputs : list Output)
         (randomOutputs : list (list RandomOutput)) (mixin : nat)
         (feeAmount : option Z) (pid : option string) (extraData : bool)
         (w w1 : World Dev) (p : Prepared),
    before_try transport Config config generateKeyDerivation derivePublicKey BigInteger16
      outputs inputs randomOutputs mixin feeAmount pid extraData w = (Ok p, w1) ->
    StronglySorted (keyImage_ge BigInteger16) (p_inputs p)
    /\ Forall (fun q => ring_ascending q
                        /\ exists realOutput, In realOutput inputs
                                              /\ prepared_from mixin realOutput q)
         (p_inputs p)
    /\ sent w1 = sent w ++ [spec_request_frame (cmd_code RANDOM_KEY_PAIR) true []].
Proof.
  intros outputs inputs randomOutputs mixin feeAmount pid extraData w w1 p H.
  apply before_try_inv in H.
  destruct H as (fee & p0 & _ & _ & Hins & Hsent & Hcheck).
  apply check_and_sort_inv in Hcheck. destruct Hcheck as (_ & _ & Hsort & _).
  apply sort_inputs_spec in Hsort. destruct Hsort as (Hsorted & Hin & _).
  apply prepareTransactionInputs_spec in Hins. destruct Hins as [Hall _].
  split; [exact Hsorted|]. split; [|exact Hsent].
  rewrite Forall_forall in *. intros q Hq. apply Hall. now apply Hin.
Qed.

Lemma validate_keeps_fee (outputs : list GeneratedOutput) (inputs : list Output)
    (randomOutputs : list (list RandomOutput)) (mixin : nat)
    (f : Z) (pid : option string) (extraData : bool) (fee : option Z) :
  validate Config config outputs inputs randomOutputs mixin (Some f) pid extraData = Ok fee ->
  fee = Some f.
Proof.
  unfold validate. intros H.
  destruct extraData; [discriminate|].
  destruct (negb (Nat.eqb (List.length randomOutputs) (List.length inputs))
            && negb (Nat.eqb mixin 0)); [discriminate|].
  destruct (existsb _ randomOutputs); [discriminate|].
  destruct (check_outputs Config config outputs 0 None) as [[needed integrated]|e];
    [|discriminate].
  match type of H with (if ?c then _ else _) = _ => destruct c; [discriminate|] end.
  destruct (check_inputs inputs 0) as [found|e]; [|discriminate].
  destruct (found <? needed); [discriminate|].
  match type of H with (if ?c then _ else _) = _ => destruct c; [discriminate|] end.
  now injection H as <-.
Qed.

(** C6: the fusion rules of a build with [feeAmount = 0], the ratio
    [fusionMinInOutCountRatio] being a whole number [r].
    A build that returns a transaction had at least twelve prepared inputs
    and [r * outputs <= inputs], whatever [fusionMinInputCount] is set to.
    With the two lists prepared and the cap on outputs passed, fewer than
    twelve inputs make the build throw, the message quoting
    [fusionMinInputCount]; twelve inputs or more with
    [inputs < r * outputs] make it throw the error on the ratio. *)
Theorem fusion_minimums :
  (forall (outputs : list GeneratedOutput) (inputs : list Output)
          (randomOutputs : list (list RandomOutput)) (mixin : nat)
          (pid : option string) (unlockTime : option Z) (extraData : bool)
          (w : World Dev) (tx : TransactionT),
     fst (createTransaction transport Config config Transaction_from tx_hash tx_size
            generateKeyDerivation derivePublicKey BigInteger16
            outputs inputs randomOutputs mixin (Some 0) pid unlockTime extraData w)
     = Ok tx ->
     exists p0 w1,
       prepare_lists transport Config config generateKeyDerivation derivePublicKey
         outputs inputs randomOutputs mixin (Some 0) pid extraData w
       = (Ok (Some 0, p0), w1)
       /\ (12 <= List.length (p_inputs p0))%nat
       /\ forall r, effective_fusionMinInOutCountRatio Config config = Some r ->
                    r * Z.of_nat (List.length (p_outputs p0))
                    <= Z.of_nat (List.length (p_inputs p0)))
  /\ (forall (outputs : list GeneratedOutput) (inputs : list Output)
             (randomOutputs : list (list RandomOutput)) (mixin : nat)
             (pid : option string) (unlockTime : option Z) (extraData : bool)
             (w w1 : World Dev) (p0 : Prepared),
        prepare_lists transport Config config generateKeyDerivation derivePublicKey
          outputs inputs randomOutputs mixin (Some 0) pid extraData w
        = (Ok (Some 0, p0), w1) ->
        within_output_cap Config config p0 ->
        (List.length (p_inputs p0) < 12)%nat ->
        createTransaction transport Config config Transaction_from tx_hash tx_size
          generateKeyDerivation derivePublicKey BigInteger16
          outputs inputs randomOutputs mixin (Some 0) pid unlockTime extraData w
        = (Throw (Error ("Sending a [0] fee transaction (fusion) requires a minimum of ["
                           ++ show_number (effective_fusionMinInputCount Config config)
                           ++ "] inputs")),
           w1))
  /\ (forall (outputs : list GeneratedOutput) (inputs : list Output)
             (randomOutputs : list (list RandomOutput)) (mixin : nat)
             (pid : option string) (unlockTime : option Z) (extraData : bool)
             (w w1 : World Dev) (p0 : Prepared) (r : Z),
        prepare_lists transport Config config generateKeyDerivation derivePublicKey
          outputs inputs randomOutputs mixin (Some 0) pid extraData w
        = (Ok (Some 0, p0), w1) ->
        within_output_cap Config config p0 ->
        (12 <= List.length (p_inputs p0))%nat ->
        effective_fusionMinInOutCountRatio Config config = Some r ->
        Z.of_nat (List.length (p_inputs p0))
        < r * Z.of_nat (List.length (p_outputs p0)) ->
        createTransaction transport Config config Transaction_from tx_hash tx_size
          generateKeyDerivation derivePublicKey BigInteger16
          outputs inputs randomOutputs mixin (Some 0) pid unlockTime extraData w
        = (Throw (Error "Sending a [0] fee transaction (fusion) requires the correct input:output ratio be met"),
           w1)).
Proof.
  split; [|split].
  - intros outputs inputs randomOutputs mixin pid unlockTime extraData w tx H.
    unfold createTransaction in H. unfold bind at 1 in H.
    destruct (before_try _ _ _ _ _ _ _ _ _ _ _ _ _ w) as [[p|e] w1] eqn:Hb;
      [|discriminate].
    apply before_try_inv in Hb.
    destruct Hb as (fee & p0 & Hpl & Hval & _ & _ & Hcheck).
    apply validate_keeps_fee in Hval. subst fee.
    apply check_and_sort_inv in Hcheck. destruct Hcheck as (_ & Hfusion & _ & _).
    exists p0, w1. split; [exact Hpl|].
    unfold fusion_check in Hfusion.
    destruct (List.length (p_inputs p0) <? 12)%nat eqn:E12; [discriminate|].
    apply Nat.ltb_ge in E12. split; [exact E12|].
    intros r Hr. unfold effective_fusionMinInOutCountRatio in Hr.
    rewrite Hr in Hfusion. unfold ratio_below in Hfusion.
    destruct (Nat.eqb (List.length (p_outputs p0)) 0) eqn:E0.
    + apply Nat.eqb_eq in E0. rewrite E0. lia.
    + destruct (_ <? _) eqn:Elt; [discriminate|]. now apply Z.ltb_ge in Elt.
  - intros outputs inputs randomOutputs mixin pid unlockTime extraData w w1 p0 Hpl Hcap Hlt.
    unfold createTransaction, before_try. unfold bind at 1. unfold bind at 1.
    rewrite Hpl. unfold lift, check_and_sort. cbn [fst snd].
    unfold within_output_cap in Hcap. rewrite Hcap. unfold fusion_check.
    apply Nat.ltb_lt in Hlt. rewrite Hlt. reflexivity.
  - intros outputs inputs randomOutputs mixin pid unlockTime extraData w w1 p0 r
      Hpl Hcap Hge Hr Hlt.
    unfold createTransaction, before_try. unfold bind at 1. unfold bind at 1.
    rewrite Hpl. unfold lift, check_and_sort. cbn [fst snd].
    unfold within_output_cap in Hcap. rewrite Hcap. unfold fusion_check.
    apply Nat.ltb_ge in Hge. rewrite Hge.
    unfold effective_fusionMinInOutCountRatio in Hr. rewrite Hr. unfold ratio_below.
    destruct (Nat.eqb (List.length (p_outputs p0)) 0) eqn:E0.
    + apply Nat.eqb_eq in E0. rewrite E0 in Hlt. lia.
    + apply Z.ltb_lt in Hlt. rewrite Hlt. reflexivity.
Qed.

End Builder.

Lemma prepared_inputs_witness :
  StronglySorted (keyImage_ge parse_hex) (p_inputs demo_prepared)
  /\ Forall (fun q => ring_ascending q
                      /\ exists realOutput, In realOutput demo_inputs
                                            /\ prepared_from 3%nat realOutput q)
       (p_inputs demo_prepared)
  /\ sent (snd demo_before_try)
     = sent builder_world ++ [spec_request_frame (cmd_code RANDOM_KEY_PAIR) true []].
Proof.
  apply (@prepared_inputs_are_ordered nat scripted_device builder_config builder_config
           demo_generateKeyDerivation demo_derivePublicKey parse_hex
           demo_outputs demo_inputs demo_randomOutputs 3 (Some 0) None false
           builder_world (snd demo_before_try) demo_prepared).
  vm_compute. reflexivity.
Defined.

(** C7, as stated, fails: two inputs with one key image are kept side by
    side, and so are two decoys with one global index, so neither order is
    strict. *)
Lemma equal_keys_and_indexes_are_kept :
  exists p,
    fst (before_try scripted_device builder_config builder_config
           demo_generateKeyDerivation demo_derivePublicKey parse_hex
           demo_outputs twin_inputs twin_decoys 3 None None false builder_world)
    = Ok p
    /\ ~ StronglySorted (keyImage_gt parse_hex) (p_inputs p)
    /\ Forall (fun q => ~ ring_strictly_ascending q) (p_inputs p).
Proof.
  eexists. split; [vm_compute; reflexivity|]. split.
  - intros H. inversion H as [|a l _ Hall]; subst.
    inversion Hall as [|b l' Hgt _]; subst.
    destruct Hgt as (va & vb & Ha & Hb & Hlt).
    vm_compute in Ha, Hb. injection Ha as <-. injection Hb as <-. lia.
  - repeat constructor; intros H; unfold ring_strictly_ascending in H; cbn in H;
      inversion H as [|a l _ Hall]; subst;
      inversion Hall as [|b l' Hlt _]; subst; cbn in Hlt; lia.
Qed.

Lemma fusion_minimums_witness :
  (exists p0 w1,
     prepare_lists scripted_device builder_config builder_config
       demo_generateKeyDerivation demo_derivePublicKey
       demo_outputs demo_inputs demo_randomOutputs 3 (Some 0) None false builder_world
     = (Ok (Some 0, p0), w1)
     /\ (12 <= List.length (p_inputs p0))%nat
     /\ forall r, effective_fusionMinInOutCountRatio builder_config builder_config = Some r ->
                  r * Z.of_nat (List.length (p_outputs p0))
                  <= Z.of_nat (List.length (p_inputs p0)))
  /\ (exists w1,
        createTransaction scripted_device builder_config builder_config
          demo_Transaction_from demo_tx_hash demo_tx_size
          demo_generateKeyDerivation demo_derivePublicKey parse_hex
          demo_outputs (firstn 11 demo_inputs) (firstn 11 demo_randomOutputs) 3
          (Some 0) None None false builder_world
        = (Throw (Error ("Sending a [0] fee transaction (fusion) requires a minimum of ["
                           ++ show_number
                                (effective_fusionMinInputCount builder_config builder_config)
                           ++ "] inputs")),
           w1))
  /\ (exists w1,
        createTransaction scripted_device builder_config strict_ratio_config
          demo_Transaction_from demo_tx_hash demo_tx_size
          demo_generateKeyDerivation demo_derivePublicKey parse_hex
          demo_outputs demo_inputs demo_randomOutputs 3
          (Some 0) None None false builder_world
        = (Throw (Error "Sending a [0] fee transaction (fusion) requires the correct input:output ratio be met"),
           w1)).
Proof.
  pose proof (@fusion_minimums nat scripted_device builder_config builder_config
                Buffer demo_Transaction_from demo_tx_hash demo_tx_size
                demo_generateKeyDerivation demo_derivePublicKey parse_hex)
    as (Hbuilt & Hcount & _).
  pose proof (@fusion_minimums nat scripted_device builder_config strict_ratio_config
                Buffer demo_Transaction_from demo_tx_hash demo_tx_size
                demo_generateKeyDerivation demo_derivePublicKey parse_hex)
    as (_ & _ & Hratio).
  split; [|split].
  - apply (Hbuilt demo_outputs demo_inputs demo_randomOutputs 3%nat None None false
             builder_world [1; 2; 3]).
    vm_compute. reflexivity.
  - eexists. eapply Hcount.
    + vm_compute. reflexivity.
    + vm_compute. reflexivity.
    + apply Nat.ltb_lt. vm_compute. reflexivity.
  - eexists. eapply (Hratio _ _ _ _ _ _ _ _ _ _ 13).
    + vm_compute. reflexivity.
    + vm_compute. reflexivity.
    + apply Nat.leb_le. vm_compute. reflexivity.
    + vm_compute. reflexivity.
    + vm_compute. reflexivity.
Defined.

(** Eleven inputs and no fee: the bound in force is 12, the bound quoted is
    the configured 20. *)
Example fusion_message_quotes_the_configured_count :
  fst (createTransaction scripted_device builder_config builder_config
         demo_Transaction_from demo_tx_hash demo_tx_size
         demo_generateKeyDerivation demo_derivePublicKey parse_hex
         demo_outputs (firstn 11 demo_inputs) (firstn 11 demo_randomOutputs) 3
         (Some 0) None None false builder_world)
  = Throw (Error "Sending a [0] fee transaction (fusion) requires a minimum of [20] inputs").
Proof. vm_compute. reflexivity. Qed.

(** ** Cleanup *)

Section Cleanup.

Variable Dev : Type.
Variable transport : Dev -> Buffer -> Result Buffer * Dev.
Variable Config config : ConfigT.
Variable TransactionT : Type.
Variable Transaction_from : Buffer -> Result TransactionT.
Variable tx_hash : TransactionT -> Result string.
Variable tx_size : TransactionT -> Z.
Variable generateKeyDerivation : string -> string -> Result string.
Variable derivePublicKey : string -> Z -> string -> Result string.
Variable BigInteger16 : string -> Result Z.

Lemma appends_ret (A : Type) (a : A) : appends (ret (Dev:=Dev) a).
Proof. intros w. exists []. simpl. now rewrite app_nil_r. Qed.

Lemma appends_throw (A : Type) (e : JsError) : appends (throw (Dev:=Dev) (A:=A) e).
Proof. intros w. exists []. simpl. now rewrite app_nil_r. Qed.

Lemma appends_lift (A : Type) (r : Result A) : appends (lift (Dev:=Dev) r).
Proof. intros w. exists []. simpl. now rewrite app_nil_r. Qed.

Lemma appends_bind (A B : Type) (m : M Dev A) (k : A -> M Dev B) :
  appends m -> (forall a, appends (k a)) -> appends (bind m k).
Proof.
  intros Hm Hk w. unfold bind. destruct (Hm w) as [more1 H1].
  destruct (m w) as [[a|e] w1]; simpl in H1.
  - destruct (Hk a w1) as [more2 H2]. exists (more1 ++ more2).
    now rewrite H2, H1, app_assoc.
  - now exists more1.
Qed.

Lemma appends_exchange (cmd : CMD) (confirm : option bool) (data : option Buffer) :
  appends (exchange transport cmd confirm data).
Proof.
  intros w.
  destruct (Z_le_gt_dec (Z.of_nat (List.length (payload_of data))) (512 - 6)) as [Hle|Hgt].
  - eexists. now apply exchange_sent.
  - rewrite exchange_refuses_large by lia. exists []. simpl. now rewrite app_nil_r.
Qed.

Lemma appends_for_each (A : Type) (f : A -> M Dev unit) (xs : list A) :
  (forall x, appends (f x)) -> appends (for_each f xs).
Proof.
  intros Hf. induction xs as [|x rest IH]; simpl.
  - apply appends_ret.
  - apply appends_bind; [apply Hf | intros _; exact IH].
Qed.

Create HintDb appends.
#[local] Hint Resolve appends_ret appends_throw appends_lift appends_exchange : appends.

Ltac appends_tac :=
  lazymatch goal with
  | |- appends (bind _ _) => apply appends_bind; [appends_tac | intros; appends_tac]
  | |- appends (if ?c then _ else _) => destruct c; appends_tac
  | |- appends (for_each _ _) => apply appends_for_each; intros; appends_tac
  | |- _ => solve [auto with appends]
  end.

Lemma appends_retrieve_loop (settings : ConfigT) (fuel : nat) (response : Buffer) :
  appends (retrieve_loop transport settings fuel response).
Proof.
  revert response; induction fuel as [|fuel IH]; intros response; cbn [retrieve_loop].
  - destruct (js_lt _ _); apply appends_ret.
  - destruct (js_lt _ _); [|apply appends_ret]. cbv zeta.
    apply appends_bind; [apply appends_lift|]. intros writer.
    apply appends_bind; [apply appends_exchange|].
    intros result. destruct (Nat.eqb (List.length result) 0); [apply appends_ret | apply IH].
Qed.

(** The fuel of [retrieve_loop] never decides: any two amounts that cover
    the bytes still missing up to [maximumLedgerTransactionSize] give the
    same run. *)
Lemma retrieve_loop_fuel (settings : ConfigT) (m : Z) (fuel1 fuel2 : nat)
    (response : Buffer) (w : World Dev) :
  maximumLedgerTransactionSize settings = Some m ->
  m - Z.of_nat (List.length response) <= Z.of_nat fuel1 ->
  m - Z.of_nat (List.length response) <= Z.of_nat fuel2 ->
  retrieve_loop transport settings fuel1 response w
  = retrieve_loop transport settings fuel2 response w.
Proof.
  intros Hm. revert fuel2 response w; induction fuel1 as [|fuel1 IH];
    intros [|fuel2] response w H1 H2; cbn [retrieve_loop]; rewrite Hm; cbn [js_lt];
    destruct (Z.of_nat (List.length response) <? m) eqn:E; try reflexivity;
    try (apply Z.ltb_lt in E; lia).
  cbv zeta. unfold bind, lift.
  destruct (Writer_uint16_t_be _ []) as [writer|e]; [|reflexivity]. cbn [fst snd].
  destruct (exchange transport TX_DUMP None _ w) as [[result|e] w']; [|reflexivity].
  destruct (Nat.eqb (List.length result) 0) eqn:E0; [reflexivity|].
  apply Nat.eqb_neq in E0.
  apply IH; rewrite length_app; lia.
Qed.

#[local] Hint Resolve appends_retrieve_loop : appends.

Lemma appends_try_body (p : Prepared) (pid : option string) (unlockTime : Z) :
  appends (try_body transport Config config Transaction_from tx_hash tx_size p pid unlockTime).
Proof.
  unfold try_body, startTransaction, expect_state, transactionState,
    startTransactionInputLoad, load_input, loadTransactionInput,
    startTransactionOutputLoad, loadTransactionOutput, finalizeTransactionPrefix,
    signTransaction, retrieveTransaction.
  cbv zeta. appends_tac.
Qed.

(** C8, as amended: once the code before [try] has run without an error,
    every way out of the build, with a transaction or with an error, hands
    [TX_RESET] to the device as its last request. *)
Theorem reset_closes_every_build :
  forall (outputs : list GeneratedOutput) (inputs : list Output)
         (randomOutputs : list (list RandomOutput)) (mixin : nat)
         (feeAmount : option Z) (pid : option string) (unlockTime : option Z)
         (extraData : bool) (w w1 : World Dev) (p : Prepared),
    before_try transport Config config generateKeyDerivation derivePublicKey BigInteger16
      outputs inputs randomOutputs mixin feeAmount pid extraData w = (Ok p, w1) ->
    exists more,
      sent (snd (createTransaction transport Config config Transaction_from tx_hash tx_size
                   generateKeyDerivation derivePublicKey BigInteger16
                   outputs inputs randomOutputs mixin feeAmount pid unlockTime extraData w))
      = sent w1 ++ more ++ [TX_RESET_request].
Proof.
  intros outputs inputs randomOutputs mixin feeAmount pid unlockTime extraData w w1 p Hb.
  unfold createTransaction. unfold bind at 1. rewrite Hb. unfold try_finally.
  set (unlock := match unlockTime with Some t => t | None => 0 end).
  destruct (appends_try_body p pid unlock w1) as [more Hmore].
  destruct (try_body _ _ _ _ _ _ p pid unlock w1) as [r wb]. cbn [snd] in Hmore.
  exists more. unfold resetTransaction, bind, ret.
  pose proof (@exchange_sent Dev transport TX_RESET None None wb) as Hreset.
  specialize (Hreset ltac:(simpl; lia)).
  change (spec_request_frame (cmd_code TX_RESET) (confirm_of None) (payload_of None))
    with TX_RESET_request in Hreset.
  destruct (exchange transport TX_RESET None None wb) as [[body|e] w2];
    cbn [snd] in *; rewrite Hreset, Hmore; now rewrite app_assoc.
Qed.

End Cleanup.

Lemma reset_closes_every_build_witness :
  exists more,
    sent (snd (createTransaction scripted_device builder_config builder_config
                 demo_Transaction_from demo_tx_hash demo_tx_size
                 demo_generateKeyDerivation demo_derivePublicKey parse_hex
                 demo_outputs demo_inputs demo_randomOutputs 3 (Some 0) None None false
                 builder_world))
    = sent (snd demo_before_try) ++ more ++ [TX_RESET_request].
Proof.
  apply (@reset_closes_every_build nat scripted_device builder_config builder_config
           Buffer demo_Transaction_from demo_tx_hash demo_tx_size
           demo_generateKeyDerivation demo_derivePublicKey parse_hex
           demo_outputs demo_inputs demo_randomOutputs 3%nat (Some 0) None None false
           builder_world (snd demo_before_try) demo_prepared).
  vm_compute. reflexivity.
Defined.

(** C8, as stated, fails: a call with extra data throws before [try], and
    nothing at all is handed to the device, [TX_RESET] included. *)
Lemma early_exit_sends_no_reset :
  createTransaction scripted_device builder_config builder_config
    demo_Transaction_from demo_tx_hash demo_tx_size
    demo_generateKeyDerivation demo_derivePublicKey parse_hex
    demo_outputs demo_inputs demo_randomOutputs 3 (Some 0) None None true builder_world
  = (Throw (Error "Supplying extra transaction data is not supported"), builder_world)
  /\ sent builder_world = [].
Proof. split; vm_compute; reflexivity. Qed.

(** The requests of a whole build, by INS byte. *)
Example whole_build_requests :
  map (fun request => nth 1 request 0)
    (sent (snd (createTransaction scripted_device builder_config builder_config
                  demo_Transaction_from demo_tx_hash demo_tx_size
                  demo_generateKeyDerivation demo_derivePublicKey parse_hex
                  demo_outputs demo_inputs demo_randomOutputs 3 (Some 0) None None false
                  builder_world)))
  = [25; 113; 112; 114; 112] ++ repeat 115 12
    ++ [112; 116; 112; 117; 112; 118; 112; 119; 112; 120; 120; 121].
Proof. vm_compute. reflexivity. Qed.

(** Scenario S7: the device refuses to sign; the build throws with the
    status word as the code, and [TX_RESET] is still the last request. *)
Example refused_signature_is_followed_by_reset :
  fst (createTransaction refusing_signer builder_config builder_config
         demo_Transaction_from demo_tx_hash demo_tx_size
         demo_generateKeyDerivation demo_derivePublicKey parse_hex
         demo_outputs demo_inputs demo_randomOutputs 3 (Some 0) None None false
         builder_world)
  = Throw (Error "Could not complete request: 27013")
  /\ last (sent (snd (createTransaction refusing_signer builder_config builder_config
                        demo_Transaction_from demo_tx_hash demo_tx_size
                        demo_generateKeyDerivation demo_derivePublicKey parse_hex
                        demo_outputs demo_inputs demo_randomOutputs 3 (Some 0) None None
                        false builder_world))) []
     = TX_RESET_request.
Proof. split; vm_compute; reflexivity. Qed.

(** * Further properties of the code *)

(** ** Hexadecimal strings *)

Lemma even_mod2 (n : nat) : Nat.eqb (n mod 2) 0 = Nat.even n.
Proof.
  destruct (Nat.even n) eqn:E.
  - apply Nat.even_spec in E. destruct E as [k ->].
    rewrite Nat.mul_comm, Nat.Div0.mod_mul. reflexivity.
  - assert (Ho : Nat.odd n = true) by (unfold Nat.odd; now rewrite E).
    apply Nat.odd_spec in Ho. destruct Ho as [k ->].
    replace (2 * k + 1)%nat with (1 + k * 2)%nat by lia.
    rewrite Nat.Div0.mod_add. reflexivity.
Qed.

Lemma isHex_spec (value : string) :
  isHex value
  = Nat.even (String.length value) && forallb isHexChar (list_ascii_of_string value).
Proof.
  unfold isHex. rewrite even_mod2.
  destruct (Nat.even (String.length value)); cbn [negb andb]; [|reflexivity].
  rewrite regex_hex_n_spec, <- string_length_chars, Nat.eqb_refl. reflexivity.
Qed.

(** The class of [isHexChar] is the alphabet, character by character. *)
Lemma isHexChar_alphabet (c : ascii) :
  isHexChar c = existsb (Ascii.eqb c) hexadecimal_alphabet.
Proof. destruct c as [[] [] [] [] [] [] [] []]; reflexivity. Qed.

Lemma isHexChar_In (c : ascii) : isHexChar c = true <-> In c hexadecimal_alphabet.
Proof.
  rewrite isHexChar_alphabet, existsb_exists. split.
  - intros (x & Hin & Heq). apply Ascii.eqb_eq in Heq. now subst.
  - intros Hin. exists c. split; [exact Hin | apply Ascii.eqb_refl].
Qed.

Lemma all_hexadecimal (cs : list ascii) :
  forallb isHexChar cs = true <-> Forall (fun c => In c hexadecimal_alphabet) cs.
Proof.
  rewrite forallb_forall, Forall_forall.
  split; intros H c Hc; apply isHexChar_In, H, Hc.
Qed.

(** X1: [isHex] accepts exactly the strings of even length whose characters
    are all among [0123456789abcdefABCDEF], the empty string included;
    [isHex64] and [isHex128] accept exactly the strings of 64 and of 128
    such characters. *)
Theorem isHex_characterised (value : string) :
  (isHex value = true
   <-> Nat.even (String.length value) = true
       /\ Forall (fun c => In c hexadecimal_alphabet) (list_ascii_of_string value))
  /\ (isHex64 value = true
      <-> String.length value = 64%nat
          /\ Forall (fun c => In c hexadecimal_alphabet) (list_ascii_of_string value))
  /\ (isHex128 value = true
      <-> String.length value = 128%nat
          /\ Forall (fun c => In c hexadecimal_alphabet) (list_ascii_of_string value)).
Proof.
  split; [|split].
  - rewrite isHex_spec, andb_true_iff, all_hexadecimal. reflexivity.
  - rewrite isHex64_spec. unfold hex_string.
    rewrite andb_true_iff, Nat.eqb_eq, all_hexadecimal. reflexivity.
  - rewrite isHex128_spec. unfold hex_string.
    rewrite andb_true_iff, Nat.eqb_eq, all_hexadecimal. reflexivity.
Qed.

Lemma isHexChar_hexdigit (n : Z) : 0 <= n < 16 -> isHexChar (hexdigit n) = true.
Proof.
  intros Hn. rewrite <- (Z2Nat.id n) by lia.
  assert (Hlt : (Z.to_nat n < 16)%nat) by lia.
  generalize dependent (Z.to_nat n). clear. intros k Hk.
  do 16 (destruct k as [|k]; [reflexivity|]). lia.
Qed.

Lemma hex_encode_chars (b : Buffer) :
  list_ascii_of_string (hex_encode b)
  = flat_map (fun x => [hexdigit ((x mod 256) / 16); hexdigit (x mod 16)]) b.
Proof. unfold hex_encode. apply list_ascii_of_string_of_list_ascii. Qed.

Lemma hex_encode_is_hex (b : Buffer) :
  hex_string (2 * List.length b) (hex_encode b) = true.
Proof.
  unfold hex_string. rewrite string_length_chars, hex_encode_chars.
  apply andb_true_intro. split.
  - apply Nat.eqb_eq. induction b as [|x b IH]; simpl; [reflexivity|].
    simpl in IH. rewrite IH. lia.
  - induction b as [|x b IH]; simpl; [reflexivity|].
    rewrite IH, !isHexChar_hexdigit; [reflexivity| |].
    + apply Z.mod_pos_bound. lia.
    + pose proof (Z.mod_pos_bound x 256 ltac:(lia)).
      split; [apply Z.div_pos; lia | apply Z.div_lt_upper_bound; lia].
Qed.

Lemma hex_encode_length (b : Buffer) :
  String.length (hex_encode b) = (2 * List.length b)%nat.
Proof.
  pose proof (hex_encode_is_hex b) as H. unfold hex_string in H.
  apply andb_prop in H. now apply Nat.eqb_eq.
Qed.

Lemma hex_encode_isHex (b : Buffer) : isHex (hex_encode b) = true.
Proof.
  pose proof (hex_encode_is_hex b) as H. unfold hex_string in H.
  apply andb_prop in H. destruct H as [_ Hall].
  rewrite isHex_spec, Hall, hex_encode_length, andb_true_r.
  apply Nat.even_spec. now exists (List.length b).
Qed.

(** [reader.hex(n)] never fails: it gives hexadecimal text of [2 n]
    characters when [n] bytes were left, and of fewer when not. *)
Lemma reader_hex_is_hex (n : nat) (r rest : Buffer) (s : string) :
  reader_hex n r = Ok (s, rest) ->
  hex_up_to (2 * n) s
  /\ ((n <= List.length r)%nat -> hex_string (2 * n) s = true)
  /\ rest = skipn n r.
Proof.
  unfold reader_hex. intros H. injection H as <- <-.
  split; [split|split; [|reflexivity]].
  - apply hex_encode_isHex.
  - rewrite hex_encode_length, length_firstn. lia.
  - intros Hn.
    assert (Hl : List.length (firstn n r) = n) by (rewrite length_firstn; lia).
    rewrite <- Hl at 1. apply hex_encode_is_hex.
Qed.

Lemma reader_hash_is_hex (r : Buffer) (p : string * Buffer) :
  reader_hash r = Ok p -> hex_up_to 64 (fst p).
Proof. destruct p as [s rest]. intros H. now apply reader_hex_is_hex in H. Qed.

Lemma hex_decode_chars_length (n : nat) (cs : list ascii) :
  List.length cs = (2 * n)%nat -> forallb isHexChar cs = true ->
  List.length (hex_decode_chars cs) = n.
Proof.
  revert cs; induction n as [|n IH]; intros cs Hlen Hall.
  - destruct cs; [reflexivity | discriminate].
  - destruct cs as [|a [|b cs]]; simpl in Hlen; try lia.
    simpl in Hall. apply andb_prop in Hall. destruct Hall as [Ha Hall].
    apply andb_prop in Hall. destruct Hall as [Hb Hall].
    cbn [hex_decode_chars]. rewrite Ha, Hb. cbn [andb List.length].
    rewrite IH; [reflexivity | lia | exact Hall].
Qed.

Lemma hex_decode_length (n : nat) (s : string) :
  hex_string (2 * n) s = true -> List.length (hex_decode s) = n.
Proof.
  unfold hex_string, hex_decode. intros H. apply andb_prop in H.
  destruct H as [Hlen Hall]. apply Nat.eqb_eq in Hlen.
  apply hex_decode_chars_length; [|exact Hall].
  now rewrite <- string_length_chars.
Qed.

Lemma hash_bytes (s : string) : isHex64 s = true -> List.length (hex_decode s) = 32%nat.
Proof. rewrite isHex64_spec. apply (hex_decode_length 32). Qed.

Lemma signature_bytes (s : string) :
  isHex128 s = true -> List.length (hex_decode s) = 64%nat.
Proof. rewrite isHex128_spec. apply (hex_decode_length 64). Qed.

Lemma uint_be_length (width : nat) (v : Z) : List.length (uint_be width v) = width.
Proof. induction width as [|w IH]; simpl; [reflexivity | now rewrite IH]. Qed.

(** ** The fields of a request *)

Lemma Writer_uint32_t_ok (value : Z) (writer : Buffer) :
  0 <= value <= 4294967295 ->
  Writer_uint32_t value writer = Ok (writer ++ uint32_be value).
Proof.
  intros H. unfold Writer_uint32_t.
  replace (value <? 0) with false by (symmetry; apply Z.ltb_ge; lia).
  replace (4294967295 <? value) with false by (symmetry; apply Z.ltb_ge; lia).
  reflexivity.
Qed.

Lemma Writer_uint32_t_written (value : Z) (writer written : Buffer) :
  Writer_uint32_t value writer = Ok written ->
  written = writer ++ uint32_be value /\ 0 <= value <= 4294967295.
Proof.
  unfold Writer_uint32_t. destruct (value <? 0) eqn:E1; [discriminate|].
  destruct (4294967295 <? value) eqn:E2; [discriminate|].
  apply Z.ltb_ge in E1, E2. cbn [orb]. intros H. injection H as <-. split; [reflexivity | lia].
Qed.

Lemma Writer_uint32_t_throws (value : Z) (writer : Buffer) :
  value < 0 \/ 4294967295 < value ->
  Writer_uint32_t value writer = Throw out_of_range.
Proof.
  intros H. unfold Writer_uint32_t.
  destruct (value <? 0) eqn:E1; [reflexivity|].
  destruct (4294967295 <? value) eqn:E2; [reflexivity|].
  apply Z.ltb_ge in E1, E2. lia.
Qed.

Lemma Writer_uint64_t_ok (value : Z) (writer : Buffer) :
  0 <= value <= 18446744073709551615 ->
  Writer_uint64_t value writer = Ok (writer ++ uint64_be value).
Proof.
  intros H. unfold Writer_uint64_t.
  replace (value <? 0) with false by (symmetry; apply Z.ltb_ge; lia).
  replace (18446744073709551615 <? value) with false by (symmetry; apply Z.ltb_ge; lia).
  reflexivity.
Qed.

Lemma Writer_uint64_t_written (value : Z) (writer written : Buffer) :
  Writer_uint64_t value writer = Ok written ->
  written = writer ++ uint64_be value /\ 0 <= value <= 18446744073709551615.
Proof.
  unfold Writer_uint64_t. destruct (value <? 0) eqn:E1; [discriminate|].
  destruct (18446744073709551615 <? value) eqn:E2; [discriminate|].
  apply Z.ltb_ge in E1, E2. cbn [orb]. intros H. injection H as <-. split; [reflexivity | lia].
Qed.

Lemma Writer_uint64_t_throws (value : Z) (writer : Buffer) :
  value < 0 \/ 18446744073709551615 < value ->
  Writer_uint64_t value writer = Throw out_of_range.
Proof.
  intros H. unfold Writer_uint64_t.
  destruct (value <? 0) eqn:E1; [reflexivity|].
  destruct (18446744073709551615 <? value) eqn:E2; [reflexivity|].
  apply Z.ltb_ge in E1, E2. lia.
Qed.



Lemma Writer_each_written (xs : list Z) (writer written : Buffer) :
  Writer_each Writer_uint32_t xs writer = Ok written ->
  written = writer ++ flat_map uint32_be xs
  /\ Forall (fun x => 0 <= x <= 4294967295) xs.
Proof.
  revert writer; induction xs as [|x xs IH]; intros writer H; cbn [Writer_each] in H.
  - injection H as <-. cbn [flat_map]. now rewrite app_nil_r.
  - destruct (Writer_uint32_t x writer) as [next|e] eqn:Ex; [|discriminate].
    apply Writer_uint32_t_written in Ex. destruct Ex as [-> Hx].
    apply IH in H. destruct H as [-> Hxs].
    split; [cbn [flat_map]; now rewrite <- app_assoc | now constructor].
Qed.

Lemma Writer_each_ok (xs : list Z) (writer : Buffer) :
  Forall (fun x => 0 <= x <= 4294967295) xs ->
  Writer_each Writer_uint32_t xs writer = Ok (writer ++ flat_map uint32_be xs).
Proof.
  intros H. revert writer; induction H as [|x xs Hx _ IH]; intros writer;
    cbn [Writer_each flat_map].
  - now rewrite app_nil_r.
  - rewrite Writer_uint32_t_ok by exact Hx. rewrite IH. now rewrite <- app_assoc.
Qed.

(** A field that throws ends the operation with nothing sent. *)
Lemma fails_bind_lift (Dev A B : Type) (r : Result A) (k : A -> M Dev B) :
  (forall a, r = Ok a -> fails_locally (k a)) -> fails_locally (bind (lift r) k).
Proof.
  intros H w. unfold bind, lift. destruct r as [a|e]; cbn [fst snd].
  - now apply H.
  - now exists e.
Qed.

(** ** Taking a successful run apart *)

Section Inversion.

Variable Dev : Type.

Lemma bind_ok (A B : Type) (m : M Dev A) (k : A -> M Dev B) (w w' : World Dev) (v : B) :
  bind m k w = (Ok v, w') ->
  exists a w1, m w = (Ok a, w1) /\ k a w1 = (Ok v, w').
Proof.
  unfold bind. destruct (m w) as [[a|e] w1]; [|discriminate].
  intros H. now exists a, w1.
Qed.

Lemma lift_ok (A : Type) (r : Result A) (w w' : World Dev) (v : A) :
  lift r w = (Ok v, w') -> r = Ok v /\ w' = w.
Proof. unfold lift. intros H. injection H as -> ->. now split. Qed.

Lemma ret_ok (A : Type) (a v : A) (w w' : World Dev) :
  ret a w = (Ok v, w') -> v = a /\ w' = w.
Proof. unfold ret. intros H. injection H as -> ->. now split. Qed.

End Inversion.

Ltac invert_ok :=
  repeat match goal with
  | H : bind _ _ _ = (Ok _, _) |- _ =>
      apply bind_ok in H; destruct H as (? & ? & ? & H)
  | H : lift _ _ = (Ok _, _) |- _ =>
      apply lift_ok in H; destruct H as [? ?]; subst
  | H : ret _ _ = (Ok _, _) |- _ =>
      apply ret_ok in H; destruct H as [H ?];
      try (injection H; clear H; intros); subst
  | H : throw _ _ = (Ok _, _) |- _ => discriminate H
  | H : (if ?c then _ else _) _ = (Ok _, _) |- _ => destruct c eqn:?
  end.

(** ** What the device hands back is well formed *)

Lemma read_signatures_are_hex (fuel : nat) (result : Buffer)
    (signatures out : list string) (k : nat) :
  LedgerDevice.read_signatures fuel result signatures = Ok out ->
  List.length result = (64 * k)%nat ->
  Forall (fun s => isHex128 s = true) signatures ->
  Forall (fun s => isHex128 s = true) out.
Proof.
  revert result signatures k; induction fuel as [|fuel IH]; intros r acc k H Hk Hacc;
    cbn [LedgerDevice.read_signatures] in H.
  - destruct (0 <? List.length r)%nat; now injection H as <-.
  - destruct (0 <? List.length r)%nat eqn:E0; [|now injection H as <-].
    apply Nat.ltb_lt in E0.
    destruct (reader_hex 64 r) as [[s rest]|e] eqn:Er; [|discriminate].
    apply reader_hex_is_hex in Er. destruct Er as (_ & Hfull & ->).
    destruct k as [|k]; [lia|].
    apply (IH _ _ k) in H; [exact H | rewrite length_skipn; lia|].
    apply Forall_app. split; [exact Hacc|]. constructor; [|constructor].
    rewrite isHex128_spec. apply Hfull. lia.
Qed.

Section Returned.

Variable Dev : Type.
Variable transport : Dev -> Buffer -> Result Buffer * Dev.

(** X2: what the operations return, whatever bytes the device answers with.
    The operations that check the length of the answer return full values:
    [generateSignature] a signature of 128 hexadecimal characters,
    [generateRingSignatures] as many signatures of 128 hexadecimal characters
    as there are input keys.  The others read without a check: a key is
    hexadecimal text of 64 characters at most, the signature of
    [completeRingSignature] of 128 at most, shorter when the answer is. *)
Theorem returned_values_are_hexadecimal :
  forall (w w' : World Dev),
    (forall confirm spendKey viewKey,
       getPublicKeys transport confirm w = (Ok (spendKey, viewKey), w') ->
       hex_up_to 64 spendKey /\ hex_up_to 64 viewKey)
    /\ (forall pub priv,
          getRandomKeyPair transport w = (Ok (pub, priv), w') ->
          hex_up_to 64 pub /\ hex_up_to 64 priv)
    /\ (forall confirm key,
          getPrivateViewKey transport confirm w = (Ok key, w')
          \/ LedgerDevice.getPrivateSpendKey transport confirm w = (Ok key, w') ->
          hex_up_to 64 key)
    /\ (forall private_key key,
          privateToPublic transport private_key w = (Ok key, w') ->
          hex_up_to 64 key)
    /\ (forall a index b confirm keyImage,
          generateKeyImage transport a index b confirm w = (Ok keyImage, w') ->
          hex_up_to 64 keyImage)
    /\ (forall a index confirm key,
          LedgerDevice.generateKeyDerivation transport a confirm w = (Ok key, w')
          \/ LedgerDevice.derivePublicKey transport a index confirm w = (Ok key, w')
          \/ LedgerDevice.deriveSecretKey transport a index confirm w = (Ok key, w') ->
          hex_up_to 64 key)
    /\ (forall digest confirm signature,
          generateSignature transport digest confirm w = (Ok signature, w') ->
          isHex128 signature = true)
    /\ (forall a index b k partial confirm signature,
          completeRingSignature transport a index b k partial confirm w
          = (Ok signature, w') ->
          hex_up_to 128 signature)
    /\ (forall a index b prefix keys real confirm signatures,
          LedgerDevice.generateRingSignatures transport a index b prefix keys real
            confirm w = (Ok signatures, w') ->
          List.length signatures = List.length keys
          /\ Forall (fun s => isHex128 s = true) signatures).
Proof.
  intros w w'.
  split; [|split; [|split; [|split; [|split; [|split; [|split; [|split]]]]]]].
  - intros confirm spendKey viewKey H. unfold getPublicKeys in H. invert_ok.
    match goal with
    | E1 : reader_hash _ = Ok _, E2 : reader_hash (snd _) = Ok _ |- _ =>
        apply reader_hash_is_hex in E1; apply reader_hash_is_hex in E2
    end.
    split; assumption.
  - intros pub priv H. unfold getRandomKeyPair in H. invert_ok.
    match goal with
    | E1 : reader_hash _ = Ok _, E2 : reader_hash (snd _) = Ok _ |- _ =>
        apply reader_hash_is_hex in E1; apply reader_hash_is_hex in E2
    end.
    split; assumption.
  - intros confirm key [H|H];
      [unfold getPrivateViewKey in H | unfold LedgerDevice.getPrivateSpendKey in H];
      invert_ok;
      match goal with E : reader_hash _ = Ok _ |- _ =>
        eapply reader_hash_is_hex; exact E end.
  - intros private_key key H. unfold privateToPublic in H. cbv zeta in H. invert_ok.
    match goal with E : reader_hash _ = Ok _ |- _ =>
      eapply reader_hash_is_hex; exact E end.
  - intros a index b confirm keyImage H. unfold generateKeyImage in H. cbv zeta in H.
    invert_ok.
    match goal with E : reader_hash _ = Ok _ |- _ =>
      eapply reader_hash_is_hex; exact E end.
  - intros a index confirm key [H|[H|H]];
      [unfold LedgerDevice.generateKeyDerivation in H
      |unfold LedgerDevice.derivePublicKey in H
      |unfold LedgerDevice.deriveSecretKey in H];
      cbv zeta in H; invert_ok;
      match goal with E : reader_hash _ = Ok _ |- _ =>
        eapply reader_hash_is_hex; exact E end.
  - intros digest confirm signature H. unfold generateSignature in H. cbv zeta in H.
    invert_ok.
    match goal with
    | E : reader_hex 64 _ = Ok ?p, L : negb (Nat.eqb (List.length _) 64) = false |- _ =>
        destruct p; cbn [fst]; apply reader_hex_is_hex in E;
        apply negb_false_iff, Nat.eqb_eq in L;
        rewrite isHex128_spec; apply E; rewrite L; apply le_n
    end.
  - intros a index b k partial confirm signature H.
    unfold completeRingSignature in H. cbv zeta in H. invert_ok.
    match goal with E : reader_hex 64 _ = Ok ?p |- _ =>
      destruct p; cbn [fst]; apply reader_hex_is_hex in E; apply E end.
  - intros a index b prefix keys real confirm signatures H.
    unfold LedgerDevice.generateRingSignatures in H. cbv zeta in H. invert_ok.
    split.
    + match goal with
      | E : negb (Nat.eqb (List.length _) (List.length keys)) = false |- _ =>
          apply negb_false_iff, Nat.eqb_eq in E; exact E
      end.
    + match goal with
      | E : negb (Nat.eqb (List.length ?r mod 64) 0) = false |- _ =>
          apply negb_false_iff, Nat.eqb_eq in E;
          apply Nat.Div0.div_exact in E;
          eapply read_signatures_are_hex; [eassumption | exact E | constructor]
      end.
Qed.

End Returned.

Lemma returned_values_witness :
  hex_up_to 64 (key_of 17) /\ hex_up_to 64 (key_of 34).
Proof.
  destruct (@returned_values_are_hexadecimal nat scripted_device builder_world
              (mkWorld [spec_request_frame 25 true []] O ready_session))
    as (_ & Hpair & _).
  apply (Hpair (key_of 17) (key_of 34)). vm_compute. reflexivity.
Defined.

(** A device that answers the request for the public keys with three bytes:
    the spend key returned has six characters and the view key none. *)
Example short_answer_gives_short_keys :
  fst (getPublicKeys (fun (d : unit) (_ : Buffer) => (Ok [1; 2; 3; 144; 0], d))
         None (mkWorld [] tt ready_session))
  = Ok ("010203"%string, EmptyString).
Proof. vm_compute. reflexivity. Qed.

(** ** The size of requests *)

Lemma spec_request_frame_length (ins : Z) (confirm : bool) (data : Buffer) :
  List.length (spec_request_frame ins confirm data) = (6 + List.length data)%nat.
Proof. unfold spec_request_frame. cbn [app List.length]. lia. Qed.

Section Limit.

Variable Dev : Type.
Variable transport : Dev -> Buffer -> Result Buffer * Dev.
Variable Config config : ConfigT.
Variable TransactionT : Type.
Variable Transaction_from : Buffer -> Result TransactionT.
Variable tx_hash : TransactionT -> Result string.
Variable tx_size : TransactionT -> Z.
Variable generateKeyDerivation : string -> string -> Result string.
Variable derivePublicKey : string -> Z -> string -> Result string.
Variable cn_fast_hash : string -> Result string.
Variable Address_fromPublicKeys : string -> string -> Result Address.
Variable BigInteger16 : string -> Result Z.
Variable Any : Type.
Variable JSON_stringify : Any -> string.

Lemma limit_silent (A : Type) (m : M Dev A) :
  (forall w, snd (m w) = w) -> within_transport_limit m.
Proof.
  intros H w. exists []. rewrite H, app_nil_r. split; [reflexivity | constructor].
Qed.

Lemma limit_ret (A : Type) (a : A) : within_transport_limit (ret (Dev:=Dev) a).
Proof. now apply limit_silent. Qed.

Lemma limit_throw (A : Type) (e : JsError) :
  within_transport_limit (throw (Dev:=Dev) (A:=A) e).
Proof. now apply limit_silent. Qed.

Lemma limit_lift (A : Type) (r : Result A) : within_transport_limit (lift (Dev:=Dev) r).
Proof. now apply limit_silent. Qed.

Lemma limit_bind (A B : Type) (m : M Dev A) (k : A -> M Dev B) :
  within_transport_limit m -> (forall a, within_transport_limit (k a)) ->
  within_transport_limit (bind m k).
Proof.
  intros Hm Hk w. unfold bind. destruct (Hm w) as (more1 & H1 & F1).
  destruct (m w) as [[a|e] w1]; cbn [snd] in H1.
  - destruct (Hk a w1) as (more2 & H2 & F2). exists (more1 ++ more2).
    split; [now rewrite H2, H1, app_assoc | now apply Forall_app].
  - now exists more1.
Qed.

Lemma limit_exchange (cmd : CMD) (confirm : option bool) (data : option Buffer) :
  within_transport_limit (exchange transport cmd confirm data).
Proof.
  intros w.
  destruct (Z_le_gt_dec (Z.of_nat (List.length (payload_of data))) (512 - 6)) as [Hle|Hgt].
  - eexists. split; [now apply exchange_sent|].
    constructor; [|constructor]. rewrite spec_request_frame_length. lia.
  - rewrite exchange_refuses_large by lia. exists []. cbn [snd].
    rewrite app_nil_r. split; [reflexivity | constructor].
Qed.

Lemma limit_for_each (A : Type) (f : A -> M Dev unit) (xs : list A) :
  (forall x, within_transport_limit (f x)) -> within_transport_limit (for_each f xs).
Proof.
  intros Hf. induction xs as [|x rest IH]; cbn [for_each].
  - apply limit_ret.
  - apply limit_bind; [apply Hf | intros _; exact IH].
Qed.

Lemma limit_try_finally (A : Type) (body : M Dev A) (fin : M Dev unit) :
  within_transport_limit body -> within_transport_limit fin ->
  within_transport_limit (try_finally body fin).
Proof.
  intros Hb Hf w. unfold try_finally. destruct (Hb w) as (more1 & H1 & F1).
  destruct (body w) as [r w1]. cbn [snd] in H1.
  destruct (Hf w1) as (more2 & H2 & F2).
  destruct (fin w1) as [[u|e] w2]; cbn [snd] in *; exists (more1 ++ more2);
    (split; [now rewrite H2, H1, app_assoc | now apply Forall_app]).
Qed.

Lemma limit_set_session (f : Session -> Session) :
  within_transport_limit (set_session (Dev:=Dev) f).
Proof.
  intros w. exists []. cbn. rewrite app_nil_r. split; [reflexivity | constructor].
Qed.

Lemma limit_get_session : within_transport_limit (get_session (Dev:=Dev)).
Proof. now apply limit_silent. Qed.

Create HintDb limit.
#[local] Hint Resolve limit_ret limit_throw limit_lift limit_exchange
  limit_set_session limit_get_session : limit.

Ltac limit_tac :=
  lazymatch goal with
  | |- within_transport_limit (bind _ _) =>
      apply limit_bind; [limit_tac | intros; limit_tac]
  | |- within_transport_limit (if ?c then _ else _) => destruct c; limit_tac
  | |- within_transport_limit (for_each _ _) =>
      apply limit_for_each; intros; limit_tac
  | |- within_transport_limit (try_finally _ _) =>
      apply limit_try_finally; limit_tac
  | |- _ => solve [auto with limit]
  end.

Lemma limit_retrieve_loop (settings : ConfigT) (fuel : nat) (response : Buffer) :
  within_transport_limit (retrieve_loop transport settings fuel response).
Proof.
  revert response; induction fuel as [|fuel IH]; intros response; cbn [retrieve_loop].
  - destruct (js_lt _ _); apply limit_ret.
  - destruct (js_lt _ _); [|apply limit_ret]. cbv zeta.
    apply limit_bind; [apply limit_lift|]. intros writer.
    apply limit_bind; [apply limit_exchange|].
    intros result. destruct (Nat.eqb (List.length result) 0); [apply limit_ret | apply IH].
Qed.

#[local] Hint Resolve limit_retrieve_loop : limit.

(** X3: no build, signature, key fetch or ring operation ever hands the
    transport a request longer than 512 bytes or shorter than the six bytes
    of the header, whatever its arguments and whatever the device answers. *)
Theorem requests_stay_within_the_transport_limit :
  (forall outputs inputs randomOutputs mixin feeAmount pid unlockTime extraData,
     within_transport_limit
       (createTransaction transport Config config Transaction_from tx_hash tx_size
          generateKeyDerivation derivePublicKey BigInteger16
          outputs inputs randomOutputs mixin feeAmount pid unlockTime extraData))
  /\ (forall (message : string + Any) privateKey,
        within_transport_limit
          (signMessage transport cn_fast_hash JSON_stringify message privateKey))
  /\ within_transport_limit (fetchKeys transport Address_fromPublicKeys)
  /\ (forall a index b prefix keys real confirm,
        within_transport_limit
          (LedgerDevice.generateRingSignatures transport a index b prefix keys real confirm))
  /\ (forall prefix keyImage keys signatures,
        within_transport_limit
          (LedgerDevice.checkRingSignatures transport prefix keyImage keys signatures)).
Proof.
  repeat apply conj.
  - intros. unfold createTransaction, before_try, prepare_lists, getRandomKeyPair,
      resetTransaction, try_body, startTransaction, expect_state, transactionState,
      startTransactionInputLoad, load_input, loadTransactionInput,
      startTransactionOutputLoad, loadTransactionOutput, finalizeTransactionPrefix,
      signTransaction, retrieveTransaction.
    cbv zeta. limit_tac.
  - intros. unfold signMessage, generateSignature. cbv zeta. limit_tac.
  - unfold fetchKeys, getPublicKeys, getPrivateViewKey. limit_tac.
  - intros. unfold LedgerDevice.generateRingSignatures. cbv zeta. limit_tac.
  - intros. unfold LedgerDevice.checkRingSignatures. cbv zeta. limit_tac.
Qed.

End Limit.

(** ** Rings the frame has room for *)

Lemma write_hashes_length (keys : list string) (writer : Buffer) :
  forallb isHex64 keys = true ->
  List.length (fold_left (fun wr key => wr ++ hex_decode key) keys writer)
  = (List.length writer + 32 * List.length keys)%nat.
Proof.
  revert writer; induction keys as [|k keys IH]; intros writer H; cbn [fold_left].
  - simpl. lia.
  - simpl in H. apply andb_prop in H. destruct H as [Hk H].
    rewrite IH by exact H. rewrite length_app, (hash_bytes _ Hk). simpl. lia.
Qed.

Lemma write_signatures_length (signatures : list string) (writer : Buffer) :
  forallb isHex128 signatures = true ->
  List.length (fold_left (fun wr sig => wr ++ hex_decode sig) signatures writer)
  = (List.length writer + 64 * List.length signatures)%nat.
Proof.
  revert writer; induction signatures as [|s sigs IH]; intros writer H; cbn [fold_left].
  - simpl. lia.
  - simpl in H. apply andb_prop in H. destruct H as [Hs H].
    rewrite IH by exact H. rewrite length_app, (signature_bytes _ Hs). simpl. lia.
Qed.

Lemma bind_silent_tail (Dev A B : Type) (m : M Dev A) (k : A -> M Dev B) (w : World Dev) :
  (forall a w1, snd (k a w1) = w1) -> snd (bind m k w) = snd (m w).
Proof.
  intros Hk. unfold bind. destruct (m w) as [[a|e] w1]; [apply Hk | reflexivity].
Qed.

Ltac silent_tac :=
  intros; unfold bind, lift, throw, ret;
  repeat match goal with
         | |- context [if ?c then _ else _] => destruct c
         | |- context [match ?r with Ok _ => _ | Throw _ => _ end] => destruct r
         end;
  reflexivity.

(** A field that was written: the run goes on with the new bytes. *)
Ltac written_field :=
  unfold bind at 1; unfold lift at 1; cbn [fst snd].

Section Rings.

Variable Dev : Type.
Variable transport : Dev -> Buffer -> Result Buffer * Dev.

(** X4: [generateRingSignatures] reaches the device only with one to twelve
    input keys and two indexes of 32 bits: with no key it throws at once,
    with thirteen or more the data outgrow the frame, and with an index
    above [2 ^ 32 - 1] the field is refused, so the call throws and nothing
    is sent; with valid arguments, up to twelve keys and indexes in range
    one request of [110 + 32 n] bytes goes out. *)
Theorem generateRingSignatures_ring_bound :
  forall (a : string) (index : Z) (b prefix : string) (keys : list string)
         (real : Z) (confirm : option bool),
    ((List.length keys = 0 \/ 12 < List.length keys)%nat
     \/ 4294967295 < index \/ 4294967295 < real ->
     fails_locally
       (LedgerDevice.generateRingSignatures transport a index b prefix keys real confirm))
    /\ (isHex64 a = true -> 0 <= index <= 4294967295 ->
        isHex64 b = true -> isHex64 prefix = true ->
        0 <= real <= 4294967295 -> forallb isHex64 keys = true ->
        (1 <= List.length keys <= 12)%nat ->
        forall w, exists request,
          sent (snd (LedgerDevice.generateRingSignatures transport a index b prefix
                       keys real confirm w))
          = sent w ++ [request]
          /\ List.length request = (110 + 32 * List.length keys)%nat
          /\ ins_of request = 80).
Proof.
  intros a index b prefix keys real confirm.
  assert (Hdata : isHex64 a = true -> isHex64 b = true -> isHex64 prefix = true ->
                  forallb isHex64 keys = true ->
                  List.length
                    (fold_left (fun wr input => wr ++ hex_decode input) keys
                       (((([] ++ hex_decode a) ++ uint32_be index) ++ hex_decode b)
                          ++ hex_decode prefix)
                     ++ uint32_be real)
                  = (104 + 32 * List.length keys)%nat).
  { intros Ha Hb Hp Hk. rewrite length_app, write_hashes_length by exact Hk.
    rewrite !length_app, (hash_bytes _ Ha), (hash_bytes _ Hb), (hash_bytes _ Hp).
    unfold uint32_be. rewrite !uint_be_length. simpl. lia. }
  split.
  - intros Hn. unfold LedgerDevice.generateRingSignatures. cbv zeta.
    destruct (isHex64 a) eqn:Ha; cbn [negb]; [|local_failure].
    destruct (index <? 0); [local_failure|].
    destruct (isHex64 b) eqn:Hb; cbn [negb]; [|local_failure].
    destruct (isHex64 prefix) eqn:Hp; cbn [negb]; [|local_failure].
    destruct (real <? 0); [local_failure|].
    destruct (Nat.eqb (List.length keys) 0) eqn:E0; [local_failure|].
    apply Nat.eqb_neq in E0.
    destruct (forallb isHex64 keys) eqn:Hk; cbn [negb]; [|local_failure].
    apply fails_bind_lift. intros writer1 H1.
    apply Writer_uint32_t_written in H1. destruct H1 as [-> Hi].
    apply fails_bind_lift. intros writer2 H2.
    apply Writer_uint32_t_written in H2. destruct H2 as [-> Hr].
    intros w. unfold bind. rewrite exchange_refuses_large.
    + eexists. reflexivity.
    + cbn [payload_of]. rewrite Hdata by reflexivity. lia.
  - intros Ha Hi Hb Hp Hr Hk Hn w.
    unfold LedgerDevice.generateRingSignatures. cbv zeta.
    rewrite Ha, Hb, Hp, Hk. cbn [negb].
    replace (index <? 0) with false by (symmetry; apply Z.ltb_ge; lia).
    replace (real <? 0) with false by (symmetry; apply Z.ltb_ge; lia).
    destruct (Nat.eqb (List.length keys) 0) eqn:E0; [apply Nat.eqb_eq in E0; lia|].
    specialize (Hdata Ha Hb Hp Hk).
    rewrite Writer_uint32_t_ok by exact Hi. written_field.
    rewrite Writer_uint32_t_ok by exact Hr. written_field.
    rewrite bind_silent_tail by silent_tac.
    rewrite exchange_sent by (cbn [payload_of]; rewrite Hdata; lia).
    eexists. split; [reflexivity|]. split; [|reflexivity].
    rewrite spec_request_frame_length. cbn [payload_of]. rewrite Hdata. lia.
Qed.

(** X5: [checkRingSignatures] reaches the device only with one to four ring
    members: every member costs 96 bytes, so five or more outgrow the frame
    and the call throws with nothing sent, as it does when the keys and the
    signatures differ in number; with valid arguments one request of
    [70 + 96 n] bytes goes out. *)
Theorem checkRingSignatures_ring_bound :
  forall (prefix keyImage : string) (keys signatures : list string),
    ((List.length keys = 0 \/ 4 < List.length keys
      \/ List.length keys <> List.length signatures)%nat ->
     fails_locally (LedgerDevice.checkRingSignatures transport prefix keyImage keys signatures))
    /\ (isHex64 prefix = true -> isHex64 keyImage = true ->
        forallb isHex64 keys = true -> forallb isHex128 signatures = true ->
        List.length keys = List.length signatures ->
        (1 <= List.length keys <= 4)%nat ->
        forall w, exists request,
          sent (snd (LedgerDevice.checkRingSignatures transport prefix keyImage keys
                       signatures w))
          = sent w ++ [request]
          /\ List.length request = (70 + 96 * List.length keys)%nat
          /\ ins_of request = 82).
Proof.
  intros prefix keyImage keys signatures.
  assert (Hdata : isHex64 prefix = true -> isHex64 keyImage = true ->
                  forallb isHex64 keys = true -> forallb isHex128 signatures = true ->
                  List.length
                    (fold_left (fun wr sig => wr ++ hex_decode sig) signatures
                       (fold_left (fun wr key => wr ++ hex_decode key) keys
                          (([] ++ hex_decode prefix) ++ hex_decode keyImage)))
                  = (64 + 32 * List.length keys + 64 * List.length signatures)%nat).
  { intros Hp Hi Hk Hs. rewrite write_signatures_length by exact Hs.
    rewrite write_hashes_length by exact Hk.
    rewrite !length_app, (hash_bytes _ Hp), (hash_bytes _ Hi). simpl. lia. }
  split.
  - intros Hn. unfold LedgerDevice.checkRingSignatures. cbv zeta.
    destruct (isHex64 prefix) eqn:Hp; cbn [negb]; [|local_failure].
    destruct (isHex64 keyImage) eqn:Hi; cbn [negb]; [|local_failure].
    destruct (Nat.eqb (List.length keys) 0) eqn:E0; [local_failure|].
    apply Nat.eqb_neq in E0.
    destruct (Nat.eqb (List.length signatures) 0); [local_failure|].
    destruct (Nat.eqb (List.length keys) (List.length signatures)) eqn:En; cbn [negb];
      [|local_failure].
    apply Nat.eqb_eq in En.
    destruct (forallb isHex64 keys) eqn:Hk; cbn [negb]; [|local_failure].
    destruct (forallb isHex128 signatures) eqn:Hs; cbn [negb]; [|local_failure].
    intros w. unfold bind. rewrite exchange_refuses_large.
    + eexists. reflexivity.
    + cbn [payload_of]. rewrite Hdata by reflexivity. lia.
  - intros Hp Hi Hk Hs Hlen Hn w.
    unfold LedgerDevice.checkRingSignatures. cbv zeta.
    rewrite Hp, Hi, Hk, Hs. cbn [negb].
    destruct (Nat.eqb (List.length keys) 0) eqn:E0; [apply Nat.eqb_eq in E0; lia|].
    destruct (Nat.eqb (List.length signatures) 0) eqn:E1; [apply Nat.eqb_eq in E1; lia|].
    specialize (Hdata Hp Hi Hk Hs).
    rewrite <- Hlen in *. rewrite Nat.eqb_refl. cbn [negb].
    rewrite bind_silent_tail by silent_tac.
    rewrite exchange_sent by (cbn [payload_of]; rewrite Hdata; lia).
    eexists. split; [reflexivity|]. split; [|reflexivity].
    rewrite spec_request_frame_length. cbn [payload_of]. rewrite Hdata. lia.
Qed.

End Rings.

(** ** The transaction commands *)

Ltac fails_through_checks :=
  repeat match goal with
         | |- fails_locally (if ?c then throw _ else _) =>
             destruct c eqn:?; [local_failure|]
         end.

Section TransactionCommands.

Variable Dev : Type.
Variable transport : Dev -> Buffer -> Result Buffer * Dev.
Variable Config : ConfigT.

(** X6: the three commands that carry the transaction to the device check
    their arguments before anything is sent: counts outside 0..90, an output
    index outside 0..255, an amount that is negative or above the configured
    bound, a ring that is not four keys and four offsets, an offset outside
    32 bits, a real index outside 0..3 and any key that is not 64
    hexadecimal characters make the call throw with nothing sent. *)
Theorem transaction_commands_validate_locally :
  (forall unlock inputCount outputCount key pid,
     inputCount < 0 \/ 90 < inputCount \/ outputCount < 0 \/ 90 < outputCount
     \/ hex_string 64 key = false
     \/ (exists p, pid = Some p /\ String.length p <> 0%nat /\ hex_string 64 p = false) ->
     fails_locally (startTransaction transport unlock inputCount outputCount key pid))
  /\ (forall key index amount keys offsets real,
        hex_string 64 key = false \/ index < 0 \/ 255 < index \/ amount < 0
        \/ js_gt amount (maximumOutputAmount Config) = true
        \/ List.length keys <> 4%nat \/ forallb (hex_string 64) keys = false
        \/ List.length offsets <> 4%nat
        \/ Exists (fun offset => offset < 0 \/ 4294967295 < offset) offsets
        \/ real < 0 \/ 3 < real ->
        fails_locally (loadTransactionInput transport Config key index amount keys
                         offsets real))
  /\ (forall amount key,
        amount < 0 \/ js_gt amount (maximumOutputAmount Config) = true
        \/ hex_string 64 key = false ->
        fails_locally (loadTransactionOutput transport Config amount key)).
Proof.
  repeat apply conj.
  - intros unlock ic oc key pid H. unfold startTransaction. fails_through_checks.
    exfalso.
    repeat match goal with
           | E : (_ || _) = false |- _ => apply orb_false_elim in E; destruct E
           | E : (_ <? _) = false |- _ => apply Z.ltb_ge in E
           | E : negb _ = false |- _ => apply negb_false_iff in E
           end.
    rewrite ?isHex64_spec in *.
    destruct H as [H|[H|[H|[H|[H|(p & -> & Hp & Hbad)]]]]]; try lia; try congruence.
    match goal with E : (truthy (Some p) && _) = false |- _ =>
      unfold truthy in E; apply Nat.eqb_neq in Hp; rewrite Hp in E;
      cbn [negb andb] in E; apply negb_false_iff in E
    end.
    congruence.
  - intros key index amount keys offsets real H. unfold loadTransactionInput.
    fails_through_checks. exfalso.
    repeat match goal with
           | E : (_ || _) = false |- _ => apply orb_false_elim in E; destruct E
           | E : (_ <? _) = false |- _ => apply Z.ltb_ge in E
           | E : negb _ = false |- _ => apply negb_false_iff in E
           | E : Nat.eqb _ _ = true |- _ => apply Nat.eqb_eq in E
           end.
    rewrite isHex64_spec in *.
    assert (Hkeys : forallb (hex_string 64) keys = forallb isHex64 keys)
      by (clear; induction keys as [|k keys IH]; simpl;
          [reflexivity | now rewrite IH, isHex64_spec]).
    assert (Hoff : ~ Exists (fun offset => offset < 0 \/ 4294967295 < offset) offsets).
    { intros Hex. apply Exists_exists in Hex. destruct Hex as (offset & Hin & Hbad).
      match goal with E : forallb _ offsets = true |- _ =>
        rewrite forallb_forall in E; specialize (E offset Hin);
        apply negb_true_iff, orb_false_elim in E; destruct E as [E1 E2];
        apply Z.ltb_ge in E1, E2 end.
      lia. }
    destruct H as [H|[H|[H|[H|[H|[H|[H|[H|[H|[H|H]]]]]]]]]];
      try lia; try congruence; try contradiction.
  - intros amount key H. unfold loadTransactionOutput. fails_through_checks. exfalso.
    repeat match goal with
           | E : (_ || _) = false |- _ => apply orb_false_elim in E; destruct E
           | E : (_ <? _) = false |- _ => apply Z.ltb_ge in E
           | E : negb _ = false |- _ => apply negb_false_iff in E
           end.
    rewrite isHex64_spec in *. destruct H as [H|[H|H]]; try lia; congruence.
Qed.

Lemma sends_one (cmd : CMD) (confirm : option bool) (data : Buffer) (n : nat)
    (A : Type) (k : Buffer -> M Dev A) (w : World Dev) :
  List.length data = n -> (n <= 506)%nat ->
  (forall a w1, snd (k a w1) = w1) ->
  exists request,
    sent (snd (bind (exchange transport cmd confirm (Some data)) k w)) = sent w ++ [request]
    /\ List.length request = (6 + n)%nat
    /\ ins_of request = cmd_code cmd.
Proof.
  intros Hn Hle Hk. rewrite bind_silent_tail by exact Hk.
  rewrite exchange_sent by (cbn [payload_of]; lia).
  eexists. split; [reflexivity|]. split; [|reflexivity].
  rewrite spec_request_frame_length. cbn [payload_of]. lia.
Qed.

(** X7: with valid arguments, the unlock time and the amounts within 64
    bits, each of the three commands hands over exactly one request of a
    fixed size: 49 bytes for [TX_START] without a payment id and 81 with
    one, 192 for [TX_LOAD_INPUT], 46 for [TX_LOAD_OUTPUT]; the size limit of
    the frame is never in their way.  An unlock time or an amount above
    [2 ^ 64 - 1] is refused by the field of 64 bits: the command throws and
    nothing is sent. *)
Theorem transaction_commands_have_fixed_sizes :
  (forall unlock inputCount outputCount key pid,
     0 <= unlock <= 18446744073709551615 ->
     0 <= inputCount <= 90 -> 0 <= outputCount <= 90 -> isHex64 key = true ->
     (truthy pid = true -> exists p, pid = Some p /\ isHex64 p = true) ->
     forall w, exists request,
       sent (snd (startTransaction transport unlock inputCount outputCount key pid w))
       = sent w ++ [request]
       /\ List.length request = (if truthy pid then 81 else 49)%nat
       /\ ins_of request = 113)
  /\ (forall key index amount keys offsets real,
        isHex64 key = true -> 0 <= index <= 255 ->
        0 <= amount <= 18446744073709551615 ->
        js_gt amount (maximumOutputAmount Config) = false ->
        List.length keys = 4%nat -> forallb isHex64 keys = true ->
        List.length offsets = 4%nat ->
        Forall (fun offset => 0 <= offset <= 4294967295) offsets ->
        0 <= real <= 3 ->
        forall w, exists request,
          sent (snd (loadTransactionInput transport Config key index amount keys
                       offsets real w))
          = sent w ++ [request]
          /\ List.length request = 192%nat
          /\ ins_of request = 115)
  /\ (forall amount key,
        0 <= amount <= 18446744073709551615 ->
        js_gt amount (maximumOutputAmount Config) = false ->
        isHex64 key = true ->
        forall w, exists request,
          sent (snd (loadTransactionOutput transport Config amount key w))
          = sent w ++ [request]
          /\ List.length request = 46%nat
          /\ ins_of request = 117)
  /\ (forall unlock inputCount outputCount key pid,
        18446744073709551615 < unlock ->
        fails_locally (startTransaction transport unlock inputCount outputCount key pid))
  /\ (forall key index amount keys offsets real,
        18446744073709551615 < amount ->
        fails_locally (loadTransactionInput transport Config key index amount keys
                         offsets real))
  /\ (forall amount key,
        18446744073709551615 < amount ->
        fails_locally (loadTransactionOutput transport Config amount key)).
Proof.
  split; [|split; [|split; [|split; [|split]]]].
  - intros unlock ic oc key pid Hunlock Hic Hoc Hkey Hpid w. unfold startTransaction.
    replace ((90 <? ic) || (ic <? 0)) with false
      by (symmetry; apply orb_false_intro; apply Z.ltb_ge; lia).
    replace ((90 <? oc) || (oc <? 0)) with false
      by (symmetry; apply orb_false_intro; apply Z.ltb_ge; lia).
    rewrite Hkey. cbn [negb]. cbv zeta.
    destruct (truthy pid) eqn:Et.
    + destruct (Hpid eq_refl) as (p & -> & Hp). rewrite Hp. cbn [negb andb].
      cbv beta iota.
      rewrite Writer_uint64_t_ok by exact Hunlock. written_field.
      apply (@sends_one TX_START None _ 75); [|lia|silent_tac].
      rewrite !length_app, (hash_bytes _ Hkey), (hash_bytes _ Hp).
      unfold uint64_be. rewrite uint_be_length. reflexivity.
    + cbn [andb].
      destruct pid as [p|]; cbv beta iota;
        rewrite Writer_uint64_t_ok by exact Hunlock; written_field;
        (apply (@sends_one TX_START None _ 43); [|lia|silent_tac]);
        rewrite !length_app, (hash_bytes _ Hkey);
        unfold uint64_be; rewrite uint_be_length; reflexivity.
  - intros key index amount keys offsets real Hkey Hindex Hamount Hmax Hkl Hkeys Hol
      Hoffsets Hreal w.
    unfold loadTransactionInput. rewrite Hkey, Hmax, Hkl, Hkeys, Hol. cbn [negb].
    replace ((255 <? index) || (index <? 0)) with false
      by (symmetry; apply orb_false_intro; apply Z.ltb_ge; lia).
    replace (amount <? 0) with false by (symmetry; apply Z.ltb_ge; lia).
    replace ((3 <? real) || (real <? 0)) with false
      by (symmetry; apply orb_false_intro; apply Z.ltb_ge; lia).
    assert (Hf : forallb (fun offset => negb ((offset <? 0) || (4294967295 <? offset)))
                   offsets = true).
    { apply forallb_forall. intros o Ho. rewrite Forall_forall in Hoffsets.
      specialize (Hoffsets o Ho). apply negb_true_iff, orb_false_intro; apply Z.ltb_ge; lia. }
    rewrite Hf. cbn [negb orb Nat.eqb]. cbv zeta.
    rewrite Writer_uint64_t_ok by exact Hamount. written_field.
    rewrite Writer_each_ok by exact Hoffsets. written_field.
    apply (@sends_one TX_LOAD_INPUT None _ 186); [|lia|silent_tac].
    rewrite !length_app.
    assert (Ho : forall l, List.length (flat_map uint32_be l) = (4 * List.length l)%nat).
    { clear. induction l as [|o l IH]; cbn [flat_map List.length]; [lia|].
      rewrite length_app, IH. unfold uint32_be. rewrite uint_be_length. lia. }
    rewrite Ho, write_hashes_length by exact Hkeys.
    rewrite !length_app, (hash_bytes _ Hkey), Hkl, Hol.
    unfold uint64_be. rewrite uint_be_length. reflexivity.
  - intros amount key Hamount Hmax Hkey w. unfold loadTransactionOutput.
    rewrite Hmax, Hkey. cbn [negb].
    replace (amount <? 0) with false by (symmetry; apply Z.ltb_ge; lia).
    cbn [orb]. cbv zeta.
    rewrite Writer_uint64_t_ok by exact Hamount. written_field.
    apply (@sends_one TX_LOAD_OUTPUT None _ 40); [|lia|silent_tac].
    rewrite !length_app, (hash_bytes _ Hkey). unfold uint64_be.
    rewrite uint_be_length. reflexivity.
  - intros unlock ic oc key pid Hbig. unfold startTransaction. fails_through_checks.
    cbv zeta. apply fails_bind_lift. intros writer Hw.
    apply Writer_uint64_t_written in Hw. lia.
  - intros key index amount keys offsets real Hbig. unfold loadTransactionInput.
    fails_through_checks. cbv zeta. apply fails_bind_lift. intros writer Hw.
    apply Writer_uint64_t_written in Hw. lia.
  - intros amount key Hbig. unfold loadTransactionOutput. fails_through_checks.
    cbv zeta. apply fails_bind_lift. intros writer Hw.
    apply Writer_uint64_t_written in Hw. lia.
Qed.

End TransactionCommands.

(** ** The order of requests in a build *)

Section Order.

Variable Dev : Type.
Variable transport : Dev -> Buffer -> Result Buffer * Dev.
Variable Config config : ConfigT.
Variable TransactionT : Type.
Variable Transaction_from : Buffer -> Result TransactionT.
Variable tx_hash : TransactionT -> Result string.
Variable tx_size : TransactionT -> Z.
Variable generateKeyDerivation : string -> string -> Result string.
Variable derivePublicKey : string -> Z -> string -> Result string.
Variable BigInteger16 : string -> Result Z.

Lemma exchange_ok_sent (cmd : CMD) (confirm : option bool) (data : option Buffer)
    (w w' : World Dev) (body : Buffer) :
  exchange transport cmd confirm data w = (Ok body, w') ->
  sent w' = sent w ++ [spec_request_frame (cmd_code cmd) (confirm_of confirm) (payload_of data)].
Proof.
  intros H.
  destruct (Z_le_gt_dec (Z.of_nat (List.length (payload_of data))) (512 - 6)) as [Hle|Hgt].
  - rewrite <- (exchange_sent transport cmd confirm data w Hle). now rewrite H.
  - rewrite exchange_refuses_large in H by lia. discriminate.
Qed.

Lemma sends_exchange (cmd : CMD) (confirm : option bool) (data : option Buffer) :
  sends (exchange transport cmd confirm data) (eq [cmd_code cmd]).
Proof.
  intros w body w' H. apply exchange_ok_sent in H. eexists. split; [exact H|].
  reflexivity.
Qed.

Lemma sends_ret (A : Type) (a : A) : sends (ret (Dev:=Dev) a) (eq []).
Proof.
  intros w v w' H. apply ret_ok in H. destruct H as [_ ->]. exists [].
  now rewrite app_nil_r.
Qed.

Lemma sends_lift (A : Type) (r : Result A) : sends (lift (Dev:=Dev) r) (eq []).
Proof.
  intros w v w' H. apply lift_ok in H. destruct H as [_ ->]. exists [].
  now rewrite app_nil_r.
Qed.

Lemma sends_throw (A : Type) (e : JsError) (S : list Z -> Prop) :
  sends (throw (Dev:=Dev) (A:=A) e) S.
Proof. intros w v w' H. discriminate H. Qed.

Lemma sends_bind (A B : Type) (m : M Dev A) (k : A -> M Dev B)
    (S1 S2 : list Z -> Prop) :
  sends m S1 -> (forall a, sends (k a) S2) ->
  sends (bind m k) (fun l => exists l1 l2, l = l1 ++ l2 /\ S1 l1 /\ S2 l2).
Proof.
  intros Hm Hk w v w' H. apply bind_ok in H. destruct H as (a & w1 & H1 & H2).
  apply Hm in H1. destruct H1 as (r1 & E1 & P1).
  apply Hk in H2. destruct H2 as (r2 & E2 & P2).
  exists (r1 ++ r2). split; [now rewrite E2, E1, app_assoc|].
  exists (map ins_of r1), (map ins_of r2). now rewrite map_app.
Qed.

Lemma sends_weaken (A : Type) (m : M Dev A) (S S' : list Z -> Prop) :
  sends m S -> (forall l, S l -> S' l) -> sends m S'.
Proof.
  intros Hm HS w v w' H. apply Hm in H. destruct H as (r & E & P).
  exists r. split; [exact E | now apply HS].
Qed.

Lemma sends_bind_eq (A B : Type) (m : M Dev A) (k : A -> M Dev B) (l1 l2 : list Z) :
  sends m (eq l1) -> (forall a, sends (k a) (eq l2)) -> sends (bind m k) (eq (l1 ++ l2)).
Proof.
  intros Hm Hk. eapply sends_weaken; [apply (@sends_bind _ _ m k _ _ Hm Hk)|].
  intros l (a & b & E & E1 & E2). now subst.
Qed.

Lemma sends_bind_dumps (A B : Type) (m : M Dev A) (k : A -> M Dev B) (l1 l2 : list Z) :
  sends m (eq l1) -> (forall a, sends (k a) (then_dumps l2)) ->
  sends (bind m k) (then_dumps (l1 ++ l2)).
Proof.
  intros Hm Hk. eapply sends_weaken; [apply (@sends_bind _ _ m k _ _ Hm Hk)|].
  intros l (a & b & E & E1 & (n & E2)). subst. exists n. now rewrite app_assoc.
Qed.

Lemma sends_dumps_bind (A B : Type) (m : M Dev A) (k : A -> M Dev B) (l1 : list Z) :
  sends m (then_dumps l1) -> (forall a, sends (k a) (eq [])) ->
  sends (bind m k) (then_dumps l1).
Proof.
  intros Hm Hk. eapply sends_weaken; [apply (@sends_bind _ _ m k _ _ Hm Hk)|].
  intros l (a & b & E & (n & E1) & E2). subst. exists n. now rewrite app_nil_r.
Qed.

Lemma sends_for_each (A : Type) (f : A -> M Dev unit) (xs : list A) (c : Z) :
  (forall x, sends (f x) (eq [c])) ->
  sends (for_each f xs) (eq (repeat c (List.length xs))).
Proof.
  intros Hf. induction xs as [|x rest IH]; cbn [for_each List.length repeat].
  - apply sends_ret.
  - change (c :: repeat c (List.length rest)) with ([c] ++ repeat c (List.length rest)).
    apply sends_bind_eq; [apply Hf | intros _; exact IH].
Qed.

Lemma repeat_snoc (c : Z) (n : nat) : repeat c n ++ [c] = c :: repeat c n.
Proof. induction n as [|n IH]; simpl; [reflexivity | now rewrite IH]. Qed.

Lemma sends_no_dumps (A : Type) (m : M Dev A) :
  sends m (eq []) -> sends m (then_dumps []).
Proof.
  intros H. eapply sends_weaken; [exact H|]. intros l E. subst. now exists O.
Qed.

Lemma sends_retrieve_loop (settings : ConfigT) (fuel : nat) (response : Buffer) :
  sends (retrieve_loop transport settings fuel response) (then_dumps []).
Proof.
  revert response; induction fuel as [|fuel IH]; intros response; cbn [retrieve_loop].
  - apply sends_no_dumps. destruct (js_lt _ _); apply sends_ret.
  - destruct (js_lt _ _); [|apply sends_no_dumps, sends_ret].
    cbv zeta.
    assert (Hk : forall result : Buffer,
      sends (if Nat.eqb (List.length result) 0 then ret (Dev:=Dev) response
             else retrieve_loop transport settings fuel (response ++ result))
        (then_dumps [])).
    { intros result. destruct (Nat.eqb _ _); [apply sends_no_dumps, sends_ret | apply IH]. }
    eapply sends_weaken;
      [eapply sends_bind;
         [apply sends_lift
         |intros writer; eapply sends_bind; [apply sends_exchange | exact Hk]]|].
    intros l (a0 & b0 & E0 & <- & a & b & E & E1 & (n & E2)). subst.
    exists (S n). reflexivity.
Qed.

Lemma sends_eq (A : Type) (m : M Dev A) (l l' : list Z) :
  sends m (eq l') -> l' = l -> sends m (eq l).
Proof. intros H E. now subst. Qed.

Ltac sends_steps :=
  lazymatch goal with
  | |- sends (bind _ _) _ => eapply sends_bind_eq; [sends_steps | intros; sends_steps]
  | |- sends (if ?c then _ else _) _ => destruct c; sends_steps
  | |- sends (match ?c with Some _ => _ | None => _ end) _ => destruct c; sends_steps
  | |- sends (for_each _ _) _ => eapply sends_for_each; intros; sends_steps
  | |- sends (exchange _ _ _ _) _ => apply sends_exchange
  | |- sends (ret _) _ => apply sends_ret
  | |- sends (lift _) _ => apply sends_lift
  | |- sends (throw _) _ => apply sends_throw
  end.

Ltac sends_tac := eapply sends_eq; [sends_steps | reflexivity].

Lemma sends_expect_state (expected : Z) (message : string) :
  sends (expect_state transport expected message) (eq [112]).
Proof. unfold expect_state, transactionState. sends_tac. Qed.

Lemma sends_load_input (input : PreparedInput) :
  sends (load_input transport Config config input) (eq [115]).
Proof. unfold load_input, loadTransactionInput. cbv zeta. sends_tac. Qed.

Lemma sends_load_output (output : PreparedOutput) :
  sends (loadTransactionOutput transport (this_config Config config)
           (po_amount output) (po_key output))
    (eq [117]).
Proof. unfold loadTransactionOutput. cbv zeta. sends_tac. Qed.

Lemma sends_startTransaction (unlock ic oc : Z) (key : string) (pid : option string) :
  sends (startTransaction transport unlock ic oc key pid) (eq [113]).
Proof. unfold startTransaction. cbv zeta. sends_tac. Qed.

Lemma sends_resetTransaction (confirm : option bool) :
  sends (resetTransaction transport confirm) (eq [121]).
Proof. unfold resetTransaction. sends_tac. Qed.

Lemma sends_try_body (p : Prepared) (pid : option string) (unlockTime : Z) :
  sends (try_body transport Config config Transaction_from tx_hash tx_size p pid unlockTime)
    (then_dumps ([113; 112; 114; 112] ++ repeat 115 (List.length (p_inputs p))
                   ++ [112; 116; 112] ++ repeat 117 (List.length (p_outputs p))
                   ++ [112; 118; 112; 119; 112])).
Proof.
  unfold try_body.
  eapply sends_weaken.
  - eapply sends_bind_dumps; [apply sends_startTransaction | intros _].
    eapply sends_bind_dumps; [apply sends_expect_state | intros _].
    eapply sends_bind_dumps;
      [unfold startTransactionInputLoad; sends_tac | intros _].
    eapply sends_bind_dumps; [apply sends_expect_state | intros _].
    eapply sends_bind_dumps;
      [apply sends_for_each; intros; apply sends_load_input | intros _].
    eapply sends_bind_dumps; [apply sends_expect_state | intros _].
    eapply sends_bind_dumps;
      [unfold startTransactionOutputLoad; sends_tac | intros _].
    eapply sends_bind_dumps; [apply sends_expect_state | intros _].
    eapply sends_bind_dumps;
      [apply sends_for_each; intros; apply sends_load_output | intros _].
    eapply sends_bind_dumps; [apply sends_expect_state | intros _].
    eapply sends_bind_dumps;
      [unfold finalizeTransactionPrefix; sends_tac | intros _].
    eapply sends_bind_dumps; [apply sends_expect_state | intros _].
    eapply sends_bind_dumps; [unfold signTransaction; sends_tac | intros result].
    eapply sends_bind_dumps; [apply sends_expect_state | intros _].
    apply sends_dumps_bind.
    + unfold retrieveTransaction. apply sends_dumps_bind;
        [apply sends_retrieve_loop | intros; apply sends_lift].
    + intros tx.
      change (@nil Z) with (@nil Z ++ @nil Z). sends_tac.
  - intros l [n ->]. exists n. cbn [app]. rewrite <- !app_assoc. cbn [app].
    reflexivity.
Qed.

End Order.

(** ** Output preparation *)

Section OutputPreparation.

Variable generateKeyDerivation : string -> string -> Result string.
Variable derivePublicKey : string -> Z -> string -> Result string.

Lemma all_results_ok (A : Type) (promises : list (Result A)) (l : list A) :
  all_results promises = Ok l -> promises = map (@Ok A) l.
Proof.
  revert l; induction promises as [|[a|e] rest IH]; intros l H; cbn [all_results] in H.
  - injection H as <-. reflexivity.
  - destruct (all_results rest) as [l'|e]; [|discriminate].
    injection H as <-. cbn [map]. now rewrite (IH l' eq_refl).
  - discriminate.
Qed.

Lemma start_outputs_spec (keys : KeyPair) (outputs : list GeneratedOutput) (i : Z)
    (promises : list (Result PreparedOutput)) :
  start_outputs generateKeyDerivation derivePublicKey keys outputs i = Ok promises ->
  Forall (fun output => 0 < go_amount output) outputs
  /\ List.length promises = List.length outputs
  /\ forall (n : nat) (output : GeneratedOutput),
       nth_error outputs n = Some output ->
       nth_error promises n
       = Some (prepareOutput generateKeyDerivation derivePublicKey
                 (go_destination output) (go_amount output) (i + Z.of_nat n)
                 (privateKey keys)).
Proof.
  revert i promises; induction outputs as [|output rest IH]; intros i promises H;
    cbn [start_outputs] in H.
  - injection H as <-. split; [constructor|]. split; [reflexivity|].
    intros [|n] o Hn; discriminate Hn.
  - destruct (go_amount output <=? 0) eqn:Ea; [discriminate|].
    destruct (start_outputs _ _ keys rest (i + 1)) as [ps|e] eqn:Er; [|discriminate].
    injection H as <-. destruct (IH _ _ Er) as (Hpos & Hlen & Hnth).
    apply Z.leb_gt in Ea. split; [constructor; [exact Ea | exact Hpos]|].
    split; [cbn [List.length]; now rewrite Hlen|].
    intros [|n] o Hn; cbn [nth_error] in *.
    + injection Hn as <-. now rewrite Z.add_0_r.
    + rewrite (Hnth n o Hn).
      replace (i + 1 + Z.of_nat n) with (i + Z.of_nat (S n)) by lia. reflexivity.
Qed.

Lemma prepareOutput_amount (destination : Address) (amount index : Z)
    (privateKey : string) (output : PreparedOutput) :
  prepareOutput generateKeyDerivation derivePublicKey destination amount index privateKey
  = Ok output ->
  po_amount output = amount.
Proof.
  unfold prepareOutput. intros H.
  destruct (generateKeyDerivation _ _); [|discriminate].
  destruct (derivePublicKey _ _ _); [|discriminate].
  now injection H as <-.
Qed.

Lemma insert_by_Permutation (A : Type) (le : A -> A -> bool) (x : A) (l : list A) :
  Permutation (insert_by le x l) (x :: l).
Proof.
  induction l as [|y l IH]; cbn [insert_by]; [reflexivity|].
  destruct (le x y); [reflexivity|].
  rewrite IH. apply perm_swap.
Qed.

Lemma sort_by_Permutation (A : Type) (le : A -> A -> bool) (l : list A) :
  Permutation (sort_by le l) l.
Proof.
  induction l as [|x l IH]; cbn [sort_by fold_right]; [reflexivity|].
  change (fold_right (insert_by le) [] l) with (sort_by le l).
  rewrite insert_by_Permutation. now constructor.
Qed.

Lemma by_amount_total (a b : GeneratedOutput) : by_amount a b = false -> by_amount b a = true.
Proof. unfold by_amount. rewrite Z.leb_gt, Z.leb_le. lia. Qed.

Lemma by_amount_trans (a b c : GeneratedOutput) :
  by_amount a b = true -> by_amount b c = true -> by_amount a c = true.
Proof. unfold by_amount. rewrite !Z.leb_le. lia. Qed.

Lemma StronglySorted_map (A B : Type) (f : A -> B) (R : B -> B -> Prop) (l : list A) :
  StronglySorted (fun a b => R (f a) (f b)) l -> StronglySorted R (map f l).
Proof.
  induction 1 as [|a l Hs IH Hall]; cbn [map]; constructor; [exact IH|].
  apply Forall_map. exact Hall.
Qed.

Lemma prepareTransactionOutputs_amounts (keys : KeyPair) (outputs : list GeneratedOutput)
    (prepared : list PreparedOutput) :
  prepareTransactionOutputs generateKeyDerivation derivePublicKey keys outputs = Ok prepared ->
  map po_amount prepared = map go_amount (sort_by by_amount outputs)
  /\ forall (n : nat) (output : GeneratedOutput),
       nth_error (sort_by by_amount outputs) n = Some output ->
       exists p, nth_error prepared n = Some p
         /\ prepareOutput generateKeyDerivation derivePublicKey
              (go_destination output) (go_amount output) (Z.of_nat n) (privateKey keys)
            = Ok p.
Proof.
  unfold prepareTransactionOutputs. intros H.
  destruct (start_outputs _ _ keys _ 0) as [promises|e] eqn:Es; [|discriminate].
  apply all_results_ok in H. apply start_outputs_spec in Es.
  destruct Es as (_ & Hlen & Hnth). subst promises.
  assert (Hn : forall n output, nth_error (sort_by by_amount outputs) n = Some output ->
            exists p, nth_error prepared n = Some p
              /\ prepareOutput generateKeyDerivation derivePublicKey
                   (go_destination output) (go_amount output) (Z.of_nat n) (privateKey keys)
                 = Ok p).
  { intros n output Ho. specialize (Hnth n output Ho).
    rewrite nth_error_map in Hnth.
    destruct (nth_error prepared n) as [p|]; [|discriminate].
    cbn in Hnth. injection Hnth as Hp. exists p. split; [reflexivity | now symmetry]. }
  split; [|exact Hn].
  rewrite length_map in Hlen.
  apply nth_error_ext. intros n. rewrite !nth_error_map.
  destruct (nth_error (sort_by by_amount outputs) n) as [output|] eqn:Eo.
  - destruct (Hn n output Eo) as (p & -> & Hp). cbn.
    now rewrite (prepareOutput_amount _ _ _ _ Hp).
  - apply nth_error_None in Eo. rewrite <- Hlen in Eo.
    apply nth_error_None in Eo. now rewrite Eo.
Qed.

Lemma prepareTransactionOutputs_length (keys : KeyPair) (outputs : list GeneratedOutput)
    (prepared : list PreparedOutput) :
  prepareTransactionOutputs generateKeyDerivation derivePublicKey keys outputs = Ok prepared ->
  List.length prepared = List.length outputs.
Proof.
  intros H. apply prepareTransactionOutputs_amounts in H. destruct H as [H _].
  apply (f_equal (@List.length Z)) in H. rewrite !length_map, sort_by_length in H.
  exact H.
Qed.

(** X9. The outputs a build hands to the device are the requested ones in
    ascending order of amount: when [prepareTransactionOutputs] returns, the
    prepared list has one entry per requested output, its amounts are the
    requested amounts rearranged into ascending order, and the entry at
    position [n] carries the key derived with output index [n] for the
    destination that stands at position [n] of the sorted request. *)
Theorem prepared_outputs_are_the_sorted_request (keys : KeyPair)
    (outputs : list GeneratedOutput) (prepared : list PreparedOutput) :
  prepareTransactionOutputs generateKeyDerivation derivePublicKey keys outputs = Ok prepared ->
  List.length prepared = List.length outputs
  /\ Permutation (map po_amount prepared) (map go_amount outputs)
  /\ StronglySorted Z.le (map po_amount prepared)
  /\ forall (n : nat) (output : GeneratedOutput),
       nth_error (sort_by by_amount outputs) n = Some output ->
       exists p, nth_error prepared n = Some p
         /\ prepareOutput generateKeyDerivation derivePublicKey
              (go_destination output) (go_amount output) (Z.of_nat n) (privateKey keys)
            = Ok p.
Proof.
  intros H. split; [exact (prepareTransactionOutputs_length _ _ H)|].
  destruct (prepareTransactionOutputs_amounts _ _ H) as [Ha Hn].
  split; [|split; [|exact Hn]].
  - rewrite Ha. apply Permutation_map, sort_by_Permutation.
  - rewrite Ha. apply StronglySorted_map.
    eapply StronglySorted_weaken;
      [|apply (sort_by_sorted by_amount by_amount_total by_amount_trans)].
    intros a b _ _ Hab. unfold by_amount in Hab. cbv beta. now apply Z.leb_le.
Qed.

End OutputPreparation.

(** ** A whole build *)

Section WholeBuild.

Variable Dev : Type.
Variable transport : Dev -> Buffer -> Result Buffer * Dev.
Variable Config config : ConfigT.
Variable TransactionT : Type.
Variable Transaction_from : Buffer -> Result TransactionT.
Variable tx_hash : TransactionT -> Result string.
Variable tx_size : TransactionT -> Z.
Variable generateKeyDerivation : string -> string -> Result string.
Variable derivePublicKey : string -> Z -> string -> Result string.
Variable BigInteger16 : string -> Result Z.

#[local] Abbreviation build :=
  (createTransaction transport Config config Transaction_from tx_hash tx_size
     generateKeyDerivation derivePublicKey BigInteger16).

Lemma prepare_lists_outputs (outputs : list GeneratedOutput) (inputs : list Output)
    (randomOutputs : list (list RandomOutput)) (mixin : nat)
    (feeAmount : option Z) (pid : option string) (extraData : bool)
    (w w1 : World Dev) (fee : option Z) (p0 : Prepared) :
  prepare_lists transport Config config generateKeyDerivation derivePublicKey
    outputs inputs randomOutputs mixin feeAmount pid extraData w = (Ok (fee, p0), w1) ->
  prepareTransactionOutputs generateKeyDerivation derivePublicKey (p_tx_keys p0) outputs
  = Ok (p_outputs p0).
Proof.
  unfold prepare_lists, bind, lift, ret. intros Hp.
  destruct (validate _ _ _ _ _ _ _ _ _) as [fee'|e]; [|discriminate].
  destruct (prepareTransactionInputs inputs randomOutputs mixin) as [ins|e]; [|discriminate].
  destruct (getRandomKeyPair transport w) as [[keys|e] w2]; [|discriminate].
  destruct (prepareTransactionOutputs _ _ _ _) as [outs|e] eqn:Eo; [|discriminate].
  injection Hp as <- <- <-. exact Eo.
Qed.

Lemma before_try_counts (outputs : list GeneratedOutput) (inputs : list Output)
    (randomOutputs : list (list RandomOutput)) (mixin : nat)
    (feeAmount : option Z) (pid : option string) (extraData : bool)
    (w w1 : World Dev) (p : Prepared) :
  before_try transport Config config generateKeyDerivation derivePublicKey BigInteger16
    outputs inputs randomOutputs mixin feeAmount pid extraData w = (Ok p, w1) ->
  List.length (p_inputs p) = List.length inputs
  /\ List.length (p_outputs p) = List.length outputs
  /\ sent w1 = sent w ++ [spec_request_frame (cmd_code RANDOM_KEY_PAIR) true []].
Proof.
  intros H. apply before_try_inv in H.
  destruct H as (fee & p0 & Hp & _ & Hi & Hs & Hc).
  apply check_and_sort_inv in Hc. destruct Hc as (_ & _ & Hsort & Ho).
  apply sort_inputs_spec in Hsort. destruct Hsort as (_ & _ & Hl).
  apply prepareTransactionInputs_spec in Hi. destruct Hi as [_ Hi].
  apply prepare_lists_outputs, prepareTransactionOutputs_length in Hp.
  repeat split; [now rewrite Hl, Hi | now rewrite Ho, Hp | exact Hs].
Qed.

Lemma try_finally_ok (A : Type) (body : M Dev A) (fin : M Dev unit)
    (w w' : World Dev) (a : A) :
  try_finally body fin w = (Ok a, w') ->
  exists w1, body w = (Ok a, w1) /\ fin w1 = (Ok tt, w').
Proof.
  unfold try_finally. intros H.
  destruct (body w) as [r w1]. destruct (fin w1) as [[[]|e] w2] eqn:Ef; [|discriminate].
  injection H as -> <-. now exists w1.
Qed.

(** X8. The device sees a successful build as one fixed conversation: the
    request for the transaction keys, [TX_START], the state query, the
    opening of the input load and one [TX_LOAD_INPUT] per input, the opening
    of the output load and one [TX_LOAD_OUTPUT] per output, finalization,
    signing, the reads of [TX_DUMP] and [TX_RESET] at the end, with a state
    query after every phase. *)
Theorem successful_build_conversation (outputs : list GeneratedOutput)
    (inputs : list Output) (randomOutputs : list (list RandomOutput)) (mixin : nat)
    (feeAmount : option Z) (pid : option string) (unlockTime : option Z)
    (extraData : bool) (w w' : World Dev) (tx : TransactionT) :
  build outputs inputs randomOutputs mixin feeAmount pid unlockTime extraData w = (Ok tx, w') ->
  exists (requests : list Buffer) (reads : nat),
    sent w' = sent w ++ requests
    /\ map ins_of requests
       = build_requests (List.length inputs) (List.length outputs) reads.
Proof.
  unfold createTransaction. intros H.
  apply bind_ok in H. destruct H as (p & w1 & Hb & Ht).
  apply before_try_counts in Hb. destruct Hb as (Hi & Ho & Hs).
  apply try_finally_ok in Ht. destruct Ht as (w2 & Ht & Hr).
  apply sends_try_body in Ht. destruct Ht as (body & Eb & reads & Hins).
  apply sends_resetTransaction in Hr.
  destruct Hr as (fin & Ef & Hf).
  exists ([spec_request_frame (cmd_code RANDOM_KEY_PAIR) true []] ++ body ++ fin), reads.
  split; [rewrite Ef, Eb, Hs, <- !app_assoc; reflexivity|].
  rewrite !map_app, Hins, <- Hf, Hi, Ho. unfold build_requests.
  change (map ins_of [spec_request_frame (cmd_code RANDOM_KEY_PAIR) true []]) with [25].
  rewrite <- !app_assoc. reflexivity.
Qed.

End WholeBuild.

(** ** Input preparation, position by position *)

Lemma pick_fakes_decoys (mixin : nat) (realOutput : Output)
    (fakeOutputs all : list RandomOutput) (mixedOutputs : list PreparedInputOutputs) :
  (forall fake, In fake fakeOutputs -> In fake all) ->
  Forall (is_decoy_of realOutput all) mixedOutputs ->
  Forall (is_decoy_of realOutput all) (pick_fakes mixin realOutput fakeOutputs mixedOutputs).
Proof.
  revert mixedOutputs; induction fakeOutputs as [|f rest IH]; intros acc Hin Hacc;
    cbn [pick_fakes].
  - exact Hacc.
  - assert (Hrest : forall fake, In fake rest -> In fake all)
      by (intros fake Hf; apply Hin; now right).
    destruct (Nat.eqb (List.length acc) mixin); [now apply IH|].
    destruct (ro_globalIndex f =? out_globalIndex realOutput) eqn:E; [now apply IH|].
    apply IH; [exact Hrest|]. apply Forall_app. split; [exact Hacc|].
    constructor; [|constructor]. split.
    + cbn [pio_index]. now apply Z.eqb_neq.
    + exists f. split; [apply Hin; now left | reflexivity].
Qed.

Lemma nth_error_split_at (A : Type) (l : list A) (n : nat) (x : A) :
  nth_error l n = Some x -> l = firstn n l ++ x :: skipn (S n) l.
Proof.
  revert n; induction l as [|y l IH]; intros [|n] H; cbn in H; try discriminate.
  - now injection H as ->.
  - cbn [firstn skipn app]. f_equal. now apply IH.
Qed.

Lemma nth_error_app_cons_other (A : Type) (l1 l2 : list A) (x y : A) (j : nat) :
  nth_error (l1 ++ x :: l2) j = Some y -> j <> List.length l1 -> In y (l1 ++ l2).
Proof.
  intros H Hj. apply in_or_app.
  destruct (Nat.lt_ge_cases j (List.length l1)) as [Hlt|Hge].
  - rewrite nth_error_app1 in H by exact Hlt. left. eapply nth_error_In, H.
  - rewrite nth_error_app2 in H by exact Hge.
    destruct (j - List.length l1)%nat as [|k] eqn:Ek; [lia|].
    cbn [nth_error] in H. right. eapply nth_error_In, H.
Qed.

(** What one turn of the input loop builds: the amount, the key image and
    the account data are the real output's own; the ring holds the real
    output at [realOutputIndex], and every other member is one of the
    supplied decoys, with a global index other than the real output's. *)
Lemma prepare_input_ring (mixin : nat) (realOutput : Output)
    (fakeOutputs : list RandomOutput) (p : PreparedInput) :
  prepare_input mixin realOutput fakeOutputs = Ok p ->
  pi_amount p = out_amount realOutput
  /\ 0 < out_amount realOutput
  /\ out_input realOutput = Some (pi_input p)
  /\ out_keyImage realOutput = Some (pi_keyImage p)
  /\ pi_keyImage p <> ""%string
  /\ nth_error (pi_outputs p) (pi_realOutputIndex p)
     = Some (mkPreparedInputOutputs (out_key realOutput) (out_globalIndex realOutput))
  /\ forall (j : nat) (o : PreparedInputOutputs),
       nth_error (pi_outputs p) j = Some o -> j <> pi_realOutputIndex p ->
       is_decoy_of realOutput fakeOutputs o.
Proof.
  unfold prepare_input. intros H.
  destruct (out_keyImage realOutput) as [k|] eqn:Ek; [|discriminate].
  destruct (string_truthy (Some k)) eqn:Et; [|discriminate]. cbn [negb] in H.
  destruct (out_input realOutput) as [input|]; [|discriminate].
  destruct (out_amount realOutput <=? 0) eqn:Ea; [discriminate|].
  apply Z.leb_gt in Ea.
  match type of H with
  | match ?m with _ => _ end = _ => destruct m as [mixed|e] eqn:Em; [|discriminate]
  end.
  assert (Hdec : Forall (is_decoy_of realOutput fakeOutputs) mixed).
  { destruct (Nat.eqb mixin 0); cbn [negb] in Em.
    - injection Em as <-. constructor.
    - match type of Em with
      | (if ?c then _ else _) = _ => destruct c; [discriminate|]
      end.
      injection Em as <-. apply pick_fakes_decoys; [|constructor].
      intros fake Hf. now apply sort_by_In in Hf. }
  injection H as <-. cbn [pi_amount pi_input pi_keyImage pi_outputs pi_realOutputIndex].
  set (realMember := mkPreparedInputOutputs (out_key realOutput) (out_globalIndex realOutput)).
  set (ring := sort_by by_index (mixed ++ [realMember])).
  assert (Hperm : Permutation ring (mixed ++ [realMember]))
    by apply sort_by_Permutation.
  assert (Hreal : nth_error ring (find_real (out_globalIndex realOutput) ring 0 0)
                  = Some realMember).
  { destruct (find_real_spec (out_globalIndex realOutput) ring 0 0)
      as [[_ Hall]|[_ [o [Hn Ho]]]].
    - exfalso. rewrite Forall_forall in Hall.
      apply (Hall realMember); [|reflexivity].
      apply (Permutation_in _ (Permutation_sym Hperm)), in_or_app. right. now left.
    - rewrite Nat.sub_0_r in Hn. rewrite Hn. f_equal.
      apply nth_error_In, (Permutation_in _ Hperm), in_app_or in Hn.
      destruct Hn as [Hn|[Hn|[]]]; [|now symmetry].
      rewrite Forall_forall in Hdec. destruct (Hdec o Hn) as [Hne _]. contradiction. }
  repeat apply conj; try reflexivity; try assumption.
  - intros ->. discriminate Et.
  - intros j o Hj Hne.
    pose proof (nth_error_split_at _ _ Hreal) as Hsplit.
    set (pos := find_real (out_globalIndex realOutput) ring 0 0) in *.
    assert (Hpos : List.length (firstn pos ring) = pos).
    { apply firstn_length_le. apply Nat.lt_le_incl, nth_error_Some. now rewrite Hreal. }
    rewrite Hsplit in Hj. apply nth_error_app_cons_other in Hj; [|now rewrite Hpos].
    rewrite Hsplit in Hperm.
    assert (Hrest : Permutation (firstn pos ring ++ skipn (S pos) ring) mixed).
    { rewrite <- (app_nil_r mixed).
      apply Permutation_app_inv with (a := realMember). exact Hperm. }
    rewrite Forall_forall in Hdec. apply Hdec.
    exact (Permutation_in _ Hrest Hj).
Qed.

Lemma prepare_inputs_loop_positions (mixin : nat) (inputs : list Output)
    (randomOutputs : list (list RandomOutput)) (i : nat)
    (mixedInputs result : list PreparedInput) :
  prepare_inputs_loop mixin inputs randomOutputs i mixedInputs = Ok result ->
  forall (n : nat) (realOutput : Output),
    nth_error inputs n = Some realOutput ->
    exists p, nth_error result (List.length mixedInputs + n) = Some p
      /\ prepare_input mixin realOutput (nth (i + n) randomOutputs []) = Ok p.
Proof.
  revert i mixedInputs; induction inputs as [|r rest IH]; intros i acc H n realOutput Hn;
    cbn [prepare_inputs_loop] in H.
  - destruct n; discriminate Hn.
  - destruct (prepare_input mixin r (nth i randomOutputs [])) as [p|e] eqn:Ep;
      [|discriminate].
    destruct n as [|n]; cbn [nth_error] in Hn.
    + injection Hn as <-. exists p. rewrite !Nat.add_0_r. split; [|exact Ep].
      assert (Hkeep : forall (rest' : list Output) (j : nat) (acc' tail : list PreparedInput)
                        (result' : list PreparedInput),
                prepare_inputs_loop mixin rest' randomOutputs j (acc' ++ tail) = Ok result' ->
                exists more, result' = acc' ++ tail ++ more).
      { induction rest' as [|r' rest' IH']; intros j acc' tail result' H';
          cbn [prepare_inputs_loop] in H'.
        - injection H' as <-. exists []. now rewrite app_nil_r.
        - destruct (prepare_input mixin r' (nth j randomOutputs [])) as [p'|e]; [|discriminate].
          rewrite <- app_assoc in H'. apply IH' in H'. destruct H' as [more ->].
          exists (p' :: more). now rewrite <- app_assoc. }
      destruct (Hkeep _ _ _ _ _ H) as [more ->].
      rewrite nth_error_app2 by lia. now rewrite Nat.sub_diag.
    + destruct (IH _ _ H n realOutput Hn) as (q & Hq & Eq).
      exists q. rewrite length_app in Hq. cbn [List.length] in Hq.
      replace (List.length acc + S n)%nat with (List.length acc + 1 + n)%nat by lia.
      split; [exact Hq|]. now replace (i + S n)%nat with (S i + n)%nat by lia.
Qed.

Lemma prepareTransactionInputs_positions (inputs : list Output)
    (randomOutputs : list (list RandomOutput)) (mixin : nat)
    (result : list PreparedInput) :
  prepareTransactionInputs inputs randomOutputs mixin = Ok result ->
  forall (n : nat) (realOutput : Output),
    nth_error inputs n = Some realOutput ->
    exists p, nth_error result n = Some p
      /\ prepare_input mixin realOutput (nth n randomOutputs []) = Ok p.
Proof.
  unfold prepareTransactionInputs. intros H.
  destruct (negb (Nat.eqb (List.length inputs) (List.length randomOutputs))
            && negb (Nat.eqb mixin 0)); [discriminate|].
  destruct (existsb _ randomOutputs); [discriminate|].
  intros n realOutput Hn.
  exact (prepare_inputs_loop_positions _ _ _ _ _ H n Hn).
Qed.

(** X10. Input preparation keeps the caller's order and builds each ring
    around the real output: the prepared input at position [n] carries the
    amount, the key image and the account data of the input at position [n];
    its ring holds that output, with its own key and global index, at
    [realOutputIndex]; and every other ring member is one of the decoys
    supplied at position [n], with a global index other than the real
    output's. *)
Theorem prepared_ring_is_the_real_output_among_decoys (inputs : list Output)
    (randomOutputs : list (list RandomOutput)) (mixin : nat)
    (result : list PreparedInput) (n : nat) (realOutput : Output) :
  prepareTransactionInputs inputs randomOutputs mixin = Ok result ->
  nth_error inputs n = Some realOutput ->
  exists p, nth_error result n = Some p
    /\ pi_amount p = out_amount realOutput
    /\ out_input realOutput = Some (pi_input p)
    /\ out_keyImage realOutput = Some (pi_keyImage p)
    /\ nth_error (pi_outputs p) (pi_realOutputIndex p)
       = Some (mkPreparedInputOutputs (out_key realOutput) (out_globalIndex realOutput))
    /\ forall (j : nat) (o : PreparedInputOutputs),
         nth_error (pi_outputs p) j = Some o -> j <> pi_realOutputIndex p ->
         is_decoy_of realOutput (nth n randomOutputs []) o.
Proof.
  intros H Hn.
  destruct (prepareTransactionInputs_positions _ _ _ H n Hn) as (p & Hp & Ep).
  apply prepare_input_ring in Ep. exists p. tauto.
Qed.

(** ** The validation of the arguments of a build *)

Lemma string_truthy_spec (s : string) : string_truthy (Some s) = true <-> s <> ""%string.
Proof.
  destruct s as [|c s]; cbn; split; intros H; try reflexivity; try discriminate.
  now contradiction H.
Qed.

Section Validation.

Variable Config config : ConfigT.

Lemma check_outputs_spec (outputs : list GeneratedOutput) (neededMoney total : Z)
    (integrated integrated' : option string) :
  check_outputs Config config outputs neededMoney integrated = Ok (total, integrated') ->
  total = neededMoney + sum (amounts outputs)
  /\ (neededMoney <= UINT64_MAX -> total <= UINT64_MAX)
  /\ Forall (fun output =>
               0 < go_amount output
               /\ js_gt (go_amount output) (effective_maximumOutputAmount Config config)
                  = false) outputs
  /\ Forall (fun output =>
               paymentId (go_destination output) <> ""%string ->
               integrated' = Some (paymentId (go_destination output))) outputs
  /\ (string_truthy integrated = true -> integrated' = integrated).
Proof.
  revert neededMoney integrated;
    induction outputs as [|output rest IH]; intros neededMoney integrated H;
    cbn [check_outputs] in H.
  - injection H as <- <-. cbn. repeat split; try constructor; lia.
  - destruct (go_amount output <=? 0) eqn:Ea; [discriminate|].
    destruct (js_gt (go_amount output) _) eqn:Em; [discriminate|].
    cbv zeta in H.
    destruct (UINT64_MAX <? neededMoney + go_amount output) eqn:Eu; [discriminate|].
    apply Z.leb_gt in Ea. apply Z.ltb_ge in Eu.
    assert (Hstep : forall next,
              check_outputs Config config rest (neededMoney + go_amount output) next
              = Ok (total, integrated') ->
              (paymentId (go_destination output) <> ""%string ->
               string_truthy next = true
               /\ next = Some (paymentId (go_destination output))) ->
              (string_truthy integrated = true -> next = integrated) ->
              total = neededMoney + sum (amounts (output :: rest))
              /\ (neededMoney <= UINT64_MAX -> total <= UINT64_MAX)
              /\ Forall (fun output =>
                           0 < go_amount output
                           /\ js_gt (go_amount output)
                                (effective_maximumOutputAmount Config config) = false)
                   (output :: rest)
              /\ Forall (fun output =>
                           paymentId (go_destination output) <> ""%string ->
                           integrated' = Some (paymentId (go_destination output)))
                   (output :: rest)
              /\ (string_truthy integrated = true -> integrated' = integrated)).
    { intros next Hn Hhead Hkeep. apply IH in Hn.
      destruct Hn as (Ht & Hb & Hpos & Hpid & Hk).
      split; [unfold sum, amounts in *; cbn [map fold_right] in *; lia|].
      split; [intros _; now apply Hb|].
      split; [constructor; [now split | exact Hpos]|].
      split.
      - constructor; [|exact Hpid]. intros Hne. destruct (Hhead Hne) as [Htr ->].
        now apply Hk.
      - intros Htr. rewrite <- (Hkeep Htr). apply Hk. now rewrite (Hkeep Htr). }
    destruct (string_truthy (Some (paymentId (go_destination output)))) eqn:Ep.
    + destruct integrated as [i|].
      * destruct (string_truthy (Some i)) eqn:Ei; cbn [negb] in H.
        -- destruct (String.eqb i (paymentId (go_destination output))) eqn:Eq;
             cbn [negb] in H; [|discriminate].
           apply String.eqb_eq in Eq. subst i.
           apply (Hstep _ H); [now intros _ | reflexivity].
        -- apply (Hstep _ H); [now intros _ | discriminate].
      * apply (Hstep _ H); [now intros _ | discriminate].
    + apply (Hstep _ H); [|reflexivity].
      intros Hne. apply string_truthy_spec in Hne. congruence.
Qed.

Lemma check_inputs_spec (inputs : list Output) (foundMoney total : Z) :
  check_inputs inputs foundMoney = Ok total ->
  total = foundMoney + sum (map out_amount inputs)
  /\ (foundMoney <= UINT64_MAX -> total <= UINT64_MAX)
  /\ Forall (fun input => 0 < out_amount input) inputs.
Proof.
  revert foundMoney; induction inputs as [|input rest IH]; intros foundMoney H;
    cbn [check_inputs] in H.
  - injection H as <-. cbn. repeat split; try constructor; lia.
  - destruct (out_amount input <=? 0) eqn:Ea; [discriminate|]. cbv zeta in H.
    destruct (UINT64_MAX <? foundMoney + out_amount input) eqn:Eu; [discriminate|].
    apply Z.leb_gt in Ea. apply Z.ltb_ge in Eu.
    apply IH in H. destruct H as (Ht & Hb & Hpos).
    split; [unfold sum in *; cbn [map fold_right] in *; lia|].
    split; [intros _; now apply Hb|].
    constructor; assumption.
Qed.

(** The fee the validation works with: the argument, or the configured
    default when the argument is [undefined]. *)
Lemma validate_spec (outputs : list GeneratedOutput) (inputs : list Output)
    (randomOutputs : list (list RandomOutput)) (mixin : nat)
    (feeAmount : option Z) (pid : option string) (extraData : bool) (fee : option Z) :
  validate Config config outputs inputs randomOutputs mixin feeAmount pid extraData = Ok fee ->
  extraData = false
  /\ (mixin <> 0%nat -> List.length randomOutputs = List.length inputs)
  /\ Forall (fun randomOutput => (mixin <= List.length randomOutput)%nat) randomOutputs
  /\ Forall (fun output =>
               0 < go_amount output
               /\ js_gt (go_amount output) (effective_maximumOutputAmount Config config)
                  = false) outputs
  /\ Forall (fun input => 0 < out_amount input) inputs
  /\ sum (amounts outputs) <= sum (map out_amount inputs) <= UINT64_MAX
  /\ (forall output, In output outputs ->
        paymentId (go_destination output) <> ""%string ->
        (forall other, In other outputs ->
           paymentId (go_destination other) <> ""%string ->
           paymentId (go_destination other) = paymentId (go_destination output))
        /\ (forall p, pid = Some p -> p <> ""%string ->
              p = paymentId (go_destination output)))
  /\ (bool_or (activateFeePerByteTransactions (this_config Config config))
              (activateFeePerByteTransactions (this_config Config config)) = false ->
      forall amount, fee = Some amount ->
        amount <= sum (map out_amount inputs) - sum (amounts outputs) \/ amount = 0).
Proof.
  unfold validate. intros H.
  destruct extraData; [discriminate|]. cbv zeta in H.
  remember (match feeAmount with
            | Some _ => feeAmount
            | None => js_or (defaultNetworkFee (this_config Config config))
                            (defaultNetworkFee (this_config Config config))
            end) as fee0 eqn:Efee0.
  destruct (negb (Nat.eqb (List.length randomOutputs) (List.length inputs))
            && negb (Nat.eqb mixin 0)) eqn:Ec; [discriminate|].
  destruct (existsb _ randomOutputs) eqn:Ee; [discriminate|].
  destruct (check_outputs Config config outputs 0 None) as [[needed integrated]|e] eqn:Eo;
    [|discriminate].
  match type of H with
  | (if ?c then _ else _) = _ => destruct c eqn:Epid; [discriminate|]
  end.
  destruct (check_inputs inputs 0) as [found|e] eqn:Ei; [|discriminate].
  destruct (found <? needed) eqn:Ef; [discriminate|].
  match type of H with
  | (if ?c then _ else _) = _ => destruct c eqn:Efee; [discriminate|]
  end.
  injection H as <-.
  apply check_outputs_spec in Eo. destruct Eo as (Hn & Hnb & Hpos & Hpid & _).
  apply check_inputs_spec in Ei. destruct Ei as (Hf & Hfb & Hin).
  apply Z.ltb_ge in Ef. cbn [Z.add] in Hn, Hf.
  assert (Hu : 0 <= UINT64_MAX) by (unfold UINT64_MAX; lia).
  repeat apply conj.
  - reflexivity.
  - intros Hm. apply andb_false_iff in Ec. destruct Ec as [Ec|Ec].
    + apply negb_false_iff, Nat.eqb_eq in Ec. exact Ec.
    + apply negb_false_iff, Nat.eqb_eq in Ec. contradiction.
  - apply Forall_forall. intros r Hr.
    destruct (Nat.ltb (List.length r) mixin) eqn:El; [|now apply Nat.ltb_ge in El].
    exfalso. assert (Hex : existsb (fun randomOutput =>
                                      (List.length randomOutput <? mixin)%nat)
                             randomOutputs = true)
      by (apply existsb_exists; now exists r).
    congruence.
  - exact Hpos.
  - exact Hin.
  - lia.
  - specialize (Hfb Hu). lia.
  - intros output Ho Hne. rewrite Forall_forall in Hpid.
    pose proof (Hpid output Ho Hne) as Hi. split.
    + intros other Hother Hne'. pose proof (Hpid other Hother Hne') as Hi'. congruence.
    + intros p -> Hp. subst integrated.
      apply string_truthy_spec in Hne, Hp. rewrite Hne, Hp in Epid. cbn [andb] in Epid.
      apply negb_false_iff, String.eqb_eq in Epid. now symmetry.
  - intros Hper amount Hfee. rewrite Hper in Efee. cbn [negb andb] in Efee.
    rewrite Hfee in Efee.
    apply andb_false_iff in Efee. destruct Efee as [E|E].
    + right. now apply negb_false_iff, Z.eqb_eq in E.
    + left. apply Z.ltb_ge in E. lia.
Qed.

End Validation.

Section BuildArguments.

Variable Dev : Type.
Variable transport : Dev -> Buffer -> Result Buffer * Dev.
Variable Config config : ConfigT.
Variable TransactionT : Type.
Variable Transaction_from : Buffer -> Result TransactionT.
Variable tx_hash : TransactionT -> Result string.
Variable tx_size : TransactionT -> Z.
Variable generateKeyDerivation : string -> string -> Result string.
Variable derivePublicKey : string -> Z -> string -> Result string.
Variable BigInteger16 : string -> Result Z.

#[local] Abbreviation build :=
  (createTransaction transport Config config Transaction_from tx_hash tx_size
     generateKeyDerivation derivePublicKey BigInteger16).

Lemma build_stops_at_validation (outputs : list GeneratedOutput) (inputs : list Output)
    (randomOutputs : list (list RandomOutput)) (mixin : nat)
    (feeAmount : option Z) (pid : option string) (unlockTime : option Z)
    (extraData : bool) (e : JsError) (w : World Dev) :
  validate Config config outputs inputs randomOutputs mixin feeAmount pid extraData = Throw e ->
  build outputs inputs randomOutputs mixin feeAmount pid unlockTime extraData w = (Throw e, w).
Proof.
  intros Ev. unfold createTransaction, before_try, prepare_lists, bind, lift.
  now rewrite Ev.
Qed.

Lemma build_stops_at_input_preparation (outputs : list GeneratedOutput)
    (inputs : list Output) (randomOutputs : list (list RandomOutput)) (mixin : nat)
    (feeAmount : option Z) (pid : option string) (unlockTime : option Z)
    (extraData : bool) (fee : option Z) (e : JsError) (w : World Dev) :
  validate Config config outputs inputs randomOutputs mixin feeAmount pid extraData = Ok fee ->
  prepareTransactionInputs inputs randomOutputs mixin = Throw e ->
  build outputs inputs randomOutputs mixin feeAmount pid unlockTime extraData w = (Throw e, w).
Proof.
  intros Ev Ei. unfold createTransaction, before_try, prepare_lists, bind, lift.
  now rewrite Ev, Ei.
Qed.

(** X11. A build reaches the device only with arguments that passed the
    whole validation: if [createTransaction] hands anything to the
    transport, then no extra data was supplied, every output amount is
    positive and within the configured maximum, every input amount is
    positive and the input carries its key image and account data, the
    outputs ask for no more than the inputs supply, the inputs total at most
    2^64, the destinations that carry a payment id agree on it and with the
    [paymentId] argument, and every set of decoys has at least [mixin]
    members. *)
Theorem device_is_reached_only_by_valid_arguments (outputs : list GeneratedOutput)
    (inputs : list Output) (randomOutputs : list (list RandomOutput)) (mixin : nat)
    (feeAmount : option Z) (pid : option string) (unlockTime : option Z)
    (extraData : bool) (w : World Dev) :
  sent (snd (build outputs inputs randomOutputs mixin feeAmount pid unlockTime extraData w))
  <> sent w ->
  extraData = false
  /\ Forall (fun output =>
               0 < go_amount output
               /\ js_gt (go_amount output) (effective_maximumOutputAmount Config config)
                  = false) outputs
  /\ Forall (fun input =>
               0 < out_amount input
               /\ (exists keyImage, out_keyImage input = Some keyImage
                                    /\ keyImage <> ""%string)
               /\ out_input input <> None) inputs
  /\ sum (amounts outputs) <= sum (map out_amount inputs) <= UINT64_MAX
  /\ (forall output, In output outputs ->
        paymentId (go_destination output) <> ""%string ->
        (forall other, In other outputs ->
           paymentId (go_destination other) <> ""%string ->
           paymentId (go_destination other) = paymentId (go_destination output))
        /\ (forall p, pid = Some p -> p <> ""%string ->
              p = paymentId (go_destination output)))
  /\ Forall (fun randomOutput => (mixin <= List.length randomOutput)%nat) randomOutputs.
Proof.
  intros Hsent.
  destruct (validate Config config outputs inputs randomOutputs mixin feeAmount pid extraData)
    as [fee|e] eqn:Ev;
    [|rewrite (build_stops_at_validation _ _ _ _ _ _ unlockTime _ w Ev) in Hsent;
      now contradiction Hsent].
  destruct (prepareTransactionInputs inputs randomOutputs mixin) as [prepared|e] eqn:Ei;
    [|rewrite (build_stops_at_input_preparation _ _ _ _ _ _ unlockTime _ w Ev Ei) in Hsent;
      now contradiction Hsent].
  apply validate_spec in Ev.
  destruct Ev as (He & _ & Hdecoys & Hout & Hin & Hsum & Hpid & _).
  repeat apply conj; try assumption; try apply Hsum.
  apply Forall_forall. intros input Hinput.
  apply In_nth_error in Hinput. destruct Hinput as [n Hn].
  destruct (prepareTransactionInputs_positions _ _ _ Ei n Hn) as (p & _ & Ep).
  apply prepare_input_ring in Ep.
  destruct Ep as (_ & Hpos & Hdata & Hkey & Hne & _).
  split; [exact Hpos|]. split; [now exists (pi_keyImage p) | now rewrite Hdata].
Qed.

End BuildArguments.

(** ** What a successful build has passed *)

Section Accepted.

Variable Dev : Type.
Variable transport : Dev -> Buffer -> Result Buffer * Dev.
Variable Config config : ConfigT.
Variable TransactionT : Type.
Variable Transaction_from : Buffer -> Result TransactionT.
Variable tx_hash : TransactionT -> Result string.
Variable tx_size : TransactionT -> Z.
Variable generateKeyDerivation : string -> string -> Result string.
Variable derivePublicKey : string -> Z -> string -> Result string.
Variable BigInteger16 : string -> Result Z.

#[local] Abbreviation build :=
  (createTransaction transport Config config Transaction_from tx_hash tx_size
     generateKeyDerivation derivePublicKey BigInteger16).








End Accepted.

(** ** The keys of the helper *)

Section Keys.

Variable Dev : Type.
Variable transport : Dev -> Buffer -> Result Buffer * Dev.
Variable Address_fromPublicKeys : string -> string -> Result Address.









#[local] Abbreviation fetch := (fetchKeys transport Address_fromPublicKeys).


End Keys.

(** ** Scanning and signing *)

Section Helper.

Variable Dev : Type.
Variable transport : Dev -> Buffer -> Result Buffer * Dev.
Variable generateKeyDerivation : string -> string -> Result string.
Variable derivePublicKey : string -> Z -> string -> Result string.
Variable cn_fast_hash : string -> Result string.
Variable crypto_checkSignature : string -> string -> string -> Result bool.
Variable Address_fromPublicKeys : string -> string -> Result Address.
Variable keyImagePrimitive : string -> Z -> string -> M Dev string.
Variable Any : Type.
Variable JSON_stringify : Any -> string.




(** X15. Signing and verifying a message work on one digest: [signMessage]
    hashes the bytes of the message (the text itself, or its JSON form),
    hands the 32 bytes of that digest to the device in one
    [GENERATE_SIGNATURE] request and returns a signature of 128 hexadecimal
    digits; [verifyMessageSignature] of the same message checks a signature
    against that very digest. *)
Theorem signMessage_and_verification_share_the_digest (message : string + Any)
    (secret : option string) (signature : string) (w w' : World Dev) :
  signMessage transport cn_fast_hash JSON_stringify message secret w = (Ok signature, w') ->
  exists digest,
    cn_fast_hash (hex_encode (string_bytes
                                (match message with
                                 | inl text => text
                                 | inr value => JSON_stringify value
                                 end))) = Ok digest
    /\ isHex64 digest = true
    /\ sent w' = sent w ++ [spec_request_frame (cmd_code GENERATE_SIGNATURE) true
                              (hex_decode digest)]
    /\ List.length (hex_decode digest) = 32%nat
    /\ isHex128 signature = true
    /\ forall publicKey candidate,
         verifyMessageSignature cn_fast_hash crypto_checkSignature JSON_stringify
           message publicKey candidate
         = crypto_checkSignature digest publicKey candidate.
Proof.
  unfold signMessage, verifyMessageSignature. cbv zeta. intros H.
  apply bind_ok in H. destruct H as (digest & w1 & Hd & H).
  apply lift_ok in Hd. destruct Hd as [Hd ->].
  exists digest. rewrite Hd.
  unfold generateSignature in H.
  destruct (negb (isHex64 digest)) eqn:Ehex; [discriminate H|].
  apply negb_false_iff in Ehex. cbv zeta in H.
  apply bind_ok in H. destruct H as (result & w2 & He & H).
  apply exchange_ok_sent in He. cbn [payload_of confirm_of app] in He.
  destruct (negb (Nat.eqb (List.length result) 64)) eqn:Elen; [discriminate H|].
  apply negb_false_iff, Nat.eqb_eq in Elen.
  invert_ok.
  match goal with
  | E : reader_hex 64 _ = Ok ?p |- _ =>
      destruct p as [s rest]; cbn [fst]; apply reader_hex_is_hex in E;
      destruct E as (_ & Hfull & _)
  end.
  repeat apply conj; try reflexivity; try assumption.
  - now apply hash_bytes.
  - rewrite isHex128_spec. apply Hfull. rewrite Elen. apply le_n.
Qed.

End Helper.

(** ** Splitting an amount into outputs *)

Section Splitting.

Variable Config config : ConfigT.
Variable Address_fromAddress : string -> Result Address.

Lemma outputs_loop_bounded (maxAmt : option Z) (destination : Address) (ds : list Z)
    (i : Z) (result : list GeneratedOutput) :
  (forall m, maxAmt = Some m -> 0 < m) ->
  Forall (fun d => 0 <= d <= 9) ds -> 0 <= i ->
  exists result',
    outputs_loop maxAmt destination (map digit_char ds) i result = Some result'
    /\ sum (amounts result) <= sum (amounts result')
       <= sum (amounts result) + 10 ^ i * digits_value ds
    /\ (Forall (fun output => go_destination output = destination) result ->
        Forall (fun output => go_destination output = destination) result').
Proof.
  intros Hmax. revert i result; induction ds as [|d ds IH]; intros i acc Hds Hi.
  - exists acc. split; [reflexivity|]. cbn [digits_value]. split; [lia | trivial].
  - inversion Hds as [|? ? Hd Hds']; subst.
    cbn [map outputs_loop digits_value]. rewrite parseInt_digit_char by assumption.
    assert (Hpow : 10 ^ (i + 1) = 10 * 10 ^ i) by (rewrite Z.pow_add_r; lia).
    assert (Hpos : 0 < 10 ^ i) by (apply Z.pow_pos_nonneg; lia).
    assert (Hamt : 0 <= d * 10 ^ i) by nia.
    assert (Hrest : 0 <= digits_value ds).
    { clear - Hds'. induction Hds' as [|x l Hx Hl IHl]; cbn [digits_value]; lia. }
    destruct (js_gt (d * 10 ^ i) maxAmt) eqn:Egt.
    + destruct maxAmt as [m|] eqn:Emax; [|discriminate].
      pose proof (Hmax m eq_refl) as Hm.
      unfold split_fuel. assert (Hm' : (0 <? m) = true) by now apply Z.ltb_lt.
      rewrite Hm'.
      rewrite split_loop_terminates;
        [| exact Hm | exact Hamt | apply Nat.lt_succ_diag_r].
      destruct (IH (i + 1)
                  (acc ++ repeat (mkGeneratedOutput m destination)
                                 (Z.to_nat (d * 10 ^ i / m))) Hds' ltac:(lia))
        as (r & Hr & Hsum & Hdest).
      exists r. split; [exact Hr|].
      rewrite sum_amounts_app, sum_amounts_repeat in Hsum. cbn [go_amount] in Hsum.
      rewrite Z2Nat.id in Hsum by (apply Z.div_pos; lia).
      pose proof (Z.div_mod (d * 10 ^ i) m ltac:(lia)) as Hdm.
      pose proof (Z.mod_pos_bound (d * 10 ^ i) m Hm) as Hmod.
      assert (Hq : 0 <= d * 10 ^ i / m) by (apply Z.div_pos; lia).
      split; [rewrite Hpow in Hsum; nia|].
      intros Hacc. apply Hdest, Forall_app. split; [exact Hacc|].
      apply Forall_forall. intros o Ho. apply repeat_spec in Ho. now subst o.
    + destruct (negb (d * 10 ^ i =? 0)) eqn:Ez.
      * destruct (IH (i + 1) (acc ++ [mkGeneratedOutput (d * 10 ^ i) destination])
                    Hds' ltac:(lia)) as (r & Hr & Hsum & Hdest).
        exists r. split; [exact Hr|].
        rewrite sum_amounts_app in Hsum.
        change (sum (amounts [mkGeneratedOutput (d * 10 ^ i) destination]))
          with (d * 10 ^ i + 0) in Hsum.
        split; [rewrite Hpow in Hsum; nia|].
        intros Hacc. apply Hdest, Forall_app. split; [exact Hacc|].
        now repeat constructor.
      * destruct (IH (i + 1) acc Hds' ltac:(lia)) as (r & Hr & Hsum & Hdest).
        exists r. split; [exact Hr|].
        split; [rewrite Hpow in Hsum; nia | exact Hdest].
Qed.

(** X16. With a positive output bound (or none) [generateTransactionOutputs]
    returns for every amount from 0 to [MAX_SAFE_INTEGER], the integers that
    a number prints digit by digit, and every address that decodes; all
    outputs go to the decoded address; every amount is a piece [d * 10^k]
    of the decimal form or the bound itself; the amounts never add up to
    more than the amount asked for, and to exactly that amount when the
    bound divides every piece above it. A negative amount and an address
    that does not decode are thrown back. *)
Theorem generateTransactionOutputs_never_exceeds_the_amount (address : string)
    (amount : Z) :
  (amount < 0 ->
   generateTransactionOutputs Config Address_fromAddress config address amount
   = Some (Throw (RangeError "Amount must be a positive value")))
  /\ (forall e, 0 <= amount -> Address_fromAddress address = Throw e ->
        generateTransactionOutputs Config Address_fromAddress config address amount
        = Some (Throw e))
  /\ (forall destination,
        0 <= amount <= MAX_SAFE_INTEGER ->
        Address_fromAddress address = Ok destination ->
        (forall m, effective_maximumOutputAmount Config config = Some m -> 0 < m) ->
        exists result,
          generateTransactionOutputs Config Address_fromAddress config address amount
          = Some (Ok result)
          /\ sum (amounts result) <= amount
          /\ (splits_evenly (effective_maximumOutputAmount Config config) ->
              sum (amounts result) = amount)
          /\ Forall (fun output =>
                       go_destination output = destination
                       /\ (digit_piece (go_amount output)
                           \/ effective_maximumOutputAmount Config config
                              = Some (go_amount output))) result).
Proof.
  split; [|split].
  - intros Hn. unfold generateTransactionOutputs. apply Z.ltb_lt in Hn. now rewrite Hn.
  - intros e Hn Ha. unfold generateTransactionOutputs. apply Z.ltb_ge in Hn.
    now rewrite Hn, Ha.
  - intros destination [Hn Hs] Ha Hmax.
    destruct (@outputs_loop_bounded _ destination
                (digits_lsb (S (Z.to_nat (Z.log2 amount))) amount) 0 [] Hmax
                (digits_lsb_range (S (Z.to_nat (Z.log2 amount))) Hn) (Z.le_refl 0))
      as (r & Hr & Hsum & Hdest).
    assert (Hcall : generateTransactionOutputs Config Address_fromAddress config address amount
                    = Some (Ok r)).
    { unfold generateTransactionOutputs. cbv zeta.
      pose proof Hn as Hn'. apply Z.ltb_ge in Hn'. rewrite Hn', Ha.
      replace (MAX_SAFE_INTEGER <? amount) with false by (symmetry; now apply Z.ltb_ge).
      rewrite amountChars_digits by exact Hs.
      unfold effective_maximumOutputAmount, this_config in Hr. now rewrite Hr. }
    exists r. split; [exact Hcall|].
    rewrite digits_lsb_value in Hsum by (split; [exact Hn | now apply enough_digits]).
    change (sum (amounts [])) with 0 in Hsum. rewrite Z.pow_0_r in Hsum.
    split; [lia|]. split.
    + intros Heven.
      destruct (generateTransactionOutputs_sum Config config Address_fromAddress address
                  (conj Hn Hs) Ha Heven) as (r' & Hr' & Hexact).
      rewrite Hcall in Hr'. now injection Hr' as <-.
    + pose proof (generateTransactionOutputs_shape _ _ _ _ _ Hcall) as Hshape.
      specialize (Hdest (Forall_nil _)).
      unfold amounts in Hshape. rewrite Forall_map in Hshape.
      rewrite Forall_forall in *. intros o Ho. split; [now apply Hdest | now apply Hshape].
Qed.

End Splitting.

(** ** The derivation commands and the signature check *)

Section Derivations.

Variable Dev : Type.
Variable transport : Dev -> Buffer -> Result Buffer * Dev.

Ltac one_request cmd confirm n :=
  cbn [negb]; cbv zeta;
  apply (@sends_one _ transport cmd confirm _ n); [|lia|silent_tac].

(** X17. The key-derivation commands and the signature check of the Device
    Client validate before they send, and then send one request of a fixed
    size: [generateKeyDerivation] takes a key of 64 hexadecimal digits and
    sends 38 bytes; [derivePublicKey] and [deriveSecretKey] take such a
    derivation and an output index of 32 bits, from 0 to [2 ^ 32 - 1], and
    send 42 bytes;
    [checkSignature] takes a digest and a key of 64 digits and a signature of
    128 and sends 134 bytes. With any other argument the call throws and
    nothing is sent. *)
Theorem derivation_commands_check_then_send_one_request :
  (forall key confirm,
     (isHex64 key = false ->
      fails_locally (LedgerDevice.generateKeyDerivation transport key confirm))
     /\ (isHex64 key = true ->
         forall w, exists request,
           sent (snd (LedgerDevice.generateKeyDerivation transport key confirm w))
           = sent w ++ [request]
           /\ List.length request = 38%nat
           /\ ins_of request = cmd_code GENERATE_KEY_DERIVATION))
  /\ (forall derivation index confirm,
        (isHex64 derivation = false \/ index < 0 \/ 4294967295 < index ->
         fails_locally (LedgerDevice.derivePublicKey transport derivation index confirm)
         /\ fails_locally (LedgerDevice.deriveSecretKey transport derivation index confirm))
        /\ (isHex64 derivation = true -> 0 <= index <= 4294967295 ->
            forall w,
              (exists request,
                 sent (snd (LedgerDevice.derivePublicKey transport derivation index confirm w))
                 = sent w ++ [request]
                 /\ List.length request = 42%nat
                 /\ ins_of request = cmd_code DERIVE_PUBLIC_KEY)
              /\ (exists request,
                    sent (snd (LedgerDevice.deriveSecretKey transport derivation index
                                 confirm w))
                    = sent w ++ [request]
                    /\ List.length request = 42%nat
                    /\ ins_of request = cmd_code DERIVE_SECRET_KEY)))
  /\ (forall digest key signature,
        (isHex64 digest = false \/ isHex64 key = false \/ isHex128 signature = false ->
         fails_locally (LedgerDevice.checkSignature transport digest key signature))
        /\ (isHex64 digest = true -> isHex64 key = true -> isHex128 signature = true ->
            forall w, exists request,
              sent (snd (LedgerDevice.checkSignature transport digest key signature w))
              = sent w ++ [request]
              /\ List.length request = 134%nat
              /\ ins_of request = cmd_code CHECK_SIGNATURE)).
Proof.
  split; [|split].
  - intros key confirm. split.
    + intros Hbad. unfold LedgerDevice.generateKeyDerivation. rewrite Hbad. local_failure.
    + intros Hkey w. unfold LedgerDevice.generateKeyDerivation. rewrite Hkey.
      one_request GENERATE_KEY_DERIVATION confirm 32%nat.
      now rewrite length_app, (hash_bytes _ Hkey).
  - intros derivation index confirm. split.
    + intros H. split.
      * unfold LedgerDevice.derivePublicKey. fails_through_checks. cbv zeta.
        apply fails_bind_lift. intros writer Hw.
        apply Writer_uint32_t_written in Hw. exfalso.
        match goal with
        | E1 : negb _ = false |- _ => apply negb_false_iff in E1
        end.
        destruct H as [H|[H|H]]; [congruence | lia | lia].
      * unfold LedgerDevice.deriveSecretKey. fails_through_checks. cbv zeta.
        apply fails_bind_lift. intros writer Hw.
        apply Writer_uint32_t_written in Hw. exfalso.
        match goal with
        | E1 : negb _ = false |- _ => apply negb_false_iff in E1
        end.
        destruct H as [H|[H|H]]; [congruence | lia | lia].
    + intros H Hindex w. split.
      * unfold LedgerDevice.derivePublicKey. rewrite H.
        replace (index <? 0) with false by (symmetry; apply Z.ltb_ge; lia).
        cbn [negb]. cbv zeta. rewrite Writer_uint32_t_ok by exact Hindex. written_field.
        one_request DERIVE_PUBLIC_KEY confirm 36%nat.
        rewrite !length_app, (hash_bytes _ H). unfold uint32_be.
        now rewrite uint_be_length.
      * unfold LedgerDevice.deriveSecretKey. rewrite H.
        replace (index <? 0) with false by (symmetry; apply Z.ltb_ge; lia).
        cbn [negb]. cbv zeta. rewrite Writer_uint32_t_ok by exact Hindex. written_field.
        one_request DERIVE_SECRET_KEY confirm 36%nat.
        rewrite !length_app, (hash_bytes _ H). unfold uint32_be.
        now rewrite uint_be_length.
  - intros digest key signature. split.
    + intros Hbad. unfold LedgerDevice.checkSignature. fails_through_checks. exfalso.
      repeat match goal with
             | E : negb _ = false |- _ => apply negb_false_iff in E
             end.
      destruct Hbad as [H|[H|H]]; congruence.
    + intros Hd Hk Hs w. unfold LedgerDevice.checkSignature. rewrite Hd, Hk, Hs.
      one_request CHECK_SIGNATURE (@None bool) 128%nat.
      now rewrite !length_app, (hash_bytes _ Hd), (hash_bytes _ Hk), (signature_bytes _ Hs).
Qed.

End Derivations.

(** ** Reading the transaction back *)

Section Retrieval.

Variable Dev : Type.
Variable transport : Dev -> Buffer -> Result Buffer * Dev.
Variable Config : ConfigT.
Variable TransactionT : Type.
Variable Transaction_from : Buffer -> Result TransactionT.





(** The library's bound is 38400: a device whose dump never ends is read
    132 times, up to 33000 bytes, and the next offset is refused. *)
Example endless_dump_is_refused_past_32767 :
  (exists message,
     fst (retrieveTransaction endless_device ledger_size_config
            (fun bytes : Buffer => Ok bytes) (mkWorld [] tt ready_session))
     = Throw (RangeError message))
  /\ List.length
       (sent (snd (retrieveTransaction endless_device ledger_size_config
                     (fun bytes : Buffer => Ok bytes) (mkWorld [] tt ready_session))))
     = 132%nat.
Proof. split; [eexists|]; vm_compute; reflexivity. Qed.

End Retrieval.

(** ** The properties at concrete inputs *)

Lemma ring_bound_witness :
  fails_locally
    (LedgerDevice.generateRingSignatures accepting_device lowercase_key 0 lowercase_key
       lowercase_key (repeat lowercase_key 13) 0 None)
  /\ fails_locally
       (LedgerDevice.generateRingSignatures accepting_device lowercase_key 4294967296
          lowercase_key lowercase_key [lowercase_key] 0 None)
  /\ exists request,
       sent (snd (LedgerDevice.generateRingSignatures accepting_device lowercase_key 7
                    lowercase_key lowercase_key [lowercase_key] 0 None fresh_world))
       = sent fresh_world ++ [request]
       /\ List.length request = (110 + 32 * 1)%nat
       /\ ins_of request = 80.
Proof.
  split; [|split].
  - apply (proj1 (@generateRingSignatures_ring_bound unit accepting_device lowercase_key 0
                    lowercase_key lowercase_key (repeat lowercase_key 13) 0 None)).
    left. right. cbn [List.length repeat]. lia.
  - apply (proj1 (@generateRingSignatures_ring_bound unit accepting_device lowercase_key
                    4294967296 lowercase_key lowercase_key [lowercase_key] 0 None)).
    right. left. lia.
  - apply (proj2 (@generateRingSignatures_ring_bound unit accepting_device lowercase_key 7
                    lowercase_key lowercase_key [lowercase_key] 0 None));
      try (vm_compute; reflexivity); try lia.
    cbn [List.length]. lia.
Defined.

Lemma check_ring_bound_witness :
  fails_locally
    (LedgerDevice.checkRingSignatures accepting_device lowercase_key lowercase_key
       (repeat lowercase_key 5) (repeat (lowercase_key ++ lowercase_key)%string 5)).
Proof.
  apply (proj1 (@checkRingSignatures_ring_bound unit accepting_device lowercase_key
                  lowercase_key (repeat lowercase_key 5)
                  (repeat (lowercase_key ++ lowercase_key)%string 5))).
  right. left. cbn [List.length repeat]. lia.
Defined.

Lemma transaction_commands_validate_witness :
  fails_locally (startTransaction accepting_device 0 91 1 lowercase_key None).
Proof.
  apply (proj1 (@transaction_commands_validate_locally unit accepting_device no_config)).
  right. left. lia.
Defined.

Lemma transaction_commands_sizes_witness :
  (exists request,
     sent (snd (loadTransactionOutput accepting_device no_config 100 lowercase_key
                  fresh_world))
     = sent fresh_world ++ [request]
     /\ List.length request = 46%nat
     /\ ins_of request = 117)
  /\ fails_locally
       (startTransaction accepting_device 18446744073709551616 1 1 lowercase_key None).
Proof.
  destruct (@transaction_commands_have_fixed_sizes unit accepting_device no_config)
    as (_ & _ & Houtput & Hstart & _).
  split.
  - apply Houtput; [lia | reflexivity | vm_compute; reflexivity].
  - apply Hstart. lia.
Defined.

Lemma successful_build_conversation_witness :
  demo_build = (Ok [1; 2; 3], snd demo_build)
  /\ exists (requests : list Buffer) (reads : nat),
       sent (snd demo_build) = sent builder_world ++ requests
       /\ map ins_of requests = build_requests 12 1 reads.
Proof.
  split; [vm_compute; reflexivity|].
  apply (@successful_build_conversation nat scripted_device builder_config builder_config
           Buffer demo_Transaction_from demo_tx_hash demo_tx_size
           demo_generateKeyDerivation demo_derivePublicKey parse_hex
           demo_outputs demo_inputs demo_randomOutputs 3%nat (Some 0) None None false
           builder_world (snd demo_build) [1; 2; 3]).
  vm_compute. reflexivity.
Defined.

Lemma prepared_outputs_witness :
  prepareTransactionOutputs demo_generateKeyDerivation demo_derivePublicKey demo_tx_keys
    demo_two_outputs = Ok demo_prepared_outputs
  /\ List.length demo_prepared_outputs = 2%nat
  /\ StronglySorted Z.le (map po_amount demo_prepared_outputs).
Proof.
  assert (H : prepareTransactionOutputs demo_generateKeyDerivation demo_derivePublicKey
                demo_tx_keys demo_two_outputs = Ok demo_prepared_outputs)
    by (vm_compute; reflexivity).
  split; [exact H|].
  destruct (@prepared_outputs_are_the_sorted_request demo_generateKeyDerivation
              demo_derivePublicKey demo_tx_keys demo_two_outputs demo_prepared_outputs H)
    as (Hlen & _ & Hsorted & _).
  split; [exact Hlen | exact Hsorted].
Defined.

Lemma prepared_ring_witness :
  prepareTransactionInputs demo_inputs demo_randomOutputs 3 = Ok demo_prepared_inputs
  /\ nth_error demo_inputs 0 = Some (demo_input 1)
  /\ exists p, nth_error demo_prepared_inputs 0 = Some p
       /\ nth_error (pi_outputs p) (pi_realOutputIndex p)
          = Some (mkPreparedInputOutputs (key_of 1) 101).
Proof.
  assert (H : prepareTransactionInputs demo_inputs demo_randomOutputs 3
              = Ok demo_prepared_inputs) by (vm_compute; reflexivity).
  split; [exact H|]. split; [reflexivity|].
  destruct (@prepared_ring_is_the_real_output_among_decoys demo_inputs demo_randomOutputs
              3%nat demo_prepared_inputs 0%nat (demo_input 1) H eq_refl)
    as (p & Hp & _ & _ & _ & Hreal & _).
  exists p. split; [exact Hp | exact Hreal].
Defined.

Lemma valid_arguments_witness :
  sent (snd demo_build) <> sent builder_world
  /\ sum (amounts demo_outputs) <= sum (map out_amount demo_inputs) <= UINT64_MAX.
Proof.
  split; [vm_compute; discriminate|].
  assert (H : sent (snd (createTransaction scripted_device builder_config builder_config
                           demo_Transaction_from demo_tx_hash demo_tx_size
                           demo_generateKeyDerivation demo_derivePublicKey parse_hex
                           demo_outputs demo_inputs demo_randomOutputs 3 (Some 0) None None
                           false builder_world))
              <> sent builder_world) by (vm_compute; discriminate).
  destruct (@device_is_reached_only_by_valid_arguments nat scripted_device builder_config
              builder_config Buffer demo_Transaction_from demo_tx_hash demo_tx_size
              demo_generateKeyDerivation demo_derivePublicKey parse_hex
              demo_outputs demo_inputs demo_randomOutputs 3%nat (Some 0) None None false
              builder_world H) as (_ & _ & _ & Hsum & _).
  exact Hsum.
Defined.




Lemma signMessage_witness :
  demo_sign = (Ok (hex_encode (repeat 5 64)), snd demo_sign)
  /\ exists digest,
       isHex64 digest = true
       /\ verifyMessageSignature demo_cn_fast_hash demo_checkSignature demo_stringify
            (inl "hello"%string) lowercase_key (hex_encode (repeat 5 64))
          = demo_checkSignature digest lowercase_key (hex_encode (repeat 5 64)).
Proof.
  assert (H : demo_sign = (Ok (hex_encode (repeat 5 64)), snd demo_sign))
    by (vm_compute; reflexivity).
  split; [exact H|].
  destruct (@signMessage_and_verification_share_the_digest unit signing_device
              demo_cn_fast_hash demo_checkSignature unit demo_stringify
              (inl "hello"%string) None (hex_encode (repeat 5 64)) ready_world
              (snd demo_sign) H) as (digest & _ & Hhex & _ & _ & _ & Hverify).
  exists digest. split; [exact Hhex | apply Hverify].
Defined.

Lemma splitting_witness :
  exists result,
    generateTransactionOutputs no_config (fun _ => Ok demo_address)
      (config_with_maximum 100000) "address" 1234567
    = Some (Ok result)
    /\ sum (amounts result) <= 1234567.
Proof.
  destruct (proj2 (proj2 (@generateTransactionOutputs_never_exceeds_the_amount no_config
                            (config_with_maximum 100000) (fun _ => Ok demo_address)
                            "address"%string 1234567))
              demo_address ltac:(unfold MAX_SAFE_INTEGER; lia) eq_refl)
    as (result & Hr & Hle & _).
  - intros m Hm. vm_compute in Hm. injection Hm as <-. lia.
  - exists result. split; [exact Hr | exact Hle].
Defined.

Lemma derivation_commands_witness :
  (exists request,
     sent (snd (LedgerDevice.generateKeyDerivation accepting_device lowercase_key None
                  fresh_world))
     = sent fresh_world ++ [request]
     /\ List.length request = 38%nat
     /\ ins_of request = cmd_code GENERATE_KEY_DERIVATION)
  /\ fails_locally
       (LedgerDevice.derivePublicKey accepting_device lowercase_key 4294967296 None)
  /\ exists request,
       sent (snd (LedgerDevice.derivePublicKey accepting_device lowercase_key 4294967295
                    None fresh_world))
       = sent fresh_world ++ [request]
       /\ List.length request = 42%nat
       /\ ins_of request = cmd_code DERIVE_PUBLIC_KEY.
Proof.
  destruct (@derivation_commands_check_then_send_one_request unit accepting_device)
    as (Hderivation & Hkeys & _).
  split; [|split].
  - apply (proj2 (Hderivation lowercase_key None)). vm_compute. reflexivity.
  - apply (proj1 (Hkeys lowercase_key 4294967296 None)). right. right. lia.
  - apply (proj2 (Hkeys lowercase_key 4294967295 None));
      [vm_compute; reflexivity | lia].
Defined.

